(** * twitch2tg-bot: the session state machine, the retry executor and the
      message composer, embedded in Rocq.

    The Go sources embedded here are [monitor.go] (retryWithBackoff,
    monitorLoop, sleep, fileExists), [format.go] (the message composer), the
    Telegram client (sendPhotoMessage, editPhotoMessage, editMessageCaption),
    the types and metrics of the main file (loadConfig, calculateAverage,
    getMaxViewers, getLocalization) and [formatDuration] /
    [getThumbnailURL] of the Twitch client.

    Conventions.
    - Go's [int] is the 64-bit signed integer: a [Z] with the wrap-around
      written out ([wrap]).
    - Go's [string] is a byte string: [String.string].
    - Go's [float64] is IEEE-754 binary64: the Standard Library's
      specification of binary floating point ([SpecFloat], prec = 53,
      emax = 1024), which computes and needs no axiom.
    - A field [F] of a Go struct is named with a short prefix of its struct
      ([info_Title], [sess_Title], [clip_Title], ...), because Rocq's record
      fields share one name space.
    - Everything the program does to the outside (Twitch, Telegram, the
      clock, the file system, the cancellation signal) goes through an
      explicit [World]. Logging ([slog]) is left out.
    - The infinite loops take a [fuel]: the number of iterations the model
      follows before it answers [None]. *)

From Stdlib Require Import ZArith List String Ascii Bool Lia.
From Stdlib Require Import SpecFloat DecimalString QArith.
Import ListNotations.

Open Scope string_scope.
Open Scope Z_scope.

(* ===================================================================== *)
(** * Go's [int] *)
(* ===================================================================== *)

Definition int_min : Z := - 2 ^ 63.
Definition int_max : Z := 2 ^ 63 - 1.

(** Two's complement wrap-around of a mathematical integer into [int]. *)
Definition wrap (z : Z) : Z := (z + 2 ^ 63) mod 2 ^ 64 - 2 ^ 63.

Definition int_add (a b : Z) : Z := wrap (a + b).
Definition int_sub (a b : Z) : Z := wrap (a - b).
Definition int_mul (a b : Z) : Z := wrap (a * b).

(** [a / b] and [a % b] for [b <> 0]: truncated toward zero. *)
Definition int_quo (a b : Z) : Z := wrap (Z.quot a b).
Definition int_rem (a b : Z) : Z := Z.rem a b.

Definition in_int (z : Z) : Prop := int_min <= z <= int_max.

(* ===================================================================== *)
(** * Strings: the pieces of [fmt] and [strings] the program uses *)
(* ===================================================================== *)

(** [fmt.Sprintf("%d", n)]. *)
Definition itoa (n : Z) : string := NilZero.string_of_int (Z.to_int n).

(** [strings.Join]. *)
Fixpoint join (sep : string) (l : list string) : string :=
  match l with
  | [] => ""
  | [x] => x
  | x :: r => x ++ sep ++ join sep r
  end.

(** [strings.ReplaceAll(s, old, new)] for a one-byte [old]. *)
Fixpoint replaceAll1 (old : ascii) (new : string) (s : string) : string :=
  match s with
  | EmptyString => EmptyString
  | String c r =>
      if Ascii.eqb c old then new ++ replaceAll1 old new r
      else String c (replaceAll1 old new r)
  end.

(** [s != ""]. *)
Definition nonempty (s : string) : bool :=
  match s with EmptyString => false | String _ _ => true end.

(** The byte 0x22, which a string literal of this file cannot hold. *)
Definition dquote : string := String (ascii_of_nat 34) EmptyString.

(** [n] copies of the byte ['0']. *)
Fixpoint zeros (n : nat) : string :=
  match n with O => "" | S k => "0" ++ zeros k end.

(* ===================================================================== *)
(** * Go's [float64] *)
(* ===================================================================== *)

Module F64.

Definition prec : Z := 53.
Definition emax : Z := 1024.

Definition t : Type := spec_float.

Definition zero : t := S754_zero false.

(** [float64(n)] for an integer [n]: round to nearest, ties to even. *)
Definition of_int (n : Z) : t := binary_normalize prec emax n 0 false.

Definition add : t -> t -> t := SFadd prec emax.
Definition sub : t -> t -> t := SFsub prec emax.
Definition div : t -> t -> t := SFdiv prec emax.
Definition neg : t -> t := SFopp.

(** [x < y] and [x <= y]: false as soon as an operand is NaN. *)
Definition ltb : t -> t -> bool := SFltb.
Definition leb : t -> t -> bool := SFleb.

(** A decimal constant [num / den] of the source text ([0.07] is
    [lit 7 100]): the double nearest to the exact quotient, which is what
    the correctly rounded division of two exactly represented integers
    returns. *)
Definition lit (num den : Z) : t := div (of_int num) (of_int den).

(** [int(x)]: the integer part, truncated toward zero, wrapped into
    [int] (Go leaves the out-of-range case to the implementation). *)
Definition to_int (x : t) : Z :=
  match x with
  | S754_finite s m e =>
      let a := if 0 <=? e then Zpos m * 2 ^ e else Zpos m / 2 ^ (- e) in
      wrap (if s then - a else a)
  | _ => 0
  end.

(** [num / den] rounded to the nearest integer, ties to even
    ([0 <= num], [0 < den]). *)
Definition div_round_even (num den : Z) : Z :=
  let q := num / den in
  let r := num mod den in
  match 2 * r ?= den with
  | Lt => q
  | Gt => q + 1
  | Eq => if Z.even q then q else q + 1
  end.

(** The magnitude [m * 2^e] times [10^digits], as the nearest integer:
    strconv rounds the exact decimal expansion, ties to even. *)
Definition scaled (digits : nat) (m : positive) (e : Z) : Z :=
  if 0 <=? e then Zpos m * 2 ^ e * 10 ^ Z.of_nat digits
  else div_round_even (Zpos m * 10 ^ Z.of_nat digits) (2 ^ (- e)).

(** The [digits] decimals of [frac], zero-padded on the left. *)
Definition decimals (digits : nat) (frac : Z) : string :=
  let s := itoa frac in
  zeros (digits - String.length s) ++ s.

Definition fraction (digits : nat) (frac : Z) : string :=
  match digits with
  | O => ""
  | S _ => "." ++ decimals digits frac
  end.

Definition sign (s : bool) : string := if s then "-" else "".

(** [fmt.Sprintf("%.<digits>f", x)]. *)
Definition sprintf_f (digits : nat) (x : t) : string :=
  match x with
  | S754_nan => "NaN"
  | S754_infinity s => if s then "-Inf" else "+Inf"
  | S754_zero s => sign s ++ "0" ++ fraction digits 0
  | S754_finite s m e =>
      let v := scaled digits m e in
      let p := 10 ^ Z.of_nat digits in
      sign s ++ itoa (v / p) ++ fraction digits (v mod p)
  end.

End F64.

(* ===================================================================== *)
(** * The data model *)
(* ===================================================================== *)

(** Go's [error] values, as far as the program tells them apart: the
    context's own error, and everything built by [fmt.Errorf] or returned by
    the network stack. *)
Inductive error : Type :=
| ContextCanceled
| Errorf (msg : string).

(** The configuration as [monitorLoop] reads it. [Telegram.ChatID] is a
    [*int64] that the deliveries dereference: [cfg_ChatID] is the value it
    points to, and the record stands for the configurations that have a
    chat id. With a nil [ChatID] the program panics at its first delivery;
    a run that sends nothing to Telegram does not read it. *)
Record Config : Type := mkConfig {
  cfg_Channel : string;
  cfg_ClientID : string;
  cfg_ClientSecret : string;
  cfg_BotToken : string;
  cfg_ChatID : Z;
  cfg_ThreadID : option Z;
  cfg_Language : string;
  cfg_CheckInterval : Z;
  cfg_UpdateInterval : Z
}.

Record Localization : Type := mkLocalization {
  loc_StartedStreaming : string;
  loc_IsLive : string;
  loc_StreamEnded : string;
  loc_ButtonText : string;
  loc_Peak : string;
  loc_Viewers : string;
  loc_Avg : string;
  loc_Clips : string;
  loc_Growing : string;
  loc_Steady : string;
  loc_Dropping : string
}.

(** [time.Time] is the number of nanoseconds since the epoch. *)
Record ViewerDataPoint : Type := mkPoint {
  pt_Timestamp : Z;
  pt_Count : Z
}.

Record StreamSession : Type := mkSession {
  sess_MessageID : Z;
  sess_StartTime : Z;
  sess_Game : string;
  sess_Title : string;
  sess_Tags : list string;
  sess_BroadcasterID : string;
  sess_ViewerHistory : list ViewerDataPoint;
  sess_UpdateCounter : Z
}.

Record StreamInfo : Type := mkInfo {
  info_Channel : string;
  info_URL : string;
  info_Title : string;
  info_Game : string;
  info_Viewers : Z;
  info_Uptime : string;
  info_Tags : list string
}.

Record ClipInfo : Type := mkClip {
  clip_URL : string;
  clip_Title : string
}.

(** [getLocalization]. *)
Definition localization_en : Localization :=
  {| loc_StartedStreaming := "LIVE";
     loc_IsLive := "LIVE";
     loc_StreamEnded := "OFFLINE";
     loc_ButtonText := "Watch";
     loc_Peak := "peak";
     loc_Viewers := "viewers";
     loc_Avg := "avg";
     loc_Clips := "clips";
     loc_Growing := "growing";
     loc_Steady := "steady";
     loc_Dropping := "dropping" |}.

Definition localization_ru : Localization :=
  {| loc_StartedStreaming := "LIVE";
     loc_IsLive := "LIVE";
     loc_StreamEnded := "OFFLINE";
     loc_ButtonText := "Смотреть";
     loc_Peak := "пик";
     loc_Viewers := "зрителей";
     loc_Avg := "среднее";
     loc_Clips := "клипов";
     loc_Growing := "растёт";
     loc_Steady := "стабильно";
     loc_Dropping := "падает" |}.

Definition getLocalization (lang : string) : Localization :=
  if String.eqb lang "en" then localization_en
  else if String.eqb lang "ru" then localization_ru
  else localization_en.

(* ===================================================================== *)
(** * Viewer metrics *)
(* ===================================================================== *)

(** [len(history)] as an [int]. *)
Definition len {A : Type} (l : list A) : Z := Z.of_nat (List.length l).

(** [append(l, x)]. *)
Definition push {A : Type} (l : list A) (x : A) : list A := (l ++ [x])%list.

(** [calculateAverage]: the sum is accumulated in an [int]. *)
Definition calculateAverage (history : list ViewerDataPoint) : Z :=
  match history with
  | [] => 0
  | _ =>
      let sum := fold_left (fun sum p => int_add sum (pt_Count p)) history 0 in
      int_quo sum (len history)
  end.

(** [getMaxViewers]. *)
Definition getMaxViewers (history : list ViewerDataPoint) : Z :=
  match history with
  | [] => 0
  | p0 :: _ =>
      fold_left (fun max p => if max <? pt_Count p then pt_Count p else max)
        history (pt_Count p0)
  end.

(* ===================================================================== *)
(** * format.go *)
(* ===================================================================== *)

Definition escapeHTML (text : string) : string :=
  let text := replaceAll1 "&" "&amp;" text in
  let text := replaceAll1 "<" "&lt;" text in
  let text := replaceAll1 ">" "&gt;" text in
  text.

Definition formatTags (tags : list string) : string :=
  let hashtags := map (fun tag => "#" ++ tag) (filter nonempty tags) in
  join " " hashtags.

Definition formatClips (clips : list ClipInfo) : string :=
  match clips with
  | [] => ""
  | _ =>
      let links :=
        map (fun c => "<a href=" ++ dquote ++ clip_URL c ++ dquote ++ ">"
                      ++ escapeHTML (clip_Title c) ++ "</a>") clips in
      join " · " links
  end.

(** The two accumulation loops of [viewerTrend]. *)
Definition sumCounts (points : list ViewerDataPoint) : F64.t :=
  fold_left (fun acc p => F64.add acc (F64.of_int (pt_Count p))) points F64.zero.

Definition viewerTrend (history : list ViewerDataPoint) (loc : Localization) : string :=
  if len history <? 4 then ""
  else
    let mid := (List.length history / 2)%nat in
    let early := sumCounts (firstn mid history) in
    let late := sumCounts (skipn mid history) in
    let early := F64.div early (F64.of_int (Z.of_nat mid)) in
    let late := F64.div late (F64.of_int (len history - Z.of_nat mid)) in
    let diff := F64.div (F64.sub late early) early in
    if F64.ltb (F64.lit 7 100) diff then loc_Growing loc
    else if F64.ltb diff (F64.neg (F64.lit 7 100)) then loc_Dropping loc
    else loc_Steady loc.

Definition formatViewers (n : Z) : string :=
  if 1000000 <=? n then
    let val := F64.div (F64.of_int n) (F64.of_int 1000000) in
    if F64.leb (F64.of_int 10) val then F64.sprintf_f 0 val ++ "M"
    else F64.sprintf_f 1 val ++ "M"
  else if 10000 <=? n then
    F64.sprintf_f 0 (F64.div (F64.of_int n) (F64.of_int 1000)) ++ "K"
  else if 1000 <=? n then
    F64.sprintf_f 1 (F64.div (F64.of_int n) (F64.of_int 1000)) ++ "K"
  else itoa n.

Definition formatStartMessage (info : StreamInfo) (loc : Localization) : string :=
  let line := "<b>" ++ escapeHTML (info_Channel info) ++ "</b> • "
              ++ loc_StartedStreaming loc in
  let line := if nonempty (info_Game info)
              then line ++ " • " ++ escapeHTML (info_Game info) else line in
  let b := line ++ "

" in
  let b := if nonempty (info_Title info)
           then b ++ "<i>" ++ escapeHTML (info_Title info) ++ "</i>" else b in
  let tags := formatTags (info_Tags info) in
  let b := if nonempty tags then b ++ "

" ++ tags else b in
  b.

(** The viewer fragment of the update message's stats line: the body of
    [if info.Viewers > 0 { ... }]. *)
Definition viewersStat (info : StreamInfo) (avgViewers : Z)
    (history : list ViewerDataPoint) (loc : Localization) : string :=
  let v := formatViewers (info_Viewers info) ++ " " ++ loc_Viewers loc in
  let v := if (0 <? avgViewers) && negb (avgViewers =? info_Viewers info)
           then v ++ ", " ++ formatViewers avgViewers ++ " " ++ loc_Avg loc
           else v in
  let trend := viewerTrend history loc in
  let v := if nonempty trend then v ++ " · " ++ trend else v in
  v.

Definition formatUpdateMessage (info : StreamInfo) (avgViewers : Z)
    (history : list ViewerDataPoint) (loc : Localization) : string :=
  let line := "<b>" ++ escapeHTML (info_Channel info) ++ "</b> • " ++ loc_IsLive loc in
  let line := if nonempty (info_Game info)
              then line ++ " • " ++ escapeHTML (info_Game info) else line in
  let b := line ++ "

" in
  let b := if nonempty (info_Title info)
           then b ++ "<i>" ++ escapeHTML (info_Title info) ++ "</i>

"
           else b in
  let stats := [] in
  let stats := if nonempty (info_Uptime info)
               then push stats (info_Uptime info) else stats in
  let stats := if 0 <? info_Viewers info
               then push stats (viewersStat info avgViewers history loc)
               else stats in
  b ++ join " · " stats.

Definition formatUpdateMessageWithClips (info : StreamInfo) (avgViewers : Z)
    (history : list ViewerDataPoint) (clips : list ClipInfo)
    (loc : Localization) : string :=
  let msg := formatUpdateMessage info avgViewers history loc in
  let c := formatClips clips in
  let msg := if nonempty c then msg ++ "

" ++ c else msg in
  let tags := formatTags (info_Tags info) in
  let msg := if nonempty tags then msg ++ "

" ++ tags else msg in
  msg.

Definition formatEndMessage (channel duration : string) (avgViewers maxViewers : Z)
    (game title : string) (tags : list string) (clips : list ClipInfo)
    (loc : Localization) : string :=
  let line := "<b>" ++ escapeHTML channel ++ "</b> • " ++ loc_StreamEnded loc in
  let line := if nonempty game then line ++ " • " ++ escapeHTML game else line in
  let b := line ++ "

" in
  let b := if nonempty title
           then b ++ "<i>" ++ escapeHTML title ++ "</i>

"
           else b in
  let stats := [] in
  let stats := if nonempty duration then push stats duration else stats in
  let stats :=
    if 0 <? avgViewers then
      let v := formatViewers avgViewers ++ " " ++ loc_Avg loc in
      let v := if avgViewers <? maxViewers
               then v ++ ", " ++ formatViewers maxViewers ++ " " ++ loc_Peak loc
               else v in
      push stats v
    else stats in
  let stats := if 0 <? len clips
               then push stats (itoa (len clips) ++ " " ++ loc_Clips loc)
               else stats in
  let b := b ++ join " · " stats in
  let c := formatClips clips in
  let b := if nonempty c then b ++ "

" ++ c else b in
  let hashtags := formatTags tags in
  let b := if nonempty hashtags then b ++ "

" ++ hashtags else b in
  b.

(* ===================================================================== *)
(** * The outside world *)
(* ===================================================================== *)

(** What [getStreamInfo] returns: [(nil, err)], [(nil, nil)] or
    [(&info, nil)]. *)
Inductive StreamReply : Type :=
| StreamError (e : error)
| StreamOffline
| StreamLive (info : StreamInfo).

(** The body of a Telegram answer as [json.Unmarshal] reads it into a
    [TelegramResponse]: the [ok] flag, and the message id that the [result]
    member decodes to ([None] when it does not decode to one). *)
Record TelegramResponse : Type := mkResponse {
  tg_Ok : bool;
  tg_Result : option Z
}.

(** What [httpClient.Do] / [httpClient.Post] returns: a transport error, or
    a response with its status code and its body ([None] when the body is not
    the JSON of a [TelegramResponse]). *)
Inductive HttpReply : Type :=
| HttpError (e : error)
| HttpResponse (status : Z) (body : option TelegramResponse).

(** The answers of the environment, one per interaction: interaction number
    [k] of a run reads entry [k] of the table of its kind. [cancelAt] is the
    first interaction at which the program finds [ctx.Done()] closed. *)
Record Script : Type := mkScript {
  streamInfoAt : nat -> StreamReply;
  broadcasterAt : nat -> error + string;
  clipsAt : nat -> error + list ClipInfo;
  imageAt : nat -> option error;
  telegramAt : nat -> HttpReply;
  nowAt : nat -> Z;
  cancelAt : option nat
}.

(** What the program did to the outside, most recent first. *)
Inductive Event : Type :=
| EvRemove (filename : string)
| EvGetStreamInfo (channel : string)
| EvGetBroadcasterID (channel : string)
| EvGetRecentClips (broadcasterID : string) (since : Z)
| EvSendPhoto (photoURL caption buttonURL buttonText : string)
| EvEditPhoto (messageID : Z) (photoURL caption buttonURL buttonText : string)
| EvEditCaption (messageID : Z) (caption buttonURL buttonText : string)
| EvWait (seconds : Z) (cancelled : bool).

Record World : Type := mkWorld {
  script : Script;
  tick : nat;
  files : list string;
  trace : list Event
}.

(** One interaction: the clock of interactions advances. *)
Definition advance (w : World) : World :=
  {| script := script w; tick := S (tick w); files := files w; trace := trace w |}.

Definition record (ev : Event) (w : World) : World :=
  {| script := script w; tick := tick w; files := files w;
     trace := ev :: trace w |}.

Definition setFiles (fs : list string) (w : World) : World :=
  {| script := script w; tick := tick w; files := fs; trace := trace w |}.

(** Total interactions, and computations that may run out of fuel. *)
Definition IO (A : Type) : Type := World -> A * World.
Definition M (A : Type) : Type := World -> option (A * World).

Definition ret {A : Type} (a : A) : M A := fun w => Some (a, w).

Definition bind {A B : Type} (c : M A) (k : A -> M B) : M B :=
  fun w => match c w with
           | Some (a, w') => k a w'
           | None => None
           end.

Definition lift {A : Type} (c : IO A) : M A := fun w => Some (c w).

Declare Scope monad_scope.
Delimit Scope monad_scope with monad.
Notation "x <- c ;; k" := (bind c (fun x => k))
  (at level 61, c at next level, right associativity) : monad_scope.
Notation "c ;; k" := (bind c (fun _ => k))
  (at level 61, right associativity) : monad_scope.

(** [ctx.Done()] is closed. *)
Definition cancelled (w : World) : bool :=
  match cancelAt (script w) with
  | Some c => (c <=? tick w)%nat
  | None => false
  end.

(** [select { case <-ctx.Done(): ...; default: }]. *)
Definition ctxDone : IO bool := fun w => (cancelled w, advance w).

(** [select { case <-ctx.Done(): ...; case <-time.After(d): ... }], with [d]
    in seconds: [true] when the [ctx.Done()] case is taken. *)
Definition ctxWait (seconds : Z) : IO bool :=
  fun w => (cancelled w, advance (record (EvWait seconds (cancelled w)) w)).

(** [sleep(ctx, d)]. *)
Definition sleep (seconds : Z) : IO unit :=
  fun w => (tt, snd (ctxWait seconds w)).

(** [time.Now()]. *)
Definition timeNow : IO Z := fun w => (nowAt (script w) (tick w), advance w).

(** [fileExists]: [os.Stat] finds the file. *)
Definition fileExists (filename : string) : IO bool :=
  fun w => (existsb (String.eqb filename) (files w), advance w).

(** [os.Remove], on a file system that lets the file go: the call is
    recorded and the file is no longer there. The program drops the error
    of [os.Remove]; a removal that fails would leave the file where it
    is. *)
Definition osRemove (filename : string) : IO unit :=
  fun w => (tt, advance (record (EvRemove filename)
                  (setFiles (filter (fun f => negb (String.eqb filename f)) (files w)) w))).

(** ** The Twitch client, by what it returns *)

Definition getStreamInfo (channel : string) : IO StreamReply :=
  fun w => (streamInfoAt (script w) (tick w),
            advance (record (EvGetStreamInfo channel) w)).

Definition getBroadcasterID (channel : string) : IO (error + string) :=
  fun w => (broadcasterAt (script w) (tick w),
            advance (record (EvGetBroadcasterID channel) w)).

Definition getRecentClips (broadcasterID : string) (since : Z)
  : IO (error + list ClipInfo) :=
  fun w => (clipsAt (script w) (tick w),
            advance (record (EvGetRecentClips broadcasterID since) w)).

Definition getThumbnailURL (channel : string) : IO string :=
  fun w =>
    let (now, w) := timeNow w in
    ("https://static-cdn.jtvnw.net/previews-ttv/live_user_" ++ channel
       ++ "-1920x1080.jpg?t=" ++ itoa (now / 1000000000), w).

(** [time.Duration] constants, in nanoseconds. *)
Definition Minute : Z := 60 * 1000000000.
Definition Hour : Z := 60 * Minute.

(** [Duration.Hours] and [Duration.Minutes] of package [time]. *)
Definition durationHours (d : Z) : F64.t :=
  F64.add (F64.of_int (Z.quot d Hour))
          (F64.div (F64.of_int (Z.rem d Hour)) (F64.of_int Hour)).

Definition durationMinutes (d : Z) : F64.t :=
  F64.add (F64.of_int (Z.quot d Minute))
          (F64.div (F64.of_int (Z.rem d Minute)) (F64.of_int Minute)).

Definition formatDuration (d : Z) (lang : string) : string :=
  let hours := F64.to_int (durationHours d) in
  let minutes := int_rem (F64.to_int (durationMinutes d)) 60 in
  if String.eqb lang "ru" then
    if 0 <? hours then itoa hours ++ " ч " ++ itoa minutes ++ " мин"
    else itoa minutes ++ " мин"
  else
    if 0 <? hours then itoa hours ++ " h " ++ itoa minutes ++ " m"
    else itoa minutes ++ " m".

(** [time.Since(t)]: the difference saturates at the ends of [int64]. *)
Definition timeSince (t : Z) : IO Z :=
  fun w =>
    let (now, w) := timeNow w in
    (Z.max int_min (Z.min int_max (now - t)), w).

(** ** The Telegram client *)

Definition downloadImage (url : string) : IO (option error) :=
  fun w => (imageAt (script w) (tick w), advance w).

Definition httpDo (request : Event) : IO HttpReply :=
  fun w => (telegramAt (script w) (tick w), advance (record request w)).

(** [http.StatusOK]. *)
Definition StatusOK : Z := 200.

Definition sendPhotoMessage (photoURL caption buttonURL buttonText : string)
  : IO (Z * option error) :=
  fun w =>
    let (dl, w) := downloadImage photoURL w in
    match dl with
    | Some _ => ((0, Some (Errorf "failed to download image")), w)
    | None =>
        let (resp, w) := httpDo (EvSendPhoto photoURL caption buttonURL buttonText) w in
        match resp with
        | HttpError e => ((0, Some e), w)
        | HttpResponse _ None => ((0, Some (Errorf "invalid JSON")), w)
        | HttpResponse _ (Some result) =>
            if negb (tg_Ok result) then ((0, Some (Errorf "telegram API error")), w)
            else
              (* var msg TelegramMessage; json.Unmarshal(result.Result, &msg):
                 the error is dropped, [msg] keeps its zero value. *)
              let msgID := match tg_Result result with
                           | Some id => id
                           | None => 0
                           end in
              ((msgID, None), w)
        end
    end.

Definition editPhotoMessage (messageID : Z)
    (photoURL caption buttonURL buttonText : string) : IO (option error) :=
  fun w =>
    let (dl, w) := downloadImage photoURL w in
    match dl with
    | Some _ => (Some (Errorf "failed to download image"), w)
    | None =>
        let (resp, w) :=
          httpDo (EvEditPhoto messageID photoURL caption buttonURL buttonText) w in
        match resp with
        | HttpError e => (Some e, w)
        | HttpResponse status _ =>
            if negb (status =? StatusOK) then (Some (Errorf "telegram API error"), w)
            else (None, w)
        end
    end.

Definition editMessageCaption (messageID : Z)
    (caption buttonURL buttonText : string) : IO (option error) :=
  fun w =>
    let (resp, w) := httpDo (EvEditCaption messageID caption buttonURL buttonText) w in
    match resp with
    | HttpError e => (Some e, w)
    | HttpResponse status _ =>
        if negb (status =? StatusOK) then (Some (Errorf "telegram API error"), w)
        else (None, w)
    end.

(* ===================================================================== *)
(** * monitor.go: the retry executor *)
(* ===================================================================== *)

Definition delays : list Z := [1; 3; 5; 10; 15; 30; 45; 60].

Section RetryExecutor.

(** The state the operation works on (the world, and the variables its
    closure captures), the wait on the context, and the operation. *)
Context {St : Type}.
Variable wait : Z -> St -> bool * St.
Variable operation : St -> option error * St.

(** [for _, delay := range delays { ... }]: [inl r] when the function
    returned [r] from inside the loop, [inr s] when the range ended. *)
Fixpoint backoffPhase (ds : list Z) (s : St) : (option error * St) + St :=
  match ds with
  | [] => inr s
  | delay :: rest =>
      let (err, s) := operation s in
      match err with
      | None => inl (None, s)
      | Some _ =>
          let (done, s) := wait delay s in
          if done then inl (Some ContextCanceled, s)
          else backoffPhase rest s
      end
  end.

(** [for { ... }]: [fuel] bounds the number of iterations the model
    follows; [None] when the loop is still running after them. *)
Fixpoint steadyPhase (fuel : nat) (s : St) : option (option error * St) :=
  match fuel with
  | O => None
  | S fuel =>
      let (err, s) := operation s in
      match err with
      | None => Some (None, s)
      | Some _ =>
          let (done, s) := wait 60 s in
          if done then Some (Some ContextCanceled, s)
          else steadyPhase fuel s
      end
  end.

Definition retryWithBackoff (fuel : nat) (s : St) : option (option error * St) :=
  match backoffPhase delays s with
  | inl r => Some r
  | inr s => steadyPhase fuel s
  end.

(** How a run of the executor can end: with a successful invocation, or
    with a failed invocation followed by a wait that the context cut
    short. The state is the one that step left. *)
Inductive LastStep : option error -> St -> Prop :=
| LastSucceeded : forall s0 s',
    operation s0 = (None, s') -> LastStep None s'
| LastCancelled : forall s0 e s1 d s',
    operation s0 = (Some e, s1) -> wait d s1 = (true, s') ->
    LastStep (Some ContextCanceled) s'.

End RetryExecutor.

(* ===================================================================== *)
(** * monitor.go: the poll loop *)
(* ===================================================================== *)

Local Open Scope monad_scope.

(** The variables of [monitorLoop] that live across iterations. *)
Record LoopState : Type := mkLoop {
  session : option StreamSession;
  lastWasLive : bool
}.

Definition initialState : LoopState := {| session := None; lastWasLive := false |}.

(** How one iteration of the [for] loop ends: [return], or the next
    iteration with the new variables. *)
Inductive Step : Type :=
| Stopped
| Continue (st : LoopState).

(** [checksPerUpdate := (cfg.UpdateInterval * 60) / cfg.CheckInterval];
    [None] is the run-time panic of an integer division by zero. *)
Definition checksPerUpdate (cfg : Config) : option Z :=
  if cfg_CheckInterval cfg =? 0 then None
  else Some (int_quo (int_mul (cfg_UpdateInterval cfg) 60) (cfg_CheckInterval cfg)).

(** [retryWithBackoff(ctx, operation, name)] for an operation that works on
    the world only. *)
Definition retry (operation : IO (option error)) (fuel : nat) : M (option error) :=
  retryWithBackoff ctxWait operation fuel.

(** The closure of the start notification assigns the captured variable
    [messageID]: the state of its retry is that variable and the world. *)
Definition waitWith {V : Type} (seconds : Z) (s : V * World) : bool * (V * World) :=
  let (done, w) := ctxWait seconds (snd s) in (done, (fst s, w)).

Definition sendStart (photoURL caption buttonURL buttonText : string)
    (s : Z * World) : option error * (Z * World) :=
  let '((messageID, sendErr), w) :=
    sendPhotoMessage photoURL caption buttonURL buttonText (snd s) in
  (sendErr, (messageID, w)).

(** [var messageID int; retryWithBackoff(ctx, func() error {...}, ...)]:
    the executor's result, and [messageID] afterwards. *)
Definition deliverStart (photoURL caption buttonURL buttonText : string)
    (fuel : nat) : M (option error * Z) :=
  fun w =>
    match retryWithBackoff waitWith
            (sendStart photoURL caption buttonURL buttonText) fuel (0, w) with
    | Some (err, (messageID, w)) => Some ((err, messageID), w)
    | None => None
    end.

(** [sleep(ctx, CheckInterval seconds)] and the next iteration: the bottom
    of the loop body, and every [sleep; continue] inside it. *)
Definition endOfCycle (cfg : Config) (st : LoopState) : M Step :=
  lift (sleep (cfg_CheckInterval cfg)) ;;
  ret (Continue st).

(** [session = &StreamSession{...}]: [UpdateCounter] is not listed and takes
    its zero value. *)
Definition newSession (messageID startTime : Z) (info : StreamInfo)
    (broadcasterID : string) (dataPoint : ViewerDataPoint) : StreamSession :=
  {| sess_MessageID := messageID;
     sess_StartTime := startTime;
     sess_Game := info_Game info;
     sess_Title := info_Title info;
     sess_Tags := info_Tags info;
     sess_BroadcasterID := broadcasterID;
     sess_ViewerHistory := [dataPoint];
     sess_UpdateCounter := 0 |}.

(** [if isLive && session == nil]. *)
Definition startBranch (cfg : Config) (loc : Localization) (fuel : nat)
    (info : StreamInfo) (lastWasLive : bool) : M Step :=
  bid <- lift (getBroadcasterID (cfg_Channel cfg)) ;;
  match bid with
  | inl _ => endOfCycle cfg {| session := None; lastWasLive := lastWasLive |}
  | inr broadcasterID =>
      thumbnailURL <- lift (getThumbnailURL (cfg_Channel cfg)) ;;
      let message := formatStartMessage info loc in
      now <- lift timeNow ;;
      let dataPoint := {| pt_Timestamp := now; pt_Count := info_Viewers info |} in
      r <- deliverStart thumbnailURL message (info_URL info) (loc_ButtonText loc) fuel ;;
      let messageID := snd r in
      if negb (messageID =? 0) then
        startTime <- lift timeNow ;;
        endOfCycle cfg
          {| session := Some (newSession messageID startTime info broadcasterID dataPoint);
             lastWasLive := lastWasLive |}
      else endOfCycle cfg {| session := None; lastWasLive := lastWasLive |}
  end.

(** [session.ViewerHistory = append(...); session.UpdateCounter++]. *)
Definition recordPoll (s : StreamSession) (now : Z) (viewers : Z) : StreamSession :=
  {| sess_MessageID := sess_MessageID s;
     sess_StartTime := sess_StartTime s;
     sess_Game := sess_Game s;
     sess_Title := sess_Title s;
     sess_Tags := sess_Tags s;
     sess_BroadcasterID := sess_BroadcasterID s;
     sess_ViewerHistory :=
       push (sess_ViewerHistory s) {| pt_Timestamp := now; pt_Count := viewers |};
     sess_UpdateCounter := int_add (sess_UpdateCounter s) 1 |}.

(** [session.UpdateCounter = 0; session.Game = info.Game;
    session.Title = info.Title; session.Tags = info.Tags]. *)
Definition refreshed (s : StreamSession) (info : StreamInfo) : StreamSession :=
  {| sess_MessageID := sess_MessageID s;
     sess_StartTime := sess_StartTime s;
     sess_Game := info_Game info;
     sess_Title := info_Title info;
     sess_Tags := info_Tags info;
     sess_BroadcasterID := sess_BroadcasterID s;
     sess_ViewerHistory := sess_ViewerHistory s;
     sess_UpdateCounter := 0 |}.

(** [gameChanged := info.Game != session.Game && session.Game != ""]. *)
Definition gameChanged (info : StreamInfo) (s : StreamSession) : bool :=
  negb (String.eqb (info_Game info) (sess_Game s)) && nonempty (sess_Game s).

(** [session.UpdateCounter >= checksPerUpdate || gameChanged], read on the
    session whose counter is already incremented. *)
Definition refreshDue (cpu : Z) (info : StreamInfo) (s : StreamSession) : bool :=
  (cpu <=? sess_UpdateCounter s) || gameChanged info s.

(** [clips, _ := getRecentClips(...)]: the error is dropped, [clips] is nil. *)
Definition clipsOf (got : error + list ClipInfo) : list ClipInfo :=
  match got with inl _ => [] | inr clips => clips end.

(** [else if isLive && session != nil]. *)
Definition liveBranch (cfg : Config) (loc : Localization) (cpu : Z) (fuel : nat)
    (info : StreamInfo) (s : StreamSession) (lastWasLive : bool) : M Step :=
  now <- lift timeNow ;;
  let s := recordPoll s now (info_Viewers info) in
  if refreshDue cpu info s then
    let avgViewers := calculateAverage (sess_ViewerHistory s) in
    thumbnailURL <- lift (getThumbnailURL (cfg_Channel cfg)) ;;
    got <- lift (getRecentClips (sess_BroadcasterID s) (sess_StartTime s)) ;;
    let message := formatUpdateMessageWithClips info avgViewers
                     (sess_ViewerHistory s) (clipsOf got) loc in
    _ <- retry (editPhotoMessage (sess_MessageID s) thumbnailURL message
                  (info_URL info) (loc_ButtonText loc)) fuel ;;
    endOfCycle cfg {| session := Some (refreshed s info); lastWasLive := lastWasLive |}
  else
    endOfCycle cfg {| session := Some s; lastWasLive := lastWasLive |}.

(** [else if !isLive && session != nil]. *)
Definition endBranch (cfg : Config) (loc : Localization) (fuel : nat)
    (s : StreamSession) (lastWasLive : bool) : M Step :=
  duration <- lift (timeSince (sess_StartTime s)) ;;
  let durationStr := formatDuration duration (cfg_Language cfg) in
  let avgViewers := calculateAverage (sess_ViewerHistory s) in
  let maxViewers := getMaxViewers (sess_ViewerHistory s) in
  got <- lift (getRecentClips (sess_BroadcasterID s) (sess_StartTime s)) ;;
  let message := formatEndMessage (cfg_Channel cfg) durationStr avgViewers maxViewers
                   (sess_Game s) (sess_Title s) (sess_Tags s) (clipsOf got) loc in
  let streamURL := "https://twitch.tv/" ++ cfg_Channel cfg in
  _ <- retry (editMessageCaption (sess_MessageID s) message streamURL
                (loc_ButtonText loc)) fuel ;;
  endOfCycle cfg {| session := None; lastWasLive := lastWasLive |}.

(** The name of the debug sentinel. *)
Definition simulate_end : string := "simulate_end".

(** The status check at the top of the loop body: the values of [info] and
    [err] when it is done. *)
Definition checkStatus (cfg : Config) (st : LoopState)
  : IO (option StreamInfo * option error) :=
  fun w =>
    let (present, w) := fileExists simulate_end w in
    if present then
      let (_, w) := osRemove simulate_end w in
      match session st with
      | Some _ => ((None, Some (Errorf "simulated end")), w)
      | None => ((None, None), w)
      end
    else
      let (reply, w) := getStreamInfo (cfg_Channel cfg) w in
      match reply with
      | StreamError e => ((None, Some e), w)
      | StreamOffline => ((None, None), w)
      | StreamLive info => ((Some info, None), w)
      end.

(** The loop body below the status check, on the values of [info] and
    [err]. *)
Definition dispatch (cfg : Config) (loc : Localization) (cpu : Z) (fuel : nat)
    (st : LoopState) (info : option StreamInfo) (err : option error) : M Step :=
  match err with
  | Some _ => endOfCycle cfg st
  | None =>
      let isLive := match info with Some _ => true | None => false end in
      let lastWasLive :=
        if negb (Bool.eqb isLive (lastWasLive st)) then isLive
        else lastWasLive st in
      match info, session st with
      | Some info, None => startBranch cfg loc fuel info lastWasLive
      | Some info, Some s => liveBranch cfg loc cpu fuel info s lastWasLive
      | None, Some s => endBranch cfg loc fuel s lastWasLive
      | None, None => endOfCycle cfg {| session := None; lastWasLive := lastWasLive |}
      end
  end.

(** One iteration of the [for] loop of [monitorLoop]. *)
Definition pollCycle (cfg : Config) (loc : Localization) (cpu : Z) (fuel : nat)
    (st : LoopState) : M Step :=
  done <- lift ctxDone ;;
  if done then ret Stopped
  else
    r <- lift (checkStatus cfg st) ;;
    dispatch cfg loc cpu fuel st (fst r) (snd r).

(** [monitorLoop]: at most [cycles] iterations; the variables when the loop
    returned, or [None] when it is still running (or panicked on the
    division). *)
Fixpoint iterate (cfg : Config) (loc : Localization) (cpu : Z)
    (cycles fuel : nat) (st : LoopState) : M LoopState :=
  match cycles with
  | O => fun _ => None
  | S cycles =>
      r <- pollCycle cfg loc cpu fuel st ;;
      match r with
      | Stopped => ret st
      | Continue st => iterate cfg loc cpu cycles fuel st
      end
  end.

Definition monitorLoop (cfg : Config) (cycles fuel : nat) : M LoopState :=
  match checksPerUpdate cfg with
  | None => fun _ => None
  | Some cpu =>
      iterate cfg (getLocalization (cfg_Language cfg)) cpu cycles fuel initialState
  end.

(** The loop variables the program can be in at the top of an iteration. *)
Inductive reachable (cfg : Config) (cpu : Z) : LoopState -> Prop :=
| reachable_init : reachable cfg cpu initialState
| reachable_step : forall st fuel w st' w',
    reachable cfg cpu st ->
    pollCycle cfg (getLocalization (cfg_Language cfg)) cpu fuel st w
      = Some (Continue st', w') ->
    reachable cfg cpu st'.

(* ===================================================================== *)
(** * A probe for the retry executor *)
(* ===================================================================== *)

(** An operation and a context that only count: invocation number [i]
    (from 0) succeeds when [ok i]; the cancellation signal fires during wait
    number [j] (from 0) when [fires j]. The probe keeps the number of
    invocations and the delays of the waits that ran to their end. *)
Record Probe : Type := mkProbe {
  invocations : nat;
  waits : list Z
}.

Definition probe0 : Probe := {| invocations := 0; waits := [] |}.

Definition probeOp (ok : nat -> bool) (p : Probe) : option error * Probe :=
  (if ok (invocations p) then None else Some (Errorf "failed"),
   {| invocations := S (invocations p); waits := waits p |}).

Definition probeWait (fires : nat -> bool) (seconds : Z) (p : Probe) : bool * Probe :=
  if fires (List.length (waits p)) then (true, p)
  else (false, {| invocations := invocations p; waits := push (waits p) seconds |}).

(** The delays of the first [k] waits of the executor. *)
Definition schedule (k : nat) : list Z :=
  (firstn k delays ++ repeat 60 (k - List.length delays))%list.

(** No success and no cancellation before invocation [k]. *)
Definition quietBefore (ok fires : nat -> bool) (k : nat) : Prop :=
  forall i, (i < k)%nat -> ok i = false /\ fires i = false.

(** The same from the state [p] of the probe on: the next [k] invocations
    fail and the next [k] waits run to their end. *)
Definition quietFrom (ok fires : nat -> bool) (p : Probe) (k : nat) : Prop :=
  forall j, (j < k)%nat ->
    ok (invocations p + j)%nat = false
    /\ fires (List.length (waits p) + j)%nat = false.

(** The sum of a list of delays. *)
Definition total (l : list Z) : Z := fold_right Z.add 0 l.

(** The transitions of the session state machine, as one completed
    iteration can change the loop variables. *)
Inductive Transition (cpu : Z) : LoopState -> LoopState -> Prop :=
| StatusCheckFailed : forall st,
    Transition cpu st st
| OfflineOffline : forall lw,
    Transition cpu {| session := None; lastWasLive := lw |}
                   {| session := None; lastWasLive := false |}
| OfflineStartFailed : forall lw,
    Transition cpu {| session := None; lastWasLive := lw |}
                   {| session := None; lastWasLive := true |}
| OfflineLive : forall lw messageID startTime info broadcasterID now,
    messageID <> 0 ->
    Transition cpu {| session := None; lastWasLive := lw |}
      {| session := Some (newSession messageID startTime info broadcasterID
                            {| pt_Timestamp := now; pt_Count := info_Viewers info |});
         lastWasLive := true |}
| LiveNoRefresh : forall lw s info now,
    refreshDue cpu info (recordPoll s now (info_Viewers info)) = false ->
    Transition cpu {| session := Some s; lastWasLive := lw |}
      {| session := Some (recordPoll s now (info_Viewers info)); lastWasLive := true |}
| LiveRefresh : forall lw s info now,
    refreshDue cpu info (recordPoll s now (info_Viewers info)) = true ->
    Transition cpu {| session := Some s; lastWasLive := lw |}
      {| session := Some (refreshed (recordPoll s now (info_Viewers info)) info);
         lastWasLive := true |}
| LiveOffline : forall lw s,
    Transition cpu {| session := Some s; lastWasLive := lw |}
                   {| session := None; lastWasLive := false |}.

(** The update counter between two iterations: not negative, and below the
    refresh threshold unless it is 0. *)
Definition counterInv (cpu : Z) (st : LoopState) : Prop :=
  forall s, session st = Some s ->
    0 <= sess_UpdateCounter s /\ (sess_UpdateCounter s = 0 \/ sess_UpdateCounter s < cpu).

(** An interaction that keeps the script and does not turn the clock of
    interactions back. *)
Definition steady {A : Type} (c : IO A) : Prop :=
  forall w, script (snd (c w)) = script w /\ (tick w <= tick (snd (c w)))%nat.

(* ===================================================================== *)
(** * The trend classification, in the words of the specification *)
(* ===================================================================== *)

Inductive Trend : Type := Growing | Steady | Dropping | NoTrend.

(** The arithmetic mean of the counts of a sequence of points. *)
Definition mean (points : list ViewerDataPoint) : F64.t :=
  F64.div (sumCounts points) (F64.of_int (len points)).

(** The relative change [(lateMean - earlyMean) / earlyMean]. *)
Definition relativeChange (early late : list ViewerDataPoint) : F64.t :=
  F64.div (F64.sub (mean late) (mean early)) (mean early).

(** [trend]: None below 4 points; otherwise the early half is the first
    [floor (n/2)] points, the late half the rest, and the relative change of
    the means is compared with 0.07 and -0.07. *)
Definition trend (history : list ViewerDataPoint) : Trend :=
  if (List.length history <? 4)%nat then NoTrend
  else
    let half := (List.length history / 2)%nat in
    let r := relativeChange (firstn half history) (skipn half history) in
    if F64.ltb (F64.lit 7 100) r then Growing
    else if F64.ltb r (F64.neg (F64.lit 7 100)) then Dropping
    else Steady.

(** The text the composer shows for a trend: nothing for None. *)
Definition trendLabel (loc : Localization) (t : Trend) : string :=
  match t with
  | Growing => loc_Growing loc
  | Steady => loc_Steady loc
  | Dropping => loc_Dropping loc
  | NoTrend => ""
  end.

(** The same classification in exact arithmetic: the means and the relative
    change are rational numbers, compared with 7/100 and -7/100. *)
Definition exactMean (points : list ViewerDataPoint) : Q :=
  Qdiv (inject_Z (fold_right Z.add 0 (map pt_Count points))) (inject_Z (len points)).

Definition exactRelativeChange (early late : list ViewerDataPoint) : Q :=
  Qdiv (Qminus (exactMean late) (exactMean early)) (exactMean early).

Definition exactTrend (history : list ViewerDataPoint) : Trend :=
  if (List.length history <? 4)%nat then NoTrend
  else
    let half := (List.length history / 2)%nat in
    let r := exactRelativeChange (firstn half history) (skipn half history) in
    if Qlt_le_dec (7 # 100) r then Growing
    else if Qlt_le_dec r (- 7 # 100) then Dropping
    else Steady.

(** A history with the given counts (the timestamps play no part). *)
Definition counts (l : list Z) : list ViewerDataPoint :=
  map (fun c => {| pt_Timestamp := 0; pt_Count := c |}) l.

(* ===================================================================== *)
(** * Concrete runs *)
(* ===================================================================== *)

Module Demo.

Definition cfg : Config :=
  {| cfg_Channel := "chan"; cfg_ClientID := "id"; cfg_ClientSecret := "secret";
     cfg_BotToken := "token"; cfg_ChatID := 42; cfg_ThreadID := None;
     cfg_Language := "en"; cfg_CheckInterval := 60; cfg_UpdateInterval := 5 |}.

(** Check interval 61 s, update interval 1 min: the threshold is 60 / 61 = 0. *)
Definition cfg61 : Config :=
  {| cfg_Channel := "chan"; cfg_ClientID := "id"; cfg_ClientSecret := "secret";
     cfg_BotToken := "token"; cfg_ChatID := 42; cfg_ThreadID := None;
     cfg_Language := "en"; cfg_CheckInterval := 61; cfg_UpdateInterval := 1 |}.

Definition loc : Localization := getLocalization "en".

Definition info : StreamInfo :=
  {| info_Channel := "chan"; info_URL := "https://twitch.tv/chan";
     info_Title := "Speedrun"; info_Game := "Chess"; info_Viewers := 1500;
     info_Uptime := "1 h 2 m"; info_Tags := ["en"; ""; "chess"] |}.

(** Telegram accepts every request, with message id 77. *)
Definition accepted : HttpReply :=
  HttpResponse 200 (Some {| tg_Ok := true; tg_Result := Some 77 |}).

(** Telegram accepts the request, and its answer carries no message id. *)
Definition acceptedNoId : HttpReply :=
  HttpResponse 200 (Some {| tg_Ok := true; tg_Result := None |}).

Definition refused : HttpReply := HttpError (Errorf "connection refused").

(** A world at its interaction number [start] that answers every
    interaction the same way; the clock shows 100 s more at each
    interaction. *)
Definition world (start : nat) (stream : StreamReply) (telegram : HttpReply)
    (cancel : option nat) (fs : list string) : World :=
  {| script := {| streamInfoAt := fun _ => stream;
                  broadcasterAt := fun _ => inr "b1";
                  clipsAt := fun _ => inr [];
                  imageAt := fun _ => None;
                  telegramAt := fun _ => telegram;
                  nowAt := fun k => Z.of_nat k * 100000000000;
                  cancelAt := cancel |};
     tick := start;
     files := fs;
     trace := [] |}.

(** The session that the first live poll of [world 0 (StreamLive info)
    accepted None []] creates. *)
Definition session0 : StreamSession :=
  {| sess_MessageID := 77;
     sess_StartTime := 800000000000;
     sess_Game := "Chess";
     sess_Title := "Speedrun";
     sess_Tags := ["en"; ""; "chess"];
     sess_BroadcasterID := "b1";
     sess_ViewerHistory := [{| pt_Timestamp := 500000000000; pt_Count := 1500 |}];
     sess_UpdateCounter := 0 |}.

Definition live : LoopState := {| session := Some session0; lastWasLive := true |}.

(** What a run of one iteration shows: how it ended, and its effects in
    the order they happened. *)
Definition ending (r : option (Step * World)) : option Step := option_map fst r.

Definition effects (r : option (Step * World)) : option (list Event) :=
  option_map (fun x => rev (trace (snd x))) r.

End Demo.

(* ===================================================================== *)
(** * The effects of a run *)
(* ===================================================================== *)

(** From [w] to [w'] the program added events to the trace, and all of
    them satisfy [P]. *)
Definition added (P : Event -> Prop) (w w' : World) : Prop :=
  exists evs, trace w' = (evs ++ trace w)%list /\ Forall P evs.

(** A run from [w] to [w'] that read the script without changing it, did
    not touch the files, and added events that satisfy [P]. *)
Definition keeps (P : Event -> Prop) (w w' : World) : Prop :=
  script w' = script w
  /\ (tick w <= tick w')%nat
  /\ files w' = files w
  /\ added P w w'.

(** A Telegram request that fits the loop variables [st]: a new message
    only while there is no session, an edit only of the message of the
    session. The other events fit every state. *)
Definition requestFits (st : LoopState) (ev : Event) : Prop :=
  match ev with
  | EvSendPhoto _ _ _ _ => session st = None
  | EvEditPhoto messageID _ _ _ _ =>
      exists s, session st = Some s /\ sess_MessageID s = messageID
  | EvEditCaption messageID _ _ _ =>
      exists s, session st = Some s /\ sess_MessageID s = messageID
  | _ => True
  end.

(** What holds of the session between two iterations. *)
Definition sessionInv (st : LoopState) : Prop :=
  forall s, session st = Some s ->
    sess_MessageID s <> 0
    /\ sess_ViewerHistory s <> []
    /\ lastWasLive st = true.

(* ===================================================================== *)
(** * The configuration file *)
(* ===================================================================== *)

(** What [os.ReadFile] and [json.Unmarshal] make of the configuration
    file: it cannot be read, it is not the JSON of a [Config], or it is,
    and this is the struct that [json.Unmarshal] filled (a member the file
    does not give keeps its zero value). *)
Inductive ConfigSource : Type :=
| ConfigUnreadable
| ConfigMalformed (e : error)
| ConfigParsed (cfg : Config).

(** [loadConfig]: [getenv] is [os.Getenv]. *)
Definition loadConfig (path : string) (source : ConfigSource)
    (getenv : string -> string) : error + Config :=
  match source with
  | ConfigUnreadable => inl (Errorf ("config file not found: " ++ path))
  | ConfigMalformed _ => inl (Errorf "failed to parse config")
  | ConfigParsed cfg =>
      inr {| cfg_Channel := cfg_Channel cfg;
             cfg_ClientID :=
               (let e := getenv "TWITCH_CLIENT_ID" in
                if nonempty e then e else cfg_ClientID cfg);
             cfg_ClientSecret :=
               (let e := getenv "TWITCH_CLIENT_SECRET" in
                if nonempty e then e else cfg_ClientSecret cfg);
             cfg_BotToken :=
               (let e := getenv "TELEGRAM_BOT_TOKEN" in
                if nonempty e then e else cfg_BotToken cfg);
             cfg_ChatID := cfg_ChatID cfg;
             cfg_ThreadID := cfg_ThreadID cfg;
             cfg_Language :=
               if nonempty (cfg_Language cfg) then cfg_Language cfg else "ru";
             cfg_CheckInterval :=
               if cfg_CheckInterval cfg =? 0 then 60 else cfg_CheckInterval cfg;
             cfg_UpdateInterval :=
               if cfg_UpdateInterval cfg =? 0 then 5 else cfg_UpdateInterval cfg |}
  end.

(* ===================================================================== *)
(** * Markup *)
(* ===================================================================== *)

(** The number of occurrences of the byte [c] in [s]. *)
Fixpoint countByte (c : ascii) (s : string) : nat :=
  match s with
  | EmptyString => O
  | String x r => ((if Ascii.eqb x c then 1 else 0) + countByte c r)%nat
  end.

(* ===================================================================== *)
(** * Theorems *)
(* ===================================================================== *)


(** ** The retry executor on the probe *)

Section ProbeRun.
Variables ok fires : nat -> bool.

Let op := probeOp ok.
Let wt := probeWait fires.

Lemma quietFrom_next p k d :
  quietFrom ok fires p (S k) ->
  quietFrom ok fires {| invocations := S (invocations p); waits := push (waits p) d |} k.
Proof.
  intros H j Hj. specialize (H (S j) ltac:(lia)). cbn [invocations waits].
  unfold push. rewrite length_app. cbn [List.length].
  replace (S (invocations p) + j)%nat with (invocations p + S j)%nat by lia.
  replace (List.length (waits p) + 1 + j)%nat with (List.length (waits p) + S j)%nat by lia.
  exact H.
Qed.

Lemma probe_step_quiet p k d :
  quietFrom ok fires p (S k) ->
  op p = (Some (Errorf "failed"), {| invocations := S (invocations p); waits := waits p |})
  /\ wt d {| invocations := S (invocations p); waits := waits p |}
     = (false, {| invocations := S (invocations p); waits := push (waits p) d |}).
Proof.
  intros H. destruct (H 0%nat ltac:(lia)) as [H1 H2].
  rewrite !Nat.add_0_r in *. unfold op, wt, probeOp, probeWait. cbn [invocations waits].
  rewrite H1, H2. split; reflexivity.
Qed.

Lemma backoff_quiet : forall ds p,
  quietFrom ok fires p (List.length ds) ->
  backoffPhase wt op ds p
  = inr {| invocations := invocations p + List.length ds;
           waits := (waits p ++ ds)%list |}.
Proof.
  induction ds as [|d ds IH]; intros p H.
  - cbn. rewrite Nat.add_0_r, app_nil_r. destruct p; reflexivity.
  - cbn [backoffPhase List.length].
    destruct (probe_step_quiet p _ d H) as [E1 E2]. rewrite E1, E2.
    rewrite IH by (apply quietFrom_next; exact H).
    cbn [invocations waits]. unfold push. rewrite <- app_assoc. cbn [app].
    f_equal. f_equal. lia.
Qed.

Lemma backoff_stop : forall ds p k,
  (k < List.length ds)%nat ->
  quietFrom ok fires p k ->
  (ok (invocations p + k) = true ->
   backoffPhase wt op ds p
   = inl (None, {| invocations := S (invocations p + k);
                   waits := (waits p ++ firstn k ds)%list |}))
  /\ (ok (invocations p + k) = false ->
      fires (List.length (waits p) + k) = true ->
      backoffPhase wt op ds p
      = inl (Some ContextCanceled,
             {| invocations := S (invocations p + k);
                waits := (waits p ++ firstn k ds)%list |})).
Proof.
  induction ds as [|d ds IH]; intros p k Hk H; [cbn in Hk; lia|].
  destruct k as [|k].
  - rewrite !Nat.add_0_r. cbn [firstn]. rewrite app_nil_r.
    cbn [backoffPhase]. unfold op, wt, probeOp, probeWait. cbn [invocations waits].
    split.
    + intros ->. reflexivity.
    + intros -> ->. reflexivity.
  - cbn [backoffPhase List.length] in *.
    destruct (probe_step_quiet p _ d H) as [E1 E2]. rewrite E1, E2.
    specialize (IH _ k ltac:(lia) (quietFrom_next p k d H)).
    cbn [invocations waits] in IH. unfold push in IH.
    rewrite length_app in IH. cbn [List.length] in IH.
    replace (S (invocations p) + k)%nat with (invocations p + S k)%nat in IH by lia.
    replace (List.length (waits p) + 1 + k)%nat
      with (List.length (waits p) + S k)%nat in IH by lia.
    rewrite <- app_assoc in IH. cbn [app firstn] in *. exact IH.
Qed.

Lemma steady_stop : forall k fuel p,
  (k < fuel)%nat ->
  quietFrom ok fires p k ->
  (ok (invocations p + k) = true ->
   steadyPhase wt op fuel p
   = Some (None, {| invocations := S (invocations p + k);
                    waits := (waits p ++ repeat 60 k)%list |}))
  /\ (ok (invocations p + k) = false ->
      fires (List.length (waits p) + k) = true ->
      steadyPhase wt op fuel p
      = Some (Some ContextCanceled,
             {| invocations := S (invocations p + k);
                waits := (waits p ++ repeat 60 k)%list |})).
Proof.
  induction k as [|k IH]; intros fuel p Hk H.
  - destruct fuel as [|fuel]; [lia|].
    rewrite !Nat.add_0_r. cbn [repeat]. rewrite app_nil_r.
    cbn [steadyPhase]. unfold op, wt, probeOp, probeWait. cbn [invocations waits].
    split.
    + intros ->. reflexivity.
    + intros -> ->. reflexivity.
  - destruct fuel as [|fuel]; [lia|].
    cbn [steadyPhase].
    destruct (probe_step_quiet p _ 60 H) as [E1 E2]. rewrite E1, E2.
    specialize (IH fuel _ ltac:(lia) (quietFrom_next p k 60 H)).
    cbn [invocations waits] in IH. unfold push in IH.
    rewrite length_app in IH. cbn [List.length] in IH.
    replace (S (invocations p) + k)%nat with (invocations p + S k)%nat in IH by lia.
    replace (List.length (waits p) + 1 + k)%nat
      with (List.length (waits p) + S k)%nat in IH by lia.
    rewrite <- app_assoc in IH. cbn [app repeat] in *. exact IH.
Qed.

Lemma steady_quiet : forall fuel p,
  (forall j, ok (invocations p + j) = false /\ fires (List.length (waits p) + j) = false) ->
  steadyPhase wt op fuel p = None.
Proof.
  induction fuel as [|fuel IH]; intros p H; [reflexivity|].
  cbn [steadyPhase].
  assert (Hq : quietFrom ok fires p 1) by (intros j _; apply H).
  destruct (probe_step_quiet p _ 60 Hq) as [E1 E2]. rewrite E1, E2.
  apply IH. intros j. specialize (H (S j)). cbn [invocations waits].
  unfold push. rewrite length_app. cbn [List.length].
  replace (S (invocations p) + j)%nat with (invocations p + S j)%nat by lia.
  replace (List.length (waits p) + 1 + j)%nat with (List.length (waits p) + S j)%nat by lia.
  exact H.
Qed.

Lemma quietFrom_probe0 k : quietBefore ok fires k <-> quietFrom ok fires probe0 k.
Proof. unfold quietBefore, quietFrom. cbn. reflexivity. Qed.

(** The run of the executor on the probe, up to its first success or
    cancellation at invocation [k]. *)
Lemma retry_probe_stop k fuel :
  quietBefore ok fires k ->
  (k < List.length delays + fuel)%nat ->
  (ok k = true ->
   retryWithBackoff wt op fuel probe0
   = Some (None, {| invocations := S k; waits := schedule k |}))
  /\ (ok k = false -> fires k = true ->
      retryWithBackoff wt op fuel probe0
      = Some (Some ContextCanceled, {| invocations := S k; waits := schedule k |})).
Proof.
  intros Hq Hk. apply quietFrom_probe0 in Hq. unfold retryWithBackoff, schedule.
  destruct (Nat.lt_ge_cases k (List.length delays)) as [Hlt|Hge].
  - destruct (backoff_stop delays probe0 k Hlt Hq) as [A B].
    cbn [invocations waits probe0 app Nat.add] in A, B.
    replace (k - List.length delays)%nat with 0%nat by lia.
    cbn [repeat]. rewrite app_nil_r.
    split; [intros H; rewrite (A H) | intros H1 H2; rewrite (B H1 H2)]; reflexivity.
  - assert (Hq8 : quietFrom ok fires probe0 (List.length delays))
      by (intros j Hj; apply (Hq j); lia).
    rewrite (backoff_quiet delays probe0 Hq8).
    cbn [invocations waits probe0 app Nat.add].
    rewrite firstn_all2 by exact Hge.
    set (p := {| invocations := List.length delays; waits := delays |}).
    assert (Hqp : quietFrom ok fires p (k - List.length delays)).
    { intros j Hj. cbn [p invocations waits].
      replace (List.length delays + j)%nat with (0 + (List.length delays + j))%nat by lia.
      apply (Hq (List.length delays + j)%nat). lia. }
    assert (Hf : (k - List.length delays < fuel)%nat) by lia.
    destruct (steady_stop (k - List.length delays) fuel p Hf Hqp) as [A B].
    cbn [p invocations waits] in A, B.
    replace (List.length delays + (k - List.length delays))%nat with k in A, B by lia.
    split; [intros H; rewrite (A H) | intros H1 H2; rewrite (B H1 H2)]; reflexivity.
Qed.

Lemma retry_probe_forever fuel :
  (forall i, ok i = false /\ fires i = false) ->
  retryWithBackoff wt op fuel probe0 = None.
Proof.
  intros H. unfold retryWithBackoff.
  rewrite (backoff_quiet delays probe0) by (intros j _; apply H).
  apply steady_quiet. intros j; apply H.
Qed.
End ProbeRun.

(** ** The retry executor, for every state and operation *)
Section RetryFacts.
Context {St : Type}.
Variable wait : Z -> St -> bool * St.
Variable operation : St -> option error * St.

Lemma backoffPhase_last ds : forall s r s',
  backoffPhase wait operation ds s = inl (r, s') -> LastStep wait operation r s'.
Proof.
  induction ds as [|d ds IH]; intros s r s' H; cbn in H; [discriminate|].
  destruct (operation s) as [[e|] s1] eqn:Eop.
  - destruct (wait d s1) as [[|] s2] eqn:Ew.
    + inversion H; subst. eapply LastCancelled; eassumption.
    + eapply IH; eassumption.
  - inversion H; subst. eapply LastSucceeded; eassumption.
Qed.

Lemma steadyPhase_last fuel : forall s r s',
  steadyPhase wait operation fuel s = Some (r, s') -> LastStep wait operation r s'.
Proof.
  induction fuel as [|fuel IH]; intros s r s' H; cbn in H; [discriminate|].
  destruct (operation s) as [[e|] s1] eqn:Eop.
  - destruct (wait 60 s1) as [[|] s2] eqn:Ew.
    + inversion H; subst. eapply LastCancelled; eassumption.
    + eapply IH; eassumption.
  - inversion H; subst. eapply LastSucceeded; eassumption.
Qed.

Lemma retryWithBackoff_last fuel s r s' :
  retryWithBackoff wait operation fuel s = Some (r, s') -> LastStep wait operation r s'.
Proof.
  unfold retryWithBackoff. intros H.
  destruct (backoffPhase wait operation delays s) as [[r0 s0]|s0] eqn:E.
  - inversion H; subst. eapply backoffPhase_last; eassumption.
  - eapply steadyPhase_last; eassumption.
Qed.

(** More fuel does not change a result. *)
Lemma steadyPhase_mono fuel : forall s r fuel',
  steadyPhase wait operation fuel s = Some r -> (fuel <= fuel')%nat ->
  steadyPhase wait operation fuel' s = Some r.
Proof.
  induction fuel as [|fuel IH]; intros s r fuel' H Hle; cbn in H; [discriminate|].
  destruct fuel' as [|fuel']; [lia|]. cbn.
  destruct (operation s) as [[e|] s1]; [|exact H].
  destruct (wait 60 s1) as [[|] s2]; [exact H|].
  apply IH; [exact H | lia].
Qed.

(** Termination: a measure that an iteration decreases unless it stops. *)
Variable inv : St -> Prop.
Variable mu : St -> nat.
Hypothesis progress : forall s, inv s ->
  forall e s1, operation s = (Some e, s1) ->
  forall d s2, wait d s1 = (false, s2) -> inv s2 /\ (mu s2 < mu s)%nat.

Lemma steadyPhase_terminates : forall n s,
  inv s -> (mu s < n)%nat ->
  exists r, steadyPhase wait operation n s = Some r.
Proof.
  induction n as [|n IH]; intros s Hi Hm; [lia|]. cbn.
  destruct (operation s) as [[e|] s1] eqn:Eop; [|eauto].
  destruct (wait 60 s1) as [[|] s2] eqn:Ew; [eauto|].
  destruct (progress s Hi e s1 Eop 60 s2 Ew) as [Hi2 Hm2].
  apply IH; [exact Hi2 | lia].
Qed.

Lemma backoffPhase_inv ds : forall s s',
  inv s -> backoffPhase wait operation ds s = inr s' -> inv s' /\ (mu s' <= mu s)%nat.
Proof.
  induction ds as [|d ds IH]; intros s s' Hi H; cbn in H.
  - inversion H; subst. split; [exact Hi | lia].
  - destruct (operation s) as [[e|] s1] eqn:Eop; [|discriminate].
    destruct (wait d s1) as [[|] s2] eqn:Ew; [discriminate|].
    destruct (progress s Hi e s1 Eop d s2 Ew) as [Hi2 Hm2].
    destruct (IH s2 s' Hi2 H) as [Hi3 Hm3]. split; [exact Hi3 | lia].
Qed.

Lemma retryWithBackoff_terminates s :
  inv s -> exists r, retryWithBackoff wait operation (S (mu s)) s = Some r.
Proof.
  intros Hi. unfold retryWithBackoff.
  destruct (backoffPhase wait operation delays s) as [r0|s0] eqn:E; [eauto|].
  destruct (backoffPhase_inv _ _ _ Hi E) as [Hi0 Hm0].
  destruct (steadyPhase_terminates (S (mu s0)) s0 Hi0 ltac:(lia)) as [r Hr].
  exists r. eapply steadyPhase_mono; [exact Hr | lia].
Qed.
End RetryFacts.

(** ** One iteration of the poll loop *)

Ltac run := unfold bind, lift, ret in *; cbn beta iota in *.

Lemma endOfCycle_eq cfg st w :
  endOfCycle cfg st w = Some (Continue st, snd (ctxWait (cfg_CheckInterval cfg) w)).
Proof. reflexivity. Qed.

Lemma pollCycle_stopped cfg loc cpu fuel st w :
  cancelled w = true -> pollCycle cfg loc cpu fuel st w = Some (Stopped, advance w).
Proof. intros H. unfold pollCycle, ctxDone. run. rewrite H. reflexivity. Qed.

Lemma pollCycle_running cfg loc cpu fuel st w :
  cancelled w = false ->
  pollCycle cfg loc cpu fuel st w
  = dispatch cfg loc cpu fuel st
      (fst (fst (checkStatus cfg st (advance w))))
      (snd (fst (checkStatus cfg st (advance w))))
      (snd (checkStatus cfg st (advance w))).
Proof.
  intros H. unfold pollCycle, ctxDone. run. rewrite H.
  destruct (checkStatus cfg st (advance w)) as [[info err] w1]. reflexivity.
Qed.

Lemma endBranch_result cfg loc fuel s lw w step w' :
  endBranch cfg loc fuel s lw w = Some (step, w') ->
  step = Continue {| session := None; lastWasLive := lw |}.
Proof.
  unfold endBranch. run.
  destruct (timeSince (sess_StartTime s) w) as [d w1].
  destruct (getRecentClips (sess_BroadcasterID s) (sess_StartTime s) w1) as [got w2].
  match goal with |- context [retry ?op fuel w2] => destruct (retry op fuel w2) as [[r w3]|] end;
    [|discriminate].
  rewrite endOfCycle_eq. intros H. inversion H. reflexivity.
Qed.

Lemma liveBranch_result cfg loc cpu fuel info s lw w step w' :
  liveBranch cfg loc cpu fuel info s lw w = Some (step, w') ->
  let s1 := recordPoll s (nowAt (script w) (tick w)) (info_Viewers info) in
  step = Continue {| session := Some (if refreshDue cpu info s1 then refreshed s1 info else s1);
                     lastWasLive := lw |}.
Proof.
  unfold liveBranch. run. unfold timeNow at 1. cbv beta iota zeta.
  set (s1 := recordPoll s (nowAt (script w) (tick w)) (info_Viewers info)).
  intros H.
  destruct (refreshDue cpu info s1).
  - destruct (getThumbnailURL (cfg_Channel cfg) (advance w)) as [th w1].
    destruct (getRecentClips (sess_BroadcasterID s1) (sess_StartTime s1) w1) as [got w2].
    match type of H with context [retry ?op fuel w2] => destruct (retry op fuel w2) as [[r w3]|] end;
      [|discriminate].
    rewrite endOfCycle_eq in H. inversion H. reflexivity.
  - rewrite endOfCycle_eq in H. inversion H. reflexivity.
Qed.

(** A failed [sendPhotoMessage] leaves 0 in [messageID]. *)
Lemma sendPhotoMessage_failed p c u b w id e w' :
  sendPhotoMessage p c u b w = ((id, Some e), w') -> id = 0.
Proof.
  unfold sendPhotoMessage.
  destruct (downloadImage p w) as [[e0|] w1].
  - intros H; inversion H; reflexivity.
  - destruct (httpDo (EvSendPhoto p c u b) w1) as [[e1|st [body|]] w2].
    + intros H; inversion H; reflexivity.
    + destruct (negb (tg_Ok body)).
      * intros H; inversion H; reflexivity.
      * intros H; inversion H.
    + intros H; inversion H; reflexivity.
Qed.

(** What [deliverStart] leaves in [messageID]: 0 after a cancellation, the
    id of the last, successful, [sendPhotoMessage] otherwise. *)
Lemma deliverStart_result p c u b fuel w err messageID w' :
  deliverStart p c u b fuel w = Some ((err, messageID), w') ->
  (err = Some ContextCanceled /\ messageID = 0)
  \/ (err = None /\ exists w0, sendPhotoMessage p c u b w0 = ((messageID, None), w')).
Proof.
  unfold deliverStart.
  destruct (retryWithBackoff waitWith (sendStart p c u b) fuel (0, w))
    as [[r [m w1]]|] eqn:E; [|discriminate].
  intros H; inversion H; subst. clear H.
  apply retryWithBackoff_last in E.
  inversion E as [s0 s' Hop Er Es | s0 e s1 d s' Hop Hw Er Es]; subst.
  - right. split; [reflexivity|]. destruct s0 as [m0 w0]. exists w0.
    unfold sendStart in Hop. cbn [snd] in Hop.
    destruct (sendPhotoMessage p c u b w0) as [[id e] w2]. inversion Hop; subst. reflexivity.
  - left. split; [reflexivity|].
    destruct s0 as [m0 w0]. unfold sendStart in Hop. cbn [snd] in Hop.
    destruct (sendPhotoMessage p c u b w0) as [[id e0] w2] eqn:Es. inversion Hop; subst.
    unfold waitWith in Hw. cbn [fst snd] in Hw.
    destruct (ctxWait d w2) as [dn w3]. inversion Hw; subst.
    eapply sendPhotoMessage_failed; eassumption.
Qed.

Lemma startBranch_result cfg loc fuel info lw w step w' :
  startBranch cfg loc fuel info lw w = Some (step, w') ->
  step = Continue {| session := None; lastWasLive := lw |}
  \/ exists messageID startTime broadcasterID now,
       messageID <> 0
       /\ step = Continue
            {| session := Some (newSession messageID startTime info broadcasterID
                                  {| pt_Timestamp := now; pt_Count := info_Viewers info |});
               lastWasLive := lw |}.
Proof.
  unfold startBranch. run.
  destruct (getBroadcasterID (cfg_Channel cfg) w) as [[e|bid] w1].
  - rewrite endOfCycle_eq. intros H; inversion H. left; reflexivity.
  - destruct (getThumbnailURL (cfg_Channel cfg) w1) as [th w2].
    destruct (timeNow w2) as [now w3].
    match goal with |- context [deliverStart ?a ?b ?c ?d fuel w3] =>
      destruct (deliverStart a b c d fuel w3) as [[[err mid] w4]|] end; [|discriminate].
    cbn [snd]. destruct (mid =? 0) eqn:Em; cbn [negb].
    + rewrite endOfCycle_eq. intros H; inversion H. left; reflexivity.
    + destruct (timeNow w4) as [t w5]. rewrite endOfCycle_eq. intros H; inversion H.
      right. exists mid, t, bid, now. split; [|reflexivity].
      apply Z.eqb_neq. exact Em.
Qed.

Lemma dispatch_transition cfg loc cpu fuel st info err w st' w' :
  dispatch cfg loc cpu fuel st info err w = Some (Continue st', w') ->
  Transition cpu st st'.
Proof.
  unfold dispatch. destruct err as [e|].
  - rewrite endOfCycle_eq. intros H; inversion H. constructor.
  - destruct st as [[s|] lw]; destruct info as [info|];
      cbn [session lastWasLive]; intros H.
    + apply liveBranch_result in H. inversion H; subst. clear H.
      destruct (refreshDue cpu info _) eqn:E; destruct lw;
        (apply LiveRefresh || apply LiveNoRefresh); exact E.
    + apply endBranch_result in H. inversion H; subst.
      destruct lw; constructor.
    + apply startBranch_result in H.
      destruct H as [H|(mid & t & bid & now & Hm & H)]; inversion H; subst;
        destruct lw; constructor; exact Hm.
    + rewrite endOfCycle_eq in H. inversion H. destruct lw; constructor.
Qed.

Lemma pollCycle_transition cfg loc cpu fuel st w st' w' :
  pollCycle cfg loc cpu fuel st w = Some (Continue st', w') ->
  Transition cpu st st'.
Proof.
  destruct (cancelled w) eqn:Hc.
  - rewrite pollCycle_stopped by exact Hc. discriminate.
  - rewrite (pollCycle_running _ _ _ _ _ _ Hc). apply dispatch_transition.
Qed.

(** ** Go's [int] *)

Lemma wrap_range z : int_min <= wrap z <= int_max.
Proof.
  unfold wrap, int_min, int_max.
  pose proof (Z.mod_pos_bound (z + 2 ^ 63) (2 ^ 64) ltac:(lia)). lia.
Qed.

Lemma wrap_id z : int_min <= z <= int_max -> wrap z = z.
Proof.
  unfold wrap, int_min, int_max. intros H.
  rewrite Z.mod_small by lia. lia.
Qed.

Lemma checksPerUpdate_range cfg cpu :
  checksPerUpdate cfg = Some cpu -> int_min <= cpu <= int_max.
Proof.
  unfold checksPerUpdate. destruct (cfg_CheckInterval cfg =? 0); [discriminate|].
  intros H; inversion H. apply wrap_range.
Qed.

(** Without overflow, a check interval no longer than the update interval
    gives a threshold of at least one poll. *)
Lemma checksPerUpdate_positive cfg cpu :
  checksPerUpdate cfg = Some cpu ->
  0 < cfg_CheckInterval cfg <= cfg_UpdateInterval cfg * 60 ->
  cfg_UpdateInterval cfg * 60 <= int_max ->
  1 <= cpu.
Proof.
  unfold checksPerUpdate. destruct (cfg_CheckInterval cfg =? 0); [discriminate|].
  intros H [Hc Hu] Hm; inversion H. unfold int_quo, int_mul.
  rewrite (wrap_id (cfg_UpdateInterval cfg * 60)) by (unfold int_min, int_max in *; lia).
  rewrite Z.quot_div_nonneg by lia.
  assert (1 <= cfg_UpdateInterval cfg * 60 / cfg_CheckInterval cfg).
  { apply Z.div_le_lower_bound; lia. }
  assert (cfg_UpdateInterval cfg * 60 / cfg_CheckInterval cfg <= cfg_UpdateInterval cfg * 60).
  { apply Z.div_le_upper_bound; nia. }
  rewrite wrap_id by (unfold int_min, int_max in *; lia). lia.
Qed.

(** Without overflow the threshold is the quotient itself. *)
Lemma checksPerUpdate_value cfg cpu :
  checksPerUpdate cfg = Some cpu ->
  0 < cfg_CheckInterval cfg ->
  0 <= cfg_UpdateInterval cfg * 60 <= int_max ->
  cpu = cfg_UpdateInterval cfg * 60 / cfg_CheckInterval cfg.
Proof.
  unfold checksPerUpdate. destruct (cfg_CheckInterval cfg =? 0); [discriminate|].
  intros H Hc Hu; inversion H. unfold int_quo, int_mul.
  rewrite (wrap_id (cfg_UpdateInterval cfg * 60)) by (unfold int_min, int_max in *; lia).
  rewrite Z.quot_div_nonneg by lia.
  assert (0 <= cfg_UpdateInterval cfg * 60 / cfg_CheckInterval cfg
          <= cfg_UpdateInterval cfg * 60).
  { split; [apply Z.div_pos; lia|]. apply Z.div_le_upper_bound; nia. }
  apply wrap_id. unfold int_min, int_max in *. lia.
Qed.

(** ** The sum and the average of a history *)

Lemma fold_int_add (l : list ViewerDataPoint) : forall acc,
  0 <= acc ->
  (forall p, In p l -> 0 <= pt_Count p) ->
  acc + total (map pt_Count l) <= int_max ->
  fold_left (fun sum p => int_add sum (pt_Count p)) l acc
  = acc + total (map pt_Count l).
Proof.
  induction l as [|x l IH]; intros acc Ha Hl Hs; cbn [fold_left map].
  - unfold total. cbn. lia.
  - assert (Hx : 0 <= pt_Count x) by (apply Hl; left; reflexivity).
    assert (Ht : 0 <= total (map pt_Count l)).
    { clear - Hl. induction l as [|y l IH]; [unfold total; cbn; lia|].
      unfold total in *. cbn [map fold_right].
      assert (0 <= pt_Count y) by (apply Hl; right; left; reflexivity).
      assert (0 <= fold_right Z.add 0 (map pt_Count l)).
      { apply IH. intros p [<-|Hp]; apply Hl; [left | right; right]; auto. }
      lia. }
    unfold total in *. cbn [map fold_right] in Hs. cbn [fold_right].
    unfold int_add at 2. rewrite wrap_id by (unfold int_min, int_max in *; lia).
    rewrite IH; [lia | lia | intros p Hp; apply Hl; right; exact Hp | lia].
Qed.

Lemma total_nonneg (l : list ViewerDataPoint) :
  (forall p, In p l -> 0 <= pt_Count p) -> 0 <= total (map pt_Count l).
Proof.
  induction l as [|y l IH]; intros Hl; [unfold total; cbn; lia|].
  unfold total in *. cbn [map fold_right].
  assert (0 <= pt_Count y) by (apply Hl; left; reflexivity).
  assert (0 <= fold_right Z.add 0 (map pt_Count l))
    by (apply IH; intros p Hp; apply Hl; right; exact Hp).
  lia.
Qed.

Lemma calculateAverage_quotient history :
  history <> [] ->
  (forall p, In p history -> 0 <= pt_Count p) ->
  total (map pt_Count history) <= int_max ->
  calculateAverage history = total (map pt_Count history) / len history.
Proof.
  intros Hne Hpos Hsum.
  pose proof (total_nonneg history Hpos) as Ht.
  unfold calculateAverage. destruct history as [|p0 rest]; [congruence|].
  assert (Hlen : 0 < len (p0 :: rest)) by (unfold len; cbn [List.length]; lia).
  rewrite fold_int_add by (try lia; assumption).
  rewrite Z.add_0_l. unfold int_quo.
  rewrite Z.quot_div_nonneg by lia.
  apply wrap_id.
  assert (0 <= total (map pt_Count (p0 :: rest)) / len (p0 :: rest)
          <= total (map pt_Count (p0 :: rest))).
  { split; [apply Z.div_pos; lia|]. apply Z.div_le_upper_bound; [lia|]. nia. }
  unfold int_min, int_max in *. lia.
Qed.

Lemma len_pos {A : Type} (l : list A) : l <> [] -> 0 < len l.
Proof. intros H. unfold len. destruct l; [congruence | cbn [List.length]; lia]. Qed.

(** ** The update counter *)

Lemma transition_counterInv cpu st st' :
  cpu <= int_max ->
  Transition cpu st st' -> counterInv cpu st -> counterInv cpu st'.
Proof.
  intros Hcpu T Hinv. destruct T; try exact Hinv;
    intros s' Hs'; cbn [session] in Hs'; try discriminate;
    inversion Hs'; subst; clear Hs'; cbn [sess_UpdateCounter newSession refreshed];
    try (split; [lia | left; reflexivity]).
  destruct (Hinv s eq_refl) as [H0 H1].
  unfold refreshDue in H. apply orb_false_iff in H. destruct H as [H _].
  apply Z.leb_gt in H. cbn [recordPoll sess_UpdateCounter] in *.
  unfold int_add in *.
  rewrite wrap_id in * by (unfold int_min, int_max in *; lia). lia.
Qed.

Lemma reachable_counterInv cfg cpu st :
  cpu <= int_max -> reachable cfg cpu st -> counterInv cpu st.
Proof.
  intros Hcpu R. induction R as [|st fuel w st' w' R IH Hp].
  - intros s Hs. discriminate.
  - eapply transition_counterInv; [exact Hcpu | | exact IH].
    eapply pollCycle_transition; exact Hp.
Qed.

(** The increment of a reachable counter does not wrap. *)
Lemma recordPoll_counter cpu st s now viewers :
  cpu <= int_max -> counterInv cpu st -> session st = Some s ->
  sess_UpdateCounter (recordPoll s now viewers) = sess_UpdateCounter s + 1.
Proof.
  intros Hcpu Hinv Hs. destruct (Hinv s Hs) as [H0 H1].
  cbn [recordPoll sess_UpdateCounter]. unfold int_add.
  apply wrap_id. unfold int_min, int_max in *. lia.
Qed.

(** ** Interactions keep the script *)

Lemma steady_timeNow : steady timeNow.
Proof. intros w. cbn. split; [reflexivity | lia]. Qed.

Lemma steady_ctxWait d : steady (ctxWait d).
Proof. intros w. cbn. split; [reflexivity | lia]. Qed.

Lemma steady_getRecentClips b t : steady (getRecentClips b t).
Proof. intros w. cbn. split; [reflexivity | lia]. Qed.

Lemma steady_getBroadcasterID c : steady (getBroadcasterID c).
Proof. intros w. cbn. split; [reflexivity | lia]. Qed.

Lemma steady_getThumbnailURL c : steady (getThumbnailURL c).
Proof. intros w. cbn. split; [reflexivity | lia]. Qed.

Lemma steady_timeSince t : steady (timeSince t).
Proof. intros w. cbn. split; [reflexivity | lia]. Qed.

Lemma steady_editMessageCaption m c u b : steady (editMessageCaption m c u b).
Proof.
  intros w. unfold editMessageCaption, httpDo.
  destruct (telegramAt (script w) (tick w)) as [e|status body];
    [|destruct (negb (status =? StatusOK))]; cbn; (split; [reflexivity | lia]).
Qed.

Lemma steady_editPhotoMessage m p c u b : steady (editPhotoMessage m p c u b).
Proof.
  intros w. unfold editPhotoMessage, downloadImage, httpDo.
  destruct (imageAt (script w) (tick w)) as [e0|]; [cbn; split; [reflexivity | lia]|].
  cbn [advance script tick record].
  destruct (telegramAt (script w) (S (tick w))) as [e|status body];
    [|destruct (negb (status =? StatusOK))]; cbn; (split; [reflexivity | lia]).
Qed.

Lemma steady_sendPhotoMessage p c u b : steady (sendPhotoMessage p c u b).
Proof.
  intros w. unfold sendPhotoMessage, downloadImage, httpDo.
  destruct (imageAt (script w) (tick w)) as [e0|]; [cbn; split; [reflexivity | lia]|].
  cbn [advance script tick record].
  destruct (telegramAt (script w) (S (tick w))) as [e|status [body|]];
    [| destruct (negb (tg_Ok body)) |]; cbn; (split; [reflexivity | lia]).
Qed.

(** ** Termination of the deliveries under cancellation *)

Lemma retry_cancel_terminates (operation : IO (option error)) w c :
  steady operation -> cancelAt (script w) = Some c ->
  exists fuel r, retry operation fuel w = Some r.
Proof.
  intros Hop Hc. unfold retry.
  exists (S (c - tick w)).
  apply (retryWithBackoff_terminates ctxWait operation
           (fun w' => script w' = script w) (fun w' => (c - tick w')%nat)); [|reflexivity].
  intros s Hs e s1 Eop d s2 Ew.
  destruct (Hop s) as [H1 H2]. rewrite Eop in H1, H2. cbn [snd] in H1, H2.
  unfold ctxWait in Ew. inversion Ew as [[Hcan Hs2]]. clear Ew.
  unfold cancelled in Hcan. rewrite H1, Hs, Hc in Hcan.
  apply Nat.leb_gt in Hcan. cbn [advance record script tick].
  split; [congruence | lia].
Qed.

Lemma deliverStart_cancel_terminates p cap u b w c :
  cancelAt (script w) = Some c ->
  exists fuel r, deliverStart p cap u b fuel w = Some r.
Proof.
  intros Hc. unfold deliverStart.
  destruct (retryWithBackoff_terminates waitWith (sendStart p cap u b)
              (fun s => script (snd s) = script w) (fun s => (c - tick (snd s))%nat)
              ) with (s := (0, w)) as [[err [mid w1]] Hr].
  - intros [m0 s] Hs e [m1 s1] Eop d [m2 s2] Ew. cbn [snd] in *.
    unfold sendStart in Eop. cbn [snd] in Eop.
    destruct (steady_sendPhotoMessage p cap u b s) as [H1 H2].
    destruct (sendPhotoMessage p cap u b s) as [[id e0] s'] eqn:Es.
    inversion Eop; subst. cbn [snd] in H1, H2.
    unfold waitWith, ctxWait in Ew. cbn [fst snd] in Ew. inversion Ew as [[Hcan Hm Hs2]].
    unfold cancelled in Hcan. rewrite H1, Hs, Hc in Hcan.
    apply Nat.leb_gt in Hcan. cbn [advance record script tick].
    split; [congruence | lia].
  - reflexivity.
  - cbn [snd] in Hr. exists (S (c - tick w)). rewrite Hr. eauto.
Qed.

Lemma retry_outcome {St : Type} (wait : Z -> St -> bool * St)
    (operation : St -> option error * St) fuel s r s' :
  retryWithBackoff wait operation fuel s = Some (r, s') ->
  r = None \/ r = Some ContextCanceled.
Proof.
  intros H. apply retryWithBackoff_last in H.
  destruct H; [left | right]; reflexivity.
Qed.

Lemma script_checkStatus cfg st w :
  script (snd (checkStatus cfg st w)) = script w.
Proof.
  unfold checkStatus, fileExists, osRemove, getStreamInfo.
  destruct (existsb _ _); [destruct (session st) | destruct (streamInfoAt _ _)];
    reflexivity.
Qed.

Lemma startBranch_cancel_terminates cfg loc info lw w c :
  cancelAt (script w) = Some c ->
  exists fuel r, startBranch cfg loc fuel info lw w = Some r.
Proof.
  intros Hc. unfold startBranch. run.
  destruct (steady_getBroadcasterID (cfg_Channel cfg) w) as [H1 _].
  destruct (getBroadcasterID (cfg_Channel cfg) w) as [[e|bid] w1]; cbn [snd] in H1.
  - exists 0%nat. rewrite endOfCycle_eq. eauto.
  - destruct (steady_getThumbnailURL (cfg_Channel cfg) w1) as [H2 _].
    destruct (getThumbnailURL (cfg_Channel cfg) w1) as [th w2]. cbn [snd] in H2.
    destruct (steady_timeNow w2) as [H3 _].
    destruct (timeNow w2) as [now w3]. cbn [snd] in H3.
    destruct (deliverStart_cancel_terminates th (formatStartMessage info loc)
                (info_URL info) (loc_ButtonText loc) w3 c) as (fuel & [[err mid] w4] & Hd).
    + congruence.
    + exists fuel. rewrite Hd. cbn [snd].
      destruct (negb (mid =? 0)).
      * destruct (timeNow w4) as [t w5]. rewrite endOfCycle_eq. eauto.
      * rewrite endOfCycle_eq. eauto.
Qed.

Lemma liveBranch_cancel_terminates cfg loc cpu info s lw w c :
  cancelAt (script w) = Some c ->
  exists fuel r, liveBranch cfg loc cpu fuel info s lw w = Some r.
Proof.
  intros Hc. unfold liveBranch. run.
  destruct (steady_timeNow w) as [H1 _].
  destruct (timeNow w) as [now w1]. cbn [snd] in H1.
  destruct (refreshDue cpu info (recordPoll s now (info_Viewers info))).
  - destruct (steady_getThumbnailURL (cfg_Channel cfg) w1) as [H2 _].
    destruct (getThumbnailURL (cfg_Channel cfg) w1) as [th w2]. cbn [snd] in H2.
    match goal with |- context [getRecentClips ?b ?t w2] =>
      destruct (steady_getRecentClips b t w2) as [H3 _];
      destruct (getRecentClips b t w2) as [got w3] end.
    cbn [snd] in H3.
    match goal with |- context [retry ?op _ w3] =>
      destruct (retry_cancel_terminates op w3 c) as (fuel & [r w4] & Hr) end.
    + apply steady_editPhotoMessage.
    + congruence.
    + exists fuel. rewrite Hr. rewrite endOfCycle_eq. eauto.
  - exists 0%nat. rewrite endOfCycle_eq. eauto.
Qed.

(** ** The sentinel *)

Lemma existsb_filter_self (x : string) (l : list string) :
  existsb (String.eqb x) (filter (fun f => negb (String.eqb x f)) l) = false.
Proof.
  induction l as [|a l IH]; [reflexivity|].
  cbn [filter]. destruct (String.eqb x a) eqn:E; cbn [negb]; [exact IH|].
  cbn [existsb]. rewrite E, IH. reflexivity.
Qed.

(** C1 (the code at the failing input): in a poll cycle that finds the
    sentinel file while a session exists, the file is deleted, but the
    status check reports the error "simulated end" and the cycle ends at the
    error guard: the loop variables, session included, are unchanged, and
    the only effects are the deletion and the sleep. No end message is
    composed or delivered: the Live -> Offline transition is not taken. *)
Theorem simulate_end_keeps_session cfg loc cpu fuel st s w :
  cancelled w = false ->
  session st = Some s ->
  existsb (String.eqb simulate_end) (files w) = true ->
  exists w' c,
    pollCycle cfg loc cpu fuel st w = Some (Continue st, w')
    /\ trace w' = EvWait (cfg_CheckInterval cfg) c :: EvRemove simulate_end :: trace w
    /\ existsb (String.eqb simulate_end) (files w') = false.
Proof.
  intros Hc Hs Hf.
  rewrite (pollCycle_running _ _ _ _ _ _ Hc).
  unfold checkStatus, fileExists. cbn [advance files]. rewrite Hf, Hs.
  unfold osRemove. cbn [fst snd dispatch]. rewrite endOfCycle_eq.
  eexists. eexists. split; [reflexivity|]. split; [reflexivity|].
  cbn [ctxWait snd advance record setFiles files]. apply existsb_filter_self.
Qed.

(** ** Live -> Offline *)

Lemma endBranch_cancel_terminates cfg loc s lw w c :
  cancelAt (script w) = Some c ->
  exists fuel w',
    endBranch cfg loc fuel s lw w
    = Some (Continue {| session := None; lastWasLive := lw |}, w').
Proof.
  intros Hc. unfold endBranch. run.
  destruct (steady_timeSince (sess_StartTime s) w) as [H1 _].
  destruct (timeSince (sess_StartTime s) w) as [d w1]. cbn [snd] in H1.
  destruct (steady_getRecentClips (sess_BroadcasterID s) (sess_StartTime s) w1) as [H2 _].
  destruct (getRecentClips (sess_BroadcasterID s) (sess_StartTime s) w1) as [got w2].
  cbn [snd] in H2.
  match goal with |- context [retry ?op _ w2] =>
    destruct (retry_cancel_terminates op w2 c) as (fuel & [r w3] & Hr) end.
  - apply steady_editMessageCaption.
  - congruence.
  - exists fuel. rewrite Hr. rewrite endOfCycle_eq. eauto.
Qed.

(** Once Telegram accepts every request, a caption edit is delivered. *)
Lemma endBranch_accept_terminates cfg loc s lw w n :
  (forall t, (n <= t)%nat -> exists b, telegramAt (script w) t = HttpResponse StatusOK b) ->
  exists fuel w',
    endBranch cfg loc fuel s lw w
    = Some (Continue {| session := None; lastWasLive := lw |}, w').
Proof.
  intros Hok. unfold endBranch. run.
  destruct (steady_timeSince (sess_StartTime s) w) as [H1 _].
  destruct (timeSince (sess_StartTime s) w) as [d w1]. cbn [snd] in H1.
  destruct (steady_getRecentClips (sess_BroadcasterID s) (sess_StartTime s) w1) as [H2 _].
  destruct (getRecentClips (sess_BroadcasterID s) (sess_StartTime s) w1) as [got w2].
  cbn [snd] in H2.
  match goal with |- context [retry ?op _ w2] =>
    destruct (retryWithBackoff_terminates ctxWait op
                (fun w' => script w' = script w) (fun w' => (n - tick w')%nat))
      with (s := w2) as [[r w3] Hr] end.
  - intros x Hx e x1 Eop d0 x2 Ew.
    unfold editMessageCaption, httpDo in Eop.
    destruct (Nat.le_gt_cases n (tick x)) as [Hn|Hn].
    + destruct (Hok (tick x) Hn) as [b Hb]. rewrite Hx, Hb in Eop.
      cbn in Eop. discriminate.
    + assert (script x1 = script x /\ tick x1 = S (tick x)) as [A B].
      { destruct (telegramAt (script x) (tick x)) as [e0|status body];
          [|destruct (negb (status =? StatusOK))]; inversion Eop; subst;
          cbn; split; reflexivity. }
      unfold ctxWait in Ew. inversion Ew; subst. cbn [advance record script tick].
      split; [congruence | lia].
  - congruence.
  - exists (S (n - tick w2)). unfold retry. rewrite Hr. rewrite endOfCycle_eq. eauto.
Qed.

(** C5: a poll cycle that finds no snapshot while a session exists ends
    with no session, whatever the caption edit did: every completed cycle
    has run the executor to one of its two outcomes, success or
    cancellation, and ended with [session = nil]. The cycle does complete
    once the context is cancelled, and once Telegram accepts the edit. *)
Theorem live_offline_discards_session cfg loc cpu st s w :
  cancelled w = false ->
  session st = Some s ->
  fst (checkStatus cfg st (advance w)) = (None, None) ->
  (forall fuel step w',
      pollCycle cfg loc cpu fuel st w = Some (step, w') ->
      step = Continue {| session := None; lastWasLive := false |}
      /\ exists message w2 r w3,
           retry (editMessageCaption (sess_MessageID s) message
                    ("https://twitch.tv/" ++ cfg_Channel cfg) (loc_ButtonText loc))
                 fuel w2 = Some (r, w3)
           /\ (r = None \/ r = Some ContextCanceled)
           /\ w' = snd (ctxWait (cfg_CheckInterval cfg) w3))
  /\ (forall c, cancelAt (script w) = Some c ->
        exists fuel w',
          pollCycle cfg loc cpu fuel st w
          = Some (Continue {| session := None; lastWasLive := false |}, w'))
  /\ (forall n,
        (forall t, (n <= t)%nat ->
                   exists b, telegramAt (script w) t = HttpResponse StatusOK b) ->
        exists fuel w',
          pollCycle cfg loc cpu fuel st w
          = Some (Continue {| session := None; lastWasLive := false |}, w')).
Proof.
  intros Hc Hs Hst.
  assert (Hscript : script (snd (checkStatus cfg st (advance w))) = script w).
  { unfold checkStatus, fileExists, osRemove, getStreamInfo.
    destruct (existsb _ _); [destruct (session st)|
      destruct (streamInfoAt _ _)]; reflexivity. }
  assert (D : forall fuel, pollCycle cfg loc cpu fuel st w
              = endBranch cfg loc fuel s false (snd (checkStatus cfg st (advance w)))).
  { intros fuel. rewrite (pollCycle_running _ _ _ _ _ _ Hc).
    destruct (checkStatus cfg st (advance w)) as [[i e] w1]. cbn [fst snd] in *.
    inversion Hst; subst. unfold dispatch. rewrite Hs.
    destruct (lastWasLive st); reflexivity. }
  split; [|split].
  - intros fuel step w' H. rewrite D in H. split; [eapply endBranch_result; exact H|].
    unfold endBranch in H. run.
    destruct (timeSince (sess_StartTime s) _) as [d w1].
    destruct (getRecentClips (sess_BroadcasterID s) (sess_StartTime s) w1) as [got w2].
    match type of H with context [retry ?op fuel w2] =>
      destruct (retry op fuel w2) as [[r w3]|] eqn:Er end; [|discriminate].
    rewrite endOfCycle_eq in H. inversion H; subst.
    do 4 eexists. split; [exact Er|]. split; [|reflexivity].
    eapply retry_outcome. exact Er.
  - intros c Hcan.
    destruct (endBranch_cancel_terminates cfg loc s false
                (snd (checkStatus cfg st (advance w))) c) as (fuel & w' & H).
    + congruence.
    + exists fuel, w'. rewrite D. exact H.
  - intros n Hok.
    destruct (endBranch_accept_terminates cfg loc s false
                (snd (checkStatus cfg st (advance w))) n) as (fuel & w' & H).
    + intros t Ht. rewrite Hscript. apply Hok. exact Ht.
    + exists fuel, w'. rewrite D. exact H.
Qed.

(** ** Offline -> Live *)

Lemma dispatch_start cfg loc cpu fuel st info w :
  session st = None ->
  dispatch cfg loc cpu fuel st (Some info) None w = startBranch cfg loc fuel info true w.
Proof.
  intros Hs. unfold dispatch. rewrite Hs. destruct (lastWasLive st); reflexivity.
Qed.

(** ** Live -> Live *)

Lemma dispatch_live cfg loc cpu fuel st s info w :
  session st = Some s ->
  dispatch cfg loc cpu fuel st (Some info) None w = liveBranch cfg loc cpu fuel info s true w.
Proof.
  intros Hs. unfold dispatch. rewrite Hs. destruct (lastWasLive st); reflexivity.
Qed.

Lemma refreshDue_spec cpu info s now viewers :
  refreshDue cpu info (recordPoll s now viewers) = true
  <-> (cpu <= int_add (sess_UpdateCounter s) 1
       \/ (info_Game info <> sess_Game s /\ sess_Game s <> "")).
Proof.
  unfold refreshDue, gameChanged. cbn [recordPoll sess_UpdateCounter sess_Game].
  rewrite orb_true_iff, andb_true_iff, negb_true_iff, Z.leb_le.
  rewrite String.eqb_neq.
  assert (N : nonempty (sess_Game s) = true <-> sess_Game s <> "").
  { destruct (sess_Game s); cbn; split; intros; congruence. }
  rewrite N. reflexivity.
Qed.

Lemma pollCycle_live cfg loc cpu fuel st s info w :
  cancelled w = false ->
  session st = Some s ->
  fst (checkStatus cfg st (advance w)) = (Some info, None) ->
  pollCycle cfg loc cpu fuel st w
  = liveBranch cfg loc cpu fuel info s true (snd (checkStatus cfg st (advance w))).
Proof.
  intros Hc Hs Hst. rewrite (pollCycle_running _ _ _ _ _ _ Hc).
  destruct (checkStatus cfg st (advance w)) as [[i e] w0]. cbn [fst snd] in *.
  inversion Hst; subst. apply dispatch_live. exact Hs.
Qed.

Lemma liveBranch_due cfg loc cpu fuel info s lw w step w' :
  refreshDue cpu info (recordPoll s (nowAt (script w) (tick w)) (info_Viewers info)) = true ->
  liveBranch cfg loc cpu fuel info s lw w = Some (step, w') ->
  step = Continue
           {| session := Some (refreshed (recordPoll s (nowAt (script w) (tick w))
                                            (info_Viewers info)) info);
              lastWasLive := lw |}
  /\ exists thumbnailURL w2 got w3 r w4,
       getRecentClips (sess_BroadcasterID s) (sess_StartTime s) w2 = (got, w3)
       /\ retry (editPhotoMessage (sess_MessageID s) thumbnailURL
                   (formatUpdateMessageWithClips info
                      (calculateAverage
                         (sess_ViewerHistory
                            (recordPoll s (nowAt (script w) (tick w)) (info_Viewers info))))
                      (sess_ViewerHistory
                         (recordPoll s (nowAt (script w) (tick w)) (info_Viewers info)))
                      (clipsOf got) loc)
                   (info_URL info) (loc_ButtonText loc)) fuel w3 = Some (r, w4)
       /\ w' = snd (ctxWait (cfg_CheckInterval cfg) w4).
Proof.
  intros Hd H.
  pose proof (liveBranch_result _ _ _ _ _ _ _ _ _ _ H) as R. cbv zeta in R.
  rewrite Hd in R. split; [exact R|].
  unfold liveBranch in H. run. unfold timeNow at 1 in H. cbv beta iota zeta in H.
  rewrite Hd in H.
  destruct (getThumbnailURL (cfg_Channel cfg) (advance w)) as [th w2].
  match type of H with context [getRecentClips ?b ?t w2] =>
    destruct (getRecentClips b t w2) as [got w3] eqn:Eg end.
  match type of H with context [retry ?op fuel w3] =>
    destruct (retry op fuel w3) as [[r w4]|] eqn:Er end; [|discriminate].
  rewrite endOfCycle_eq in H. inversion H; subst.
  exists th, w2, got, w3, r, w4. split; [exact Eg|]. split; [exact Er | reflexivity].
Qed.

Lemma liveBranch_not_due cfg loc cpu fuel info s lw w :
  refreshDue cpu info (recordPoll s (nowAt (script w) (tick w)) (info_Viewers info)) = false ->
  liveBranch cfg loc cpu fuel info s lw w
  = Some (Continue {| session := Some (recordPoll s (nowAt (script w) (tick w))
                                         (info_Viewers info));
                      lastWasLive := lw |},
          snd (ctxWait (cfg_CheckInterval cfg) (advance w))).
Proof.
  intros E. unfold liveBranch. run. unfold timeNow at 1. cbv beta iota zeta.
  rewrite E. reflexivity.
Qed.

(** ** The update counter over the run *)

(** C6 (as amended): for a configuration with positive intervals, in every
    reachable state the update counter is not negative, and its increment
    does not wrap; a poll that refreshes ends with the counter at 0 whatever
    the delivery did; that 0 lies in [0, checksPerUpdate) when
    checksPerUpdate is at least 1. When the seconds of the update interval
    fit an [int] (the product by 60 does not overflow), checksPerUpdate is
    at least 1 exactly when the check interval is not longer than the
    update interval; when the product overflows, checksPerUpdate is the
    quotient of the wrapped product. *)
Theorem update_counter_bounds cfg cpu :
  0 < cfg_CheckInterval cfg ->
  0 < cfg_UpdateInterval cfg ->
  checksPerUpdate cfg = Some cpu ->
  (forall st s, reachable cfg cpu st -> session st = Some s ->
                0 <= sess_UpdateCounter s)
  /\ (forall st s now viewers, reachable cfg cpu st -> session st = Some s ->
        sess_UpdateCounter (recordPoll s now viewers) = sess_UpdateCounter s + 1)
  /\ (forall st s info w fuel step w',
        reachable cfg cpu st ->
        session st = Some s ->
        cancelled w = false ->
        fst (checkStatus cfg st (advance w)) = (Some info, None) ->
        (cpu <= int_add (sess_UpdateCounter s) 1
         \/ (info_Game info <> sess_Game s /\ sess_Game s <> "")) ->
        pollCycle cfg (getLocalization (cfg_Language cfg)) cpu fuel st w = Some (step, w') ->
        exists st' s',
          step = Continue st' /\ reachable cfg cpu st' /\ session st' = Some s'
          /\ sess_UpdateCounter s' = 0
          /\ (1 <= cpu -> 0 <= sess_UpdateCounter s' < cpu))
  /\ (cfg_UpdateInterval cfg * 60 <= int_max ->
      (1 <= cpu <-> cfg_CheckInterval cfg <= cfg_UpdateInterval cfg * 60)).
Proof.
  intros HC HU Hcpu.
  assert (Hmax : cpu <= int_max) by (apply checksPerUpdate_range in Hcpu; lia).
  split; [|split; [|split]].
  - intros st s R Hs. apply (reachable_counterInv cfg cpu st Hmax R s Hs).
  - intros st s now viewers R Hs.
    eapply recordPoll_counter; [exact Hmax | | exact Hs].
    apply (reachable_counterInv cfg cpu st Hmax R).
  - intros st s info w fuel step w' R Hs Hc Hst Hd H.
    rewrite (pollCycle_live _ _ _ _ _ _ _ _ Hc Hs Hst) in H.
    apply (refreshDue_spec cpu info s
             (nowAt (script (snd (checkStatus cfg st (advance w))))
                (tick (snd (checkStatus cfg st (advance w))))) (info_Viewers info)) in Hd.
    destruct (liveBranch_due _ _ _ _ _ _ _ _ _ _ Hd H) as [E _].
    rewrite <- (pollCycle_live _ _ _ _ _ _ _ _ Hc Hs Hst) in H.
    eexists. eexists. split; [exact E|]. split.
    + eapply reachable_step; [exact R|]. rewrite <- E. exact H.
    + split; [reflexivity|]. cbn [refreshed sess_UpdateCounter]. split; [reflexivity | lia].
  - intros H2. split.
    + intros H1. rewrite (checksPerUpdate_value cfg cpu Hcpu HC ltac:(lia)) in H1.
      destruct (Z.le_gt_cases (cfg_CheckInterval cfg) (cfg_UpdateInterval cfg * 60))
        as [L|L]; [exact L|].
      rewrite Z.div_small in H1 by lia. lia.
    + intros H1. eapply checksPerUpdate_positive; [exact Hcpu | lia | lia].
Qed.

(** ** The retry executor: outcomes and schedule *)

(** C2: whatever the operation and the context do, a run of the executor
    that returns has one of two results: [nil], and then its last step was
    an invocation that succeeded; or the context's error, and then its last
    steps were an invocation that failed and a wait that the context cut
    short, the state being the one that wait left: the operation was not
    invoked again. The operation's own error is never the result. On the
    probe: when the signal fires during wait number [k], the run returns the
    cancellation with [k + 1] invocations made and [k] waits completed. *)
Theorem retry_succeeds_or_is_cancelled :
  (forall (St : Type) (wait : Z -> St -> bool * St)
          (operation : St -> option error * St) fuel s r s',
      retryWithBackoff wait operation fuel s = Some (r, s') ->
      (r = None /\ exists s0, operation s0 = (None, s'))
      \/ (r = Some ContextCanceled
          /\ exists s0 e s1 d, operation s0 = (Some e, s1) /\ wait d s1 = (true, s')))
  /\ (forall ok fires k fuel,
        quietBefore ok fires k -> ok k = false -> fires k = true ->
        (k < List.length delays + fuel)%nat ->
        retryWithBackoff (probeWait fires) (probeOp ok) fuel probe0
        = Some (Some ContextCanceled, {| invocations := S k; waits := schedule k |})).
Proof.
  split.
  - intros St wait operation fuel s r s' H.
    apply retryWithBackoff_last in H. destruct H as [s0 s' H|s0 e s1 d s' H1 H2].
    + left. split; [reflexivity|]. exists s0. exact H.
    + right. split; [reflexivity|]. exists s0, e, s1, d. split; assumption.
  - intros ok fires k fuel Hq Hok Hf Hk.
    apply (proj2 (retry_probe_stop ok fires k fuel Hq Hk) Hok Hf).
Qed.

(** C3: the first invocation is immediate; after the failed invocation
    number [i] (from 0) the executor waits [nth i [1;3;5;10;15;30;45;60] 60]
    seconds; so an operation that first succeeds at invocation number [k]
    returns success after [k + 1] invocations and the first [k] delays of
    1, 3, 5, 10, 15, 30, 45, 60, 60, 60, ...; an operation that never
    succeeds is retried as long as the model follows it. In particular,
    three failures then a success: 4 invocations, waits of 1, 3 and 5
    seconds, 9 in all. *)
Theorem retry_follows_schedule :
  (forall ok fires k fuel,
      quietBefore ok fires k -> ok k = true ->
      (k < List.length delays + fuel)%nat ->
      retryWithBackoff (probeWait fires) (probeOp ok) fuel probe0
      = Some (None, {| invocations := S k; waits := schedule k |}))
  /\ (forall k, schedule k
                = (firstn k [1; 3; 5; 10; 15; 30; 45; 60] ++ repeat 60 (k - 8)%nat)%list)
  /\ (forall ok fires fuel,
        (forall i, ok i = false /\ fires i = false) ->
        retryWithBackoff (probeWait fires) (probeOp ok) fuel probe0 = None)
  /\ (forall ok fires fuel,
        quietBefore ok fires 3%nat -> ok 3%nat = true ->
        retryWithBackoff (probeWait fires) (probeOp ok) fuel probe0
        = Some (None, {| invocations := 4%nat; waits := [1; 3; 5] |})
        /\ total [1; 3; 5] = 9).
Proof.
  split; [|split; [|split]].
  - intros ok fires k fuel Hq Hok Hk.
    apply (proj1 (retry_probe_stop ok fires k fuel Hq Hk) Hok).
  - intros k. reflexivity.
  - intros ok fires fuel H. apply retry_probe_forever. exact H.
  - intros ok fires fuel Hq Hok. split; [|reflexivity].
    apply (proj1 (retry_probe_stop ok fires 3%nat fuel Hq ltac:(cbn; lia)) Hok).
Qed.


(** ** Concrete runs *)

(** The sentinel is present and the session of the example exists: the
    cycle keeps the session. *)
Lemma simulate_end_keeps_session_witness :
  let w := Demo.world 10 (StreamLive Demo.info) Demo.accepted None [simulate_end] in
  (cancelled w = false
   /\ session Demo.live = Some Demo.session0
   /\ existsb (String.eqb simulate_end) (files w) = true)
  /\ exists w' c,
       pollCycle Demo.cfg Demo.loc 5 0 Demo.live w
       = Some (Continue Demo.live, w')
       /\ trace w' = [EvWait 60 c; EvRemove simulate_end]
       /\ existsb (String.eqb simulate_end) (files w') = false.
Proof.
  split; [repeat split|].
  apply (simulate_end_keeps_session Demo.cfg Demo.loc 5 0 Demo.live
           Demo.session0
           (Demo.world 10 (StreamLive Demo.info) Demo.accepted None [simulate_end]));
    reflexivity.
Defined.

(** Telegram refuses every request and the context is cancelled at
    interaction 30: the end delivery is cancelled, and the session is
    discarded. *)
Lemma live_offline_discards_session_witness :
  let w := Demo.world 10 StreamOffline Demo.refused (Some 30%nat) [] in
  (cancelled w = false
   /\ session Demo.live = Some Demo.session0
   /\ fst (checkStatus Demo.cfg Demo.live (advance w)) = (None, None))
  /\ exists fuel w',
       pollCycle Demo.cfg Demo.loc 5 fuel Demo.live w
       = Some (Continue {| session := None; lastWasLive := false |}, w').
Proof.
  split; [repeat split|].
  apply (proj1 (proj2 (live_offline_discards_session Demo.cfg Demo.loc 5
                         Demo.live Demo.session0
                         (Demo.world 10 StreamOffline Demo.refused (Some 30%nat) [])
                         eq_refl eq_refl eq_refl)) 30%nat).
  reflexivity.
Defined.

(** C4 (counterexample): Telegram accepts the start message with an answer
    that carries no message id, and the context is never cancelled: the
    delivery succeeds at its first attempt, the poll cycle runs to its end
    (the closing sleep is not cut short), and no session is created. *)
Lemma start_accepted_without_id_creates_no_session :
  let w := Demo.world 0 (StreamLive Demo.info) Demo.acceptedNoId None [] in
  cancelAt (script w) = None
  /\ Demo.ending (pollCycle Demo.cfg Demo.loc 5 0 initialState w)
     = Some (Continue {| session := None; lastWasLive := true |})
  /\ Demo.effects (pollCycle Demo.cfg Demo.loc 5 0 initialState w)
     = Some [EvGetStreamInfo "chan"; EvGetBroadcasterID "chan";
             EvSendPhoto
               "https://static-cdn.jtvnw.net/previews-ttv/live_user_chan-1920x1080.jpg?t=400"
               (formatStartMessage Demo.info Demo.loc)
               "https://twitch.tv/chan" "Watch";
             EvWait 60 false].
Proof. repeat split; vm_compute; reflexivity. Qed.

(** The example configuration has positive intervals and a threshold of 5
    polls: the counter of every reachable session is not negative; its
    300 seconds of update interval fit an [int], and the threshold is at
    least 1 as the check interval, 60 seconds, is the shorter one. *)
Lemma update_counter_bounds_witness :
  (0 < cfg_CheckInterval Demo.cfg
   /\ 0 < cfg_UpdateInterval Demo.cfg
   /\ checksPerUpdate Demo.cfg = Some 5)
  /\ (forall st s, reachable Demo.cfg 5 st -> session st = Some s ->
                   0 <= sess_UpdateCounter s)
  /\ (cfg_UpdateInterval Demo.cfg * 60 <= int_max
      /\ (1 <= 5 <-> cfg_CheckInterval Demo.cfg <= cfg_UpdateInterval Demo.cfg * 60)).
Proof.
  split; [repeat split|].
  assert (H : cfg_UpdateInterval Demo.cfg * 60 <= int_max)
    by (vm_compute; discriminate).
  split.
  - apply (proj1 (update_counter_bounds Demo.cfg 5 eq_refl eq_refl eq_refl)).
  - split; [exact H|].
    apply (proj2 (proj2 (proj2
             (update_counter_bounds Demo.cfg 5 eq_refl eq_refl eq_refl))) H).
Defined.

(** C6 (counterexample): check interval 61 s and update interval 1 min are
    positive, and the threshold is 60 / 61 = 0. [Demo.live] is reachable
    (it is what the first live poll creates); the next live poll refreshes
    (its counter, 1, has reached 0) and leaves the counter at 0, which does
    not lie in the empty interval [0, 0). *)
Lemma refresh_counter_outside_empty_interval :
  let w := Demo.world 10 (StreamLive Demo.info) Demo.accepted None [] in
  let loc := getLocalization (cfg_Language Demo.cfg61) in
  (0 < cfg_CheckInterval Demo.cfg61
   /\ 0 < cfg_UpdateInterval Demo.cfg61
   /\ checksPerUpdate Demo.cfg61 = Some 0)
  /\ reachable Demo.cfg61 0 Demo.live
  /\ exists s',
       Demo.ending (pollCycle Demo.cfg61 loc 0 0 Demo.live w)
       = Some (Continue {| session := Some s'; lastWasLive := true |})
       /\ Demo.effects (pollCycle Demo.cfg61 loc 0 0 Demo.live w)
          = Some [EvGetStreamInfo "chan";
                  EvGetRecentClips "b1" 800000000000;
                  EvEditPhoto 77
                    "https://static-cdn.jtvnw.net/previews-ttv/live_user_chan-1920x1080.jpg?t=1400"
                    (formatUpdateMessageWithClips Demo.info 1500
                       (sess_ViewerHistory s') [] loc)
                    "https://twitch.tv/chan" "Watch";
                  EvWait 61 false]
       /\ sess_UpdateCounter s' = 0
       /\ ~ (0 <= sess_UpdateCounter s' < 0).
Proof.
  split; [repeat split|split].
  - eapply (reachable_step Demo.cfg61 0 initialState 0
              (Demo.world 0 (StreamLive Demo.info) Demo.accepted None [])).
    + apply reachable_init.
    + lazy. reflexivity.
  - eexists. split; [lazy; reflexivity|].
    split; [vm_compute; reflexivity|]. split; [reflexivity|].
    cbn. lia.
Qed.

(** The product by 60 wraps: check interval 60 s and update interval 2^62
    min are positive, the check interval is the shorter one, and the
    threshold is 0. *)
Example threshold_of_wrapped_product :
  checksPerUpdate
    {| cfg_Channel := "chan"; cfg_ClientID := "id"; cfg_ClientSecret := "secret";
       cfg_BotToken := "token"; cfg_ChatID := 42; cfg_ThreadID := None;
       cfg_Language := "en"; cfg_CheckInterval := 60;
       cfg_UpdateInterval := 2 ^ 62 |}
  = Some 0.
Proof. vm_compute. reflexivity. Qed.

(** On the probe: an operation that always fails and a signal that fires
    during the third wait (number 2). *)
Lemma retry_succeeds_or_is_cancelled_witness :
  let ok := fun _ : nat => false in
  let fires := fun j : nat => Nat.eqb j 2 in
  (quietBefore ok fires 2 /\ ok 2%nat = false /\ fires 2%nat = true
   /\ (2 < List.length delays + 0)%nat)
  /\ retryWithBackoff (probeWait fires) (probeOp ok) 0 probe0
     = Some (Some ContextCanceled, {| invocations := 3; waits := [1; 3] |}).
Proof.
  assert (Hq : quietBefore (fun _ : nat => false) (fun j : nat => Nat.eqb j 2) 2).
  { intros i Hi. split; [reflexivity|].
    destruct i as [|[|i]]; [reflexivity | reflexivity | lia]. }
  split; [split; [exact Hq | split; [reflexivity | split; [reflexivity | cbn; lia]]]|].
  apply (proj2 retry_succeeds_or_is_cancelled (fun _ => false) (fun j => Nat.eqb j 2)
           2%nat 0%nat Hq eq_refl eq_refl).
  cbn. lia.
Defined.

(** On the probe: an operation that fails three times and then succeeds. *)
Lemma retry_follows_schedule_witness :
  let ok := fun i : nat => Nat.leb 3 i in
  let fires := fun _ : nat => false in
  (quietBefore ok fires 3 /\ ok 3%nat = true)
  /\ forall fuel,
       retryWithBackoff (probeWait fires) (probeOp ok) fuel probe0
       = Some (None, {| invocations := 4; waits := [1; 3; 5] |})
       /\ total [1; 3; 5] = 9.
Proof.
  assert (Hq : quietBefore (fun i : nat => Nat.leb 3 i) (fun _ : nat => false) 3).
  { intros i Hi. split; [|reflexivity].
    destruct i as [|[|[|i]]]; [reflexivity | reflexivity | reflexivity | lia]. }
  split; [split; [exact Hq | reflexivity]|]. intros fuel.
  apply (proj2 (proj2 (proj2 retry_follows_schedule))
           (fun i => Nat.leb 3 i) (fun _ => false) fuel Hq eq_refl).
Defined.

(** ** The message composer *)

Lemma append_assoc (a b c : string) : (a ++ b) ++ c = a ++ (b ++ c).
Proof. induction a as [|x a IH]; cbn; [reflexivity | rewrite IH; reflexivity]. Qed.

Lemma append_empty_r (a : string) : a ++ "" = a.
Proof. induction a as [|x a IH]; cbn; [reflexivity | rewrite IH; reflexivity]. Qed.

(** C8 (as amended): [viewerTrend] shows nothing for a history of fewer
    than 4 points; otherwise, with the early half the first [floor (n/2)]
    points and the late half the rest, and [r] the relative change
    [(lateMean - earlyMean) / earlyMean] of the two arithmetic means, where
    the sums, the means, the difference and the quotient are computed in
    float64 and compared with the float64 constants 0.07 and -0.07, it
    shows Growing if [r > 0.07], Dropping if [r < -0.07] and Steady
    otherwise. *)
Theorem viewerTrend_classifies history loc :
  viewerTrend history loc = trendLabel loc (trend history)
  /\ ((List.length history < 4)%nat ->
      trend history = NoTrend /\ viewerTrend history loc = "").
Proof.
  assert (E : viewerTrend history loc = trendLabel loc (trend history)).
  { unfold viewerTrend, trend, relativeChange, mean, len.
    destruct (Nat.ltb_spec (List.length history) 4) as [Hlt|Hge].
    - replace (Z.of_nat (List.length history) <? 4) with true
        by (symmetry; apply Z.ltb_lt; lia).
      reflexivity.
    - replace (Z.of_nat (List.length history) <? 4) with false
        by (symmetry; apply Z.ltb_ge; lia).
      cbv zeta.
      assert (Hmid : (List.length history / 2 <= List.length history)%nat)
        by (apply Nat.Div0.div_le_upper_bound; lia).
      rewrite length_firstn, length_skipn.
      rewrite Nat.min_l by exact Hmid.
      rewrite Nat2Z.inj_sub by exact Hmid.
      destruct (F64.ltb (F64.lit 7 100) _); [reflexivity|].
      destruct (F64.ltb _ (F64.neg (F64.lit 7 100))); reflexivity. }
  split; [exact E|]. intros Hlt.
  assert (T : trend history = NoTrend).
  { unfold trend. apply Nat.ltb_lt in Hlt. rewrite Hlt. reflexivity. }
  split; [exact T|]. rewrite E, T. reflexivity.
Qed.

(** A history of three points has no trend. *)
Lemma viewerTrend_classifies_witness :
  (List.length (counts [10; 20; 30]%Z) < 4)%nat
  /\ trend (counts [10; 20; 30]) = NoTrend
  /\ viewerTrend (counts [10; 20; 30]) Demo.loc = "".
Proof.
  split; [cbn; lia|].
  apply (proj2 (viewerTrend_classifies (counts [10; 20; 30]) Demo.loc)).
  cbn. lia.
Defined.

(** The trends of the specification's examples. *)
Example trend_growing : trend (counts [10; 10; 10; 10; 100; 100; 100; 100]) = Growing.
Proof. vm_compute. reflexivity. Qed.

Example trend_dropping : trend (counts [100; 100; 50; 50]) = Dropping.
Proof. vm_compute. reflexivity. Qed.

Example trend_steady : trend (counts [10; 10; 11; 9]) = Steady.
Proof. vm_compute. reflexivity. Qed.

(** An early half with mean 0: the relative change is +Inf or NaN. *)
Example trend_from_zero : trend (counts [0; 0; 5; 5]) = Growing.
Proof. vm_compute. reflexivity. Qed.

Example trend_all_zero : trend (counts [0; 0; 0; 0]) = Steady.
Proof. vm_compute. reflexivity. Qed.

Example calculateAverage_examples :
  calculateAverage [] = 0
  /\ calculateAverage (counts [5]) = 5
  /\ calculateAverage (counts [10; 20; 30]) = 20.
Proof. repeat split. Qed.

Example getMaxViewers_example : getMaxViewers (counts [3; 9; 1; 9; 2]) = 9.
Proof. reflexivity. Qed.

(** C10: the update message is a head, which depends on the snapshot's
    channel, game and title only, followed by the stats line: the uptime,
    if any, and, only when the viewer count is positive, the viewer
    fragment. With a viewer count of 0 the line is the uptime alone,
    whatever the average and the history are. The fragment holds the
    average only when the average is positive and differs from the count. *)
Theorem update_message_viewer_fragment info loc :
  exists head,
    forall avgViewers history,
      let uptime := if nonempty (info_Uptime info) then [info_Uptime info] else [] in
      let average :=
        if (0 <? avgViewers) && negb (avgViewers =? info_Viewers info)
        then ", " ++ formatViewers avgViewers ++ " " ++ loc_Avg loc
        else "" in
      let trend :=
        if nonempty (viewerTrend history loc)
        then " · " ++ viewerTrend history loc
        else "" in
      let fragment :=
        formatViewers (info_Viewers info) ++ " " ++ loc_Viewers loc ++ average ++ trend in
      formatUpdateMessage info avgViewers history loc
      = head ++ join " · "
                  (uptime ++ (if 0 <? info_Viewers info then [fragment] else []))%list
      /\ (info_Viewers info = 0 ->
          formatUpdateMessage info avgViewers history loc = head ++ join " · " uptime).
Proof.
  exists (let line := "<b>" ++ escapeHTML (info_Channel info) ++ "</b> • " ++ loc_IsLive loc in
          let line := if nonempty (info_Game info)
                      then line ++ " • " ++ escapeHTML (info_Game info) else line in
          let b := line ++ "

" in
          if nonempty (info_Title info)
          then b ++ "<i>" ++ escapeHTML (info_Title info) ++ "</i>

"
          else b).
  intros avgViewers history uptime average trend fragment.
  assert (F : viewersStat info avgViewers history loc = fragment).
  { unfold viewersStat, fragment, average, trend.
    destruct ((0 <? avgViewers) && negb (avgViewers =? info_Viewers info));
      destruct (nonempty (viewerTrend history loc));
      repeat rewrite append_assoc; cbn [append]; repeat rewrite append_empty_r;
      reflexivity. }
  split.
  - unfold formatUpdateMessage. cbv zeta. rewrite F. unfold uptime, push.
    destruct (nonempty (info_Uptime info)); destruct (0 <? info_Viewers info);
      cbn [app]; reflexivity.
  - intros H0. unfold formatUpdateMessage. cbv zeta. rewrite H0.
    change (0 <? 0) with false. cbv iota. unfold uptime, push.
    destruct (nonempty (info_Uptime info)); reflexivity.
Qed.

(** The snapshot of the example with no viewer: the stats line is the
    uptime alone. *)
Lemma update_message_viewer_fragment_witness :
  let info := {| info_Channel := "chan"; info_URL := "https://twitch.tv/chan";
                 info_Title := "Speedrun"; info_Game := "Chess"; info_Viewers := 0;
                 info_Uptime := "1 h 2 m"; info_Tags := [] |} in
  info_Viewers info = 0
  /\ exists head, forall avgViewers history,
       formatUpdateMessage info avgViewers history Demo.loc = head ++ "1 h 2 m".
Proof.
  split; [reflexivity|].
  destruct (update_message_viewer_fragment
              {| info_Channel := "chan"; info_URL := "https://twitch.tv/chan";
                 info_Title := "Speedrun"; info_Game := "Chess"; info_Viewers := 0;
                 info_Uptime := "1 h 2 m"; info_Tags := [] |} Demo.loc) as [head H].
  exists head. intros avgViewers history.
  apply (proj2 (H avgViewers history)). reflexivity.
Defined.

(** C8 (counterexample): three polls at 33, 33 and 34 viewers, then three at
    31: the early mean is 100/3, the late mean 31, and the relative change is
    exactly -7/100, which is not below -7/100: Steady in exact arithmetic.
    The program computes the means and the change in float64
    (-0.07000000000000006) and shows Dropping. *)
Lemma exact_boundary_shown_dropping :
  let h := counts [33; 33; 34; 31; 31; 31] in
  Qeq (exactRelativeChange (firstn 3 h) (skipn 3 h)) (- 7 # 100)
  /\ exactTrend h = Steady
  /\ trendLabel Demo.loc (exactTrend h) = "steady"
  /\ viewerTrend h Demo.loc = "dropping".
Proof. repeat split. Qed.


(** ** float64 arithmetic on the viewer counts *)

Lemma digits2_pos_size p : digits2_pos p = Pos.size p.
Proof. induction p as [p IH|p IH|]; cbn; [rewrite IH | rewrite IH |]; reflexivity. Qed.

Lemma Zdigits2_log2 m : 0 < m -> Zdigits2 m = Z.log2 m + 1.
Proof.
  intros Hm. destruct m as [|p|p]; try lia.
  cbn [Zdigits2]. rewrite digits2_pos_size.
  destruct p as [p|p|]; cbn [Pos.size Z.log2]; try reflexivity; lia.
Qed.

Lemma Zdigits2_bounds m : 0 < m -> 2 ^ (Zdigits2 m - 1) <= m < 2 ^ Zdigits2 m.
Proof.
  intros Hm. rewrite Zdigits2_log2 by exact Hm.
  replace (Z.log2 m + 1 - 1) with (Z.log2 m) by lia.
  replace (Z.log2 m + 1) with (Z.succ (Z.log2 m)) by lia.
  apply Z.log2_spec. exact Hm.
Qed.

Lemma Zdigits2_unique m d : 2 ^ (d - 1) <= m < 2 ^ d -> 0 < d -> Zdigits2 m = d.
Proof.
  intros H Hd.
  assert (Hm : 0 < m).
  { assert (0 < 2 ^ (d - 1)) by (apply Z.pow_pos_nonneg; lia). lia. }
  rewrite Zdigits2_log2 by exact Hm.
  rewrite (Z.log2_unique m (d - 1)); [lia | lia |].
  replace (Z.succ (d - 1)) with d by lia. exact H.
Qed.

Lemma shr_1_m mrs : 0 <= shr_m mrs -> shr_m (shr_1 mrs) = shr_m mrs / 2.
Proof.
  destruct mrs as [m r s]. cbn [shr_m]. intros Hm.
  destruct m as [|[p|p|]|p]; cbn [shr_1 shr_m]; try lia; try reflexivity.
  - rewrite Pos2Z.inj_xI. apply Z.div_unique with (r := 1); lia.
  - rewrite Pos2Z.inj_xO. apply Z.div_unique with (r := 0); lia.
Qed.

Lemma pow2_xO p : 2 ^ Z.pos p~0 = 2 ^ Z.pos p * 2 ^ Z.pos p.
Proof. rewrite Pos2Z.inj_xO, <- Z.pow_add_r by lia. f_equal. lia. Qed.

Lemma pow2_xI p : 2 ^ Z.pos p~1 = 2 * (2 ^ Z.pos p * 2 ^ Z.pos p).
Proof.
  rewrite Pos2Z.inj_xI, <- Z.pow_add_r by lia.
  replace (2 * Z.pos p + 1) with (Z.succ (Z.pos p + Z.pos p)) by lia.
  rewrite Z.pow_succ_r by lia. reflexivity.
Qed.

Lemma iter_pos_shr_m p : forall mrs,
  0 <= shr_m mrs ->
  shr_m (SpecFloat.iter_pos shr_1 p mrs) = shr_m mrs / 2 ^ Zpos p.
Proof.
  induction p as [p IH|p IH|]; intros mrs Hm; cbn [SpecFloat.iter_pos];
    try assert (P : 0 < 2 ^ Z.pos p) by (apply Z.pow_pos_nonneg; lia).
  - assert (H1 : 0 <= shr_m (shr_1 mrs)).
    { rewrite shr_1_m by exact Hm. apply Z.div_pos; lia. }
    assert (H2 : 0 <= shr_m (SpecFloat.iter_pos shr_1 p (shr_1 mrs))).
    { rewrite IH by exact H1. apply Z.div_pos; [exact H1 | exact P]. }
    rewrite IH by exact H2. rewrite IH by exact H1. rewrite shr_1_m by exact Hm.
    rewrite pow2_xI. rewrite !Z.div_div by lia. reflexivity.
  - assert (H2 : 0 <= shr_m (SpecFloat.iter_pos shr_1 p mrs)).
    { rewrite IH by exact Hm. apply Z.div_pos; [exact Hm | exact P]. }
    rewrite IH by exact H2. rewrite IH by exact Hm.
    rewrite pow2_xO. rewrite !Z.div_div by lia. reflexivity.
  - rewrite shr_1_m by exact Hm. reflexivity.
Qed.

Lemma shr_record_of_loc_m m l : shr_m (shr_record_of_loc m l) = m.
Proof. destruct l as [|[| |]]; reflexivity. Qed.

(** The first component of [shr_fexp] in the normal range: a right shift by
    the excess of digits over 53. *)
Lemma shr_fexp_spec m e l :
  0 < m ->
  -1074 <= Zdigits2 m + e - 53 ->
  shr_m (fst (shr_fexp F64.prec F64.emax m e l)) = m / 2 ^ Z.max 0 (Zdigits2 m - 53)
  /\ snd (shr_fexp F64.prec F64.emax m e l) = e + Z.max 0 (Zdigits2 m - 53).
Proof.
  intros Hm Hr. unfold shr_fexp, fexp, emin, F64.prec, F64.emax.
  replace (Z.max (Zdigits2 m + e - 53) (3 - 1024 - 53)) with (Zdigits2 m + e - 53) by lia.
  replace (Zdigits2 m + e - 53 - e) with (Zdigits2 m - 53) by lia.
  unfold shr. destruct (Zdigits2 m - 53) as [|p|p] eqn:E; cbn [fst snd].
  - rewrite shr_record_of_loc_m. cbn. rewrite Z.div_1_r. split; [reflexivity | lia].
  - rewrite iter_pos_shr_m by (rewrite shr_record_of_loc_m; lia).
    rewrite shr_record_of_loc_m. rewrite Z.max_r by lia. split; reflexivity.
  - rewrite shr_record_of_loc_m. rewrite Z.max_l by lia.
    cbn. rewrite Z.div_1_r. split; [reflexivity | lia].
Qed.

Lemma round_nearest_even_range m l :
  round_nearest_even m l = m \/ round_nearest_even m l = m + 1.
Proof.
  destruct l as [|[| |]]; cbn; auto. destruct (Z.even m); auto.
Qed.

(** Rounding a mantissa of at least 53 digits, in the normal range: the
    result is a normal number whose mantissa is the truncated one or the
    next, renormalised when that is [2^53]. *)
Lemma binary_round_aux_spec sx mx ex lx :
  0 < mx ->
  53 <= Zdigits2 mx ->
  -1074 <= Zdigits2 mx + ex - 53 <= 970 ->
  exists m e,
    binary_round_aux F64.prec F64.emax sx mx ex lx = S754_finite sx m e
    /\ 2 ^ 52 <= Zpos m < 2 ^ 53
    /\ (((Zpos m = mx / 2 ^ (Zdigits2 mx - 53) \/ Zpos m = mx / 2 ^ (Zdigits2 mx - 53) + 1)
         /\ e = ex + (Zdigits2 mx - 53))
        \/ (mx / 2 ^ (Zdigits2 mx - 53) + 1 = 2 ^ 53 /\ Zpos m = 2 ^ 52
            /\ e = ex + (Zdigits2 mx - 53) + 1)).
Proof.
  intros Hm Hd Hr. unfold binary_round_aux.
  destruct (shr_fexp_spec mx ex lx Hm ltac:(lia)) as [A1 A2].
  destruct (shr_fexp F64.prec F64.emax mx ex lx) as [mrs' e']. cbn [fst snd] in A1, A2.
  rewrite Z.max_r in A1, A2 by lia.
  set (sh := Zdigits2 mx - 53) in *.
  set (mm := mx / 2 ^ sh) in *.
  assert (Hmm : 2 ^ 52 <= mm < 2 ^ 53).
  { pose proof (Zdigits2_bounds mx Hm) as B.
    assert (P : 0 < 2 ^ sh) by (apply Z.pow_pos_nonneg; lia).
    assert (E1 : 2 ^ (Zdigits2 mx - 1) = 2 ^ 52 * 2 ^ sh)
      by (rewrite <- Z.pow_add_r by lia; f_equal; lia).
    assert (E2 : 2 ^ Zdigits2 mx = 2 ^ 53 * 2 ^ sh)
      by (rewrite <- Z.pow_add_r by lia; f_equal; lia).
    rewrite E1, E2 in B. unfold mm. split.
    - apply Z.div_le_lower_bound; lia.
    - apply Z.div_lt_upper_bound; lia. }
  rewrite A1.
  set (mr := round_nearest_even mm (loc_of_shr_record mrs')).
  assert (Hmr : mr = mm \/ mr = mm + 1) by apply round_nearest_even_range.
  assert (Hmr0 : 0 < mr) by lia.
  destruct (Z.eq_dec mr (2 ^ 53)) as [Hc|Hc].
  - assert (Dr : Zdigits2 mr = 54) by (apply Zdigits2_unique; lia).
    destruct (shr_fexp_spec mr e' loc_Exact Hmr0 ltac:(lia)) as [B1 B2].
    destruct (shr_fexp F64.prec F64.emax mr e' loc_Exact) as [mrs'' e'']. cbn [fst snd] in B1, B2.
    rewrite Dr in B1, B2. rewrite Hc in B1. change (2 ^ 53 / 2 ^ Z.max 0 (54 - 53)) with (2 ^ 52) in B1.
    change (Z.max 0 (54 - 53)) with 1 in B2.
    rewrite B1. change (2 ^ 52) with (Zpos (2 ^ 52)).
    replace (e'' <=? F64.emax - F64.prec) with true by (symmetry; apply Z.leb_le; unfold F64.emax, F64.prec; lia).
    eexists. eexists. split; [reflexivity|]. split; [lia|]. right. lia.
  - assert (Dr : Zdigits2 mr = 53) by (apply Zdigits2_unique; lia).
    destruct (shr_fexp_spec mr e' loc_Exact Hmr0 ltac:(lia)) as [B1 B2].
    destruct (shr_fexp F64.prec F64.emax mr e' loc_Exact) as [mrs'' e'']. cbn [fst snd] in B1, B2.
    rewrite Dr in B1, B2. change (Z.max 0 (53 - 53)) with 0 in B1, B2.
    rewrite Z.pow_0_r, Z.div_1_r in B1. rewrite B1.
    destruct mr as [|p|p] eqn:Emr; try lia.
    replace (e'' <=? F64.emax - F64.prec) with true by (symmetry; apply Z.leb_le; unfold F64.emax, F64.prec; lia).
    eexists. eexists. split; [reflexivity|]. split; [lia|]. left. lia.
Qed.

(** With an exact location and exactly 53 digits nothing is rounded. *)
Lemma binary_round_aux_exact sx (m : positive) ex :
  Zdigits2 (Zpos m) = 53 ->
  -1074 <= ex <= 970 ->
  binary_round_aux F64.prec F64.emax sx (Zpos m) ex loc_Exact = S754_finite sx m ex.
Proof.
  intros Hd Hr. unfold binary_round_aux.
  destruct (shr_fexp_spec (Zpos m) ex loc_Exact ltac:(lia) ltac:(lia)) as [A1 A2].
  assert (A0 : fst (shr_fexp F64.prec F64.emax (Z.pos m) ex loc_Exact)
               = {| shr_m := Zpos m; shr_r := false; shr_s := false |}).
  { unfold shr_fexp, fexp, emin, F64.prec, F64.emax. rewrite Hd.
    replace (Z.max (53 + ex - 53) (3 - 1024 - 53) - ex) with 0 by lia. reflexivity. }
  destruct (shr_fexp F64.prec F64.emax (Zpos m) ex loc_Exact) as [mrs' e']. cbn [fst snd] in *.
  subst mrs'. cbn [shr_m loc_of_shr_record round_nearest_even].
  rewrite Hd in A2. change (Z.max 0 (53 - 53)) with 0 in A2.
  destruct (shr_fexp_spec (Zpos m) e' loc_Exact ltac:(lia) ltac:(lia)) as [B1 B2].
  destruct (shr_fexp F64.prec F64.emax (Zpos m) e' loc_Exact) as [mrs'' e'']. cbn [fst snd] in *.
  rewrite Hd in B1, B2. change (Z.max 0 (53 - 53)) with 0 in B1, B2.
  rewrite Z.pow_0_r, Z.div_1_r in B1. rewrite B1.
  replace (e'' <=? F64.emax - F64.prec) with true by (symmetry; apply Z.leb_le; unfold F64.emax, F64.prec; lia).
  f_equal. lia.
Qed.

Lemma iter_xO_pow (p : positive) (k : positive) :
  Zpos (Pos.iter xO p k) = Zpos p * 2 ^ Zpos k.
Proof.
  revert p. induction k as [k IH|k IH|]; intros p; cbn [Pos.iter].
  - rewrite Pos2Z.inj_xO, !IH, pow2_xI. lia.
  - rewrite !IH, pow2_xO. lia.
  - rewrite Pos2Z.inj_xO. lia.
Qed.

(** [float64(n)] for [0 < n < 2^63]: a normal number; exact below [2^53]. *)
Lemma of_int_spec n :
  0 < n < 2 ^ 63 ->
  exists m e,
    F64.of_int n = S754_finite false m e
    /\ 2 ^ 52 <= Zpos m < 2 ^ 53
    /\ ((n < 2 ^ 53 /\ -52 <= e <= 0 /\ Zpos m = n * 2 ^ (- e))
        \/ (2 ^ 53 <= n /\ 1 <= e <= 11)).
Proof.
  intros Hn. destruct n as [|p|p]; try lia.
  unfold F64.of_int, binary_normalize, binary_round.
  pose proof (Zdigits2_bounds (Zpos p) ltac:(lia)) as B.
  assert (Hd : 1 <= Zdigits2 (Zpos p) <= 63).
  { split.
    - rewrite Zdigits2_log2 by lia. pose proof (Z.log2_nonneg (Zpos p)). lia.
    - destruct (Z_le_gt_dec (Zdigits2 (Zpos p)) 63) as [H|H]; [exact H|].
      exfalso. assert (2 ^ 63 <= 2 ^ (Zdigits2 (Zpos p) - 1))
        by (apply Z.pow_le_mono_r; lia). lia. }
  change (Zpos (digits2_pos p)) with (Zdigits2 (Zpos p)).
  unfold shl_align, fexp, emin, F64.prec, F64.emax.
  replace (Z.max (Zdigits2 (Zpos p) + 0 - 53) (3 - 1024 - 53) - 0)
    with (Zdigits2 (Zpos p) - 53) by lia.
  replace (Z.max (Zdigits2 (Zpos p) + 0 - 53) (3 - 1024 - 53))
    with (Zdigits2 (Zpos p) - 53) by lia.
  destruct (Zdigits2 (Zpos p) - 53) as [|k|k] eqn:E.
  - (* exactly 53 digits *)
    fold F64.prec F64.emax. rewrite binary_round_aux_exact by lia.
    exists p, 0. split; [reflexivity|].
    replace (Zdigits2 (Zpos p) - 1) with 52 in B by lia.
    replace (Zdigits2 (Zpos p)) with 53 in B by lia.
    split; [exact B|]. left. cbn. lia.
  - (* more than 53 digits: rounded *)
    fold F64.prec F64.emax.
    destruct (binary_round_aux_spec false (Zpos p) 0 loc_Exact ltac:(lia) ltac:(lia) ltac:(lia))
      as (m & e & H1 & H2 & H3).
    exists m, e. split; [exact H1|]. split; [exact H2|]. right.
    assert (2 ^ 53 <= Zpos p).
    { assert (2 ^ 53 <= 2 ^ (Zdigits2 (Zpos p) - 1)) by (apply Z.pow_le_mono_r; lia). lia. }
    split; [assumption|].
    destruct H3 as [[_ H3]|[_ [_ H3]]]; rewrite H3; lia.
  - (* fewer than 53 digits: shifted left *)
    fold F64.prec F64.emax.
    assert (Hk : Zpos k = 53 - Zdigits2 (Zpos p)) by lia.
    assert (M : Zpos (Pos.iter xO p k) = Zpos p * 2 ^ Zpos k) by apply iter_xO_pow.
    assert (P : 0 < 2 ^ Zpos k) by (apply Z.pow_pos_nonneg; lia).
    assert (D53 : Zdigits2 (Zpos (Pos.iter xO p k)) = 53).
    { apply Zdigits2_unique; [|lia]. rewrite M.
      assert (E1 : 2 ^ (53 - 1) = 2 ^ (Zdigits2 (Zpos p) - 1) * 2 ^ Zpos k)
        by (rewrite <- Z.pow_add_r by lia; f_equal; lia).
      assert (E2 : 2 ^ 53 = 2 ^ Zdigits2 (Zpos p) * 2 ^ Zpos k)
        by (rewrite <- Z.pow_add_r by lia; f_equal; lia).
      rewrite E1, E2. split.
      - apply Z.mul_le_mono_nonneg_r; lia.
      - apply Z.mul_lt_mono_pos_r; lia. }
    rewrite binary_round_aux_exact by lia.
    eexists. eexists. split; [reflexivity|].
    pose proof (Zdigits2_bounds (Zpos (Pos.iter xO p k)) ltac:(lia)) as B'.
    rewrite D53 in B'. split; [exact B'|]. left.
    assert (Hp : Zpos p < 2 ^ 53).
    { eapply Z.lt_le_trans; [apply B|]. apply Z.pow_le_mono_r; lia. }
    split; [exact Hp|]. split; [lia|]. rewrite M. reflexivity.
Qed.

(** The quotient of two normal positive numbers whose exponents are not far
    apart: the 54- or 55-bit integer quotient of the mantissas, rounded. *)
Lemma div_spec (m1 m2 : positive) e1 e2 :
  2 ^ 52 <= Zpos m1 < 2 ^ 53 ->
  2 ^ 52 <= Zpos m2 < 2 ^ 53 ->
  -900 <= e1 - e2 <= 900 ->
  exists m e,
    F64.div (S754_finite false m1 e1) (S754_finite false m2 e2)
    = S754_finite false m e
    /\ 2 ^ 52 <= Zpos m < 2 ^ 53
    /\ 2 ^ 52 <= Zpos m1 * 2 ^ 53 / Zpos m2 < 2 ^ 54
    /\ (((Zpos m = (Zpos m1 * 2 ^ 53 / Zpos m2)
                   / 2 ^ (Zdigits2 (Zpos m1 * 2 ^ 53 / Zpos m2) - 53)
          \/ Zpos m = (Zpos m1 * 2 ^ 53 / Zpos m2)
                      / 2 ^ (Zdigits2 (Zpos m1 * 2 ^ 53 / Zpos m2) - 53) + 1)
         /\ e = e1 - e2 - 53 + (Zdigits2 (Zpos m1 * 2 ^ 53 / Zpos m2) - 53))
        \/ ((Zpos m1 * 2 ^ 53 / Zpos m2)
            / 2 ^ (Zdigits2 (Zpos m1 * 2 ^ 53 / Zpos m2) - 53) + 1 = 2 ^ 53
            /\ Zpos m = 2 ^ 52
            /\ e = e1 - e2 - 53 + (Zdigits2 (Zpos m1 * 2 ^ 53 / Zpos m2) - 53) + 1)).
Proof.
  intros H1 H2 He.
  set (q := Zpos m1 * 2 ^ 53 / Zpos m2).
  assert (Hq : 2 ^ 52 <= q < 2 ^ 54).
  { unfold q. split.
    - apply Z.div_le_lower_bound; [lia|]. nia.
    - apply Z.div_lt_upper_bound; [lia|]. nia. }
  assert (Dq : Zdigits2 q = 53 \/ Zdigits2 q = 54).
  { destruct (Z_lt_le_dec q (2 ^ 53)).
    - left. apply Zdigits2_unique; lia.
    - right. apply Zdigits2_unique; lia. }
  unfold F64.div, SFdiv, SFdiv_core_binary. cbn [xorb].
  rewrite (Zdigits2_unique (Zpos m1) 53) by lia.
  rewrite (Zdigits2_unique (Zpos m2) 53) by lia.
  unfold fexp, emin, F64.prec, F64.emax.
  replace (Z.min (Z.max (53 + e1 - (53 + e2) - 53) (3 - 1024 - 53)) (e1 - e2))
    with (e1 - e2 - 53) by lia.
  replace (e1 - e2 - (e1 - e2 - 53)) with 53 by lia.
  cbv iota. rewrite Z.shiftl_mul_pow2 by lia.
  assert (Eq : fst (Z.div_eucl (Zpos m1 * 2 ^ 53) (Zpos m2)) = q) by reflexivity.
  destruct (Z.div_eucl (Zpos m1 * 2 ^ 53) (Zpos m2)) as [q' r]. cbn [fst] in Eq. subst q'.
  fold F64.prec F64.emax.
  destruct (binary_round_aux_spec false q (e1 - e2 - 53) (new_location (Zpos m2) r)
              ltac:(lia) ltac:(lia) ltac:(lia)) as (m & e & A & B & C).
  exists m, e. split; [exact A|]. split; [exact B|]. split; [exact Hq|]. exact C.
Qed.

Lemma SFleb_normal (m1 m2 : positive) e1 e2 :
  SFleb (S754_finite false m1 e1) (S754_finite false m2 e2)
  = (e1 <? e2) || ((e1 =? e2) && (Zpos m1 <=? Zpos m2)).
Proof.
  unfold SFleb, SFcompare.
  destruct (Z.compare_spec e1 e2) as [E|E|E].
  - subst e2. rewrite Z.ltb_irrefl, Z.eqb_refl. cbn [orb andb].
    unfold Z.leb. change (Zpos m1 ?= Zpos m2) with (Pos.compare m1 m2).
    change (Pos.compare_cont Eq m1 m2) with (Pos.compare m1 m2).
    destruct (Pos.compare m1 m2); reflexivity.
  - replace (e1 <? e2) with true by (symmetry; apply Z.ltb_lt; lia). reflexivity.
  - replace (e1 <? e2) with false by (symmetry; apply Z.ltb_ge; lia).
    replace (e1 =? e2) with false by (symmetry; apply Z.eqb_neq; lia). reflexivity.
Qed.

Lemma of_int_10 : F64.of_int 10 = S754_finite false 5629499534213120 (-49).
Proof. reflexivity. Qed.

Lemma of_int_1000 : F64.of_int 1000 = S754_finite false 8796093022208000 (-43).
Proof. reflexivity. Qed.

Lemma of_int_1000000 : F64.of_int 1000000 = S754_finite false 8589934592000000 (-33).
Proof. reflexivity. Qed.

(** [10 <= x] for a normal [x = m * 2^e]. *)
Lemma leb_10_normal (m : positive) e :
  2 ^ 52 <= Zpos m < 2 ^ 53 -> e <= 0 ->
  (F64.leb (F64.of_int 10) (S754_finite false m e) = true <-> 10 * 2 ^ (- e) <= Zpos m).
Proof.
  intros Hm He. unfold F64.leb. rewrite of_int_10, SFleb_normal.
  destruct (Z.compare_spec (-49) e) as [E|E|E].
  - subst e. rewrite Z.ltb_irrefl, Z.eqb_refl. cbn [orb andb].
    rewrite Z.leb_le. change (10 * 2 ^ (- -49)) with 5629499534213120. reflexivity.
  - replace (-49 <? e) with true by (symmetry; apply Z.ltb_lt; lia). cbn [orb].
    assert (2 ^ (- e) <= 2 ^ 48) by (apply Z.pow_le_mono_r; lia).
    split; [intros _; lia | reflexivity].
  - replace (-49 <? e) with false by (symmetry; apply Z.ltb_ge; lia).
    replace (-49 =? e) with false by (symmetry; apply Z.eqb_neq; lia). cbn [orb andb].
    assert (2 ^ 50 <= 2 ^ (- e)) by (apply Z.pow_le_mono_r; lia).
    split; [discriminate | intros; lia].
Qed.

(** [float64(n) / 1000000 >= 10] exactly when [n >= 10000000]. *)
Lemma millions_threshold n :
  1000000 <= n < 2 ^ 63 ->
  F64.leb (F64.of_int 10) (F64.div (F64.of_int n) (F64.of_int 1000000)) = (10000000 <=? n).
Proof.
  intros Hn.
  destruct (of_int_spec n ltac:(lia)) as (m1 & e1 & E1 & M1 & C1).
  rewrite E1, of_int_1000000.
  destruct (div_spec m1 8589934592000000 e1 (-33) M1 ltac:(lia) ltac:(lia))
    as (m & e & D & Mm & Q & C).
  rewrite D. clear D E1.
  set (q := Zpos m1 * 2 ^ 53 / 8589934592000000) in *.
  set (sh := Zdigits2 q - 53) in *.
  assert (Hsh : sh = 0 \/ sh = 1).
  { unfold sh. destruct (Z_lt_le_dec q (2 ^ 53)).
    - left. rewrite (Zdigits2_unique q 53); lia.
    - right. rewrite (Zdigits2_unique q 54); lia. }
  destruct C1 as [(Hn53 & He1 & Hm1)|(Hn53 & He1)].
  2:{ (* the conversion rounded: n >= 2^53 *)
    unfold F64.leb. rewrite of_int_10, SFleb_normal.
    replace (-49 <? e) with true by (symmetry; apply Z.ltb_lt; lia).
    symmetry. apply Z.leb_le. lia. }
  (* the conversion is exact *)
  set (a := - e1) in *.
  assert (Ha : 0 <= a <= 52) by lia.
  set (P := 2 ^ (a + 20)).
  assert (HP : P = 2 ^ a * 2 ^ 20) by (unfold P; apply Z.pow_add_r; lia).
  assert (Pa : 0 < 2 ^ a) by (apply Z.pow_pos_nonneg; lia).
  assert (Eq : q = n * P / 1000000).
  { unfold q. rewrite Hm1, HP.
    replace (n * 2 ^ a * 2 ^ 53) with (n * (2 ^ a * 2 ^ 20) * 2 ^ 33) by lia.
    change 8589934592000000 with (1000000 * 2 ^ 33).
    apply Z.div_mul_cancel_r; lia. }
  assert (Bq : 1000000 * q <= n * P < 1000000 * q + 1000000).
  { rewrite Eq. pose proof (Z.mul_div_le (n * P) 1000000 ltac:(lia)).
    pose proof (Z.mul_succ_div_gt (n * P) 1000000 ltac:(lia)). lia. }
  set (mm := q / 2 ^ sh) in *.
  assert (Psh : 2 ^ sh = 1 \/ 2 ^ sh = 2) by (destruct Hsh as [-> | ->]; auto).
  assert (Bm : 2 ^ sh * mm <= q < 2 ^ sh * mm + 2 ^ sh).
  { unfold mm. pose proof (Z.mul_div_le q (2 ^ sh) ltac:(lia)).
    pose proof (Z.mul_succ_div_gt q (2 ^ sh) ltac:(lia)). lia. }
  (* the value of the result, scaled: m * 2^c is mm * 2^sh or that plus 2^sh *)
  assert (V : exists c R,
             0 < R /\ R = 2 ^ (- e) /\ (c = 1 \/ c = 2 \/ c = 4) /\ P = R * c
             /\ e <= 0
             /\ (Zpos m * c = mm * 2 ^ sh \/ Zpos m * c = mm * 2 ^ sh + 2 ^ sh)).
  { assert (R0 : 0 < 2 ^ (- e)) by (apply Z.pow_pos_nonneg; lia).
    destruct C as [[Cm Ce]|[Cm [Cm' Ce]]].
    - exists (2 ^ sh), (2 ^ (- e)).
      split; [exact R0|]. split; [reflexivity|]. split; [lia|].
      split; [unfold P; rewrite <- Z.pow_add_r by lia; f_equal; lia|].
      split; [lia|]. destruct Cm as [-> | ->]; [left | right]; lia.
    - exists (2 * 2 ^ sh), (2 ^ (- e)).
      split; [exact R0|]. split; [reflexivity|]. split; [lia|].
      split.
      + unfold P. replace (2 * 2 ^ sh) with (2 ^ (1 + sh))
          by (rewrite Z.pow_add_r by lia; reflexivity).
        rewrite <- Z.pow_add_r by lia. f_equal. lia.
      + split; [lia|]. right. rewrite Cm'. lia. }
  destruct V as (c & R & R0 & ER & Hc & EP & He0 & W).
  pose proof (leb_10_normal m e Mm He0) as L. rewrite <- ER in L.
  destruct (Z.leb_spec 10000000 n) as [Hbig|Hsmall].
  - (* n >= 10^7: the quotient is at least 10 *)
    apply L.
    assert (P0 : 0 < P) by (rewrite HP; lia).
    assert (NP : 10000000 * P <= n * P) by (apply Z.mul_le_mono_nonneg_r; lia).
    assert (Q10 : 10 * P <= q) by lia.
    assert (M10 : 10 * P <= mm * 2 ^ sh).
    { destruct Hsh as [Hs|Hs]; rewrite Hs in *.
      - change (2 ^ 0) with 1 in *. lia.
      - change (2 ^ 1) with 2 in *.
        assert (P = 2 * 2 ^ (a + 19)).
        { unfold P. replace (a + 20) with (1 + (a + 19)) by lia.
          rewrite Z.pow_add_r by lia. reflexivity. }
        lia. }
    nia.
  - (* n < 10^7: the quotient is below 10 *)
    destruct (F64.leb (F64.of_int 10) (S754_finite false m e)) eqn:B; [|reflexivity].
    exfalso. clear B. pose proof (proj1 L eq_refl) as B.
    assert (A29 : 2 ^ 29 <= 2 ^ a).
    { destruct (Z_lt_le_dec a 29) as [Hlt|Hge].
      - exfalso. assert (2 ^ a <= 2 ^ 28) by (apply Z.pow_le_mono_r; lia). nia.
      - apply Z.pow_le_mono_r; lia. }
    assert (P49 : 2 ^ 49 <= P) by (rewrite HP; lia).
    assert (NP : n * P <= 9999999 * P) by (apply Z.mul_le_mono_nonneg_r; lia).
    assert (W' : 10 * P <= q + 2) by nia.
    lia.
Qed.

(** The quotient [float64(n) / float64(d)] for an [n] below [2^53] and a
    divisor [d] whose double is [d * 2^g * 2^(-g)]: a normal positive number
    [m * 2^e], [e <= 0], within less than 3 units of [2^e] of [n / d]. *)
Lemma quotient_spec n d g (m2 : positive) :
  0 < n < 2 ^ 53 ->
  0 < d ->
  0 <= g <= 50 ->
  Zpos m2 = d * 2 ^ g ->
  2 ^ 52 <= Zpos m2 < 2 ^ 53 ->
  exists m e,
    F64.div (F64.of_int n) (S754_finite false m2 (- g)) = S754_finite false m e
    /\ 2 ^ 52 <= Zpos m < 2 ^ 53
    /\ e <= 0
    /\ Z.abs (d * Zpos m - n * 2 ^ (- e)) < 3 * d.
Proof.
  intros Hn Hd Hg Em2 M2.
  destruct (of_int_spec n ltac:(lia)) as (m1 & e1 & E1 & M1 & C1).
  destruct C1 as [(Hn53 & He1 & Hm1)|(Hn53 & He1)]; [|lia].
  rewrite E1.
  destruct (div_spec m1 m2 e1 (- g) M1 M2 ltac:(lia)) as (m & e & D & Mm & Q & C).
  exists m, e. split; [exact D|]. split; [exact Mm|]. clear D E1.
  set (q := Zpos m1 * 2 ^ 53 / Zpos m2) in *.
  set (sh := Zdigits2 q - 53) in *.
  assert (Hsh : sh = 0 \/ sh = 1).
  { unfold sh. destruct (Z_lt_le_dec q (2 ^ 53)).
    - left. rewrite (Zdigits2_unique q 53); lia.
    - right. rewrite (Zdigits2_unique q 54); lia. }
  set (a := - e1) in *.
  assert (Ha : 0 <= a <= 52) by lia.
  set (P := 2 ^ (a + (53 - g))).
  assert (P0 : 0 < P) by (apply Z.pow_pos_nonneg; lia).
  assert (G0 : 0 < 2 ^ g) by (apply Z.pow_pos_nonneg; lia).
  assert (Eq : q = n * P / d).
  { unfold q. rewrite Hm1, Em2.
    replace (n * 2 ^ a * 2 ^ 53) with (n * P * 2 ^ g).
    - apply Z.div_mul_cancel_r; lia.
    - unfold P. replace 53 with ((53 - g) + g) at 2 by lia.
      rewrite !Z.pow_add_r by lia. lia. }
  assert (Bq : d * q <= n * P < d * q + d).
  { rewrite Eq. pose proof (Z.mul_div_le (n * P) d ltac:(lia)).
    pose proof (Z.mul_succ_div_gt (n * P) d ltac:(lia)). lia. }
  set (mm := q / 2 ^ sh) in *.
  assert (Psh : 2 ^ sh = 1 \/ 2 ^ sh = 2) by (destruct Hsh as [-> | ->]; auto).
  assert (Bm : 2 ^ sh * mm <= q < 2 ^ sh * mm + 2 ^ sh).
  { unfold mm. pose proof (Z.mul_div_le q (2 ^ sh) ltac:(lia)).
    pose proof (Z.mul_succ_div_gt q (2 ^ sh) ltac:(lia)). lia. }
  assert (V : exists c,
             (c = 1 \/ c = 2 \/ c = 4) /\ P = 2 ^ (- e) * c /\ e <= 0
             /\ (Zpos m * c = mm * 2 ^ sh \/ Zpos m * c = mm * 2 ^ sh + 2 ^ sh)).
  { destruct C as [[Cm Ce]|[Cm [Cm' Ce]]].
    - exists (2 ^ sh). split; [lia|].
      split; [unfold P; rewrite <- Z.pow_add_r by lia; f_equal; lia|].
      split; [lia|]. destruct Cm as [-> | ->]; [left | right]; lia.
    - exists (2 * 2 ^ sh). split; [lia|]. split.
      + unfold P. replace (2 * 2 ^ sh) with (2 ^ (1 + sh))
          by (rewrite Z.pow_add_r by lia; reflexivity).
        rewrite <- Z.pow_add_r by lia. f_equal. lia.
      + split; [lia|]. right. rewrite Cm'. lia. }
  destruct V as (c & Hc & EP & He0 & W).
  split; [exact He0|].
  set (R := 2 ^ (- e)) in *.
  assert (R0 : 0 < R) by (apply Z.pow_pos_nonneg; lia).
  (* |d * m * c - n * P| < 3 * d, and P = R * c with c >= 1 *)
  assert (T1 : q - 2 < Zpos m * c <= q + 2) by (clear - W Bm Psh; lia).
  assert (T2 : d * (Zpos m * c) <= d * (q + 2)) by (apply Z.mul_le_mono_nonneg_l; lia).
  assert (T3 : d * (q - 2) < d * (Zpos m * c)) by (apply Z.mul_lt_mono_pos_l; lia).
  assert (X : Z.abs (d * (Zpos m * c) - n * P) < 3 * d) by lia.
  rewrite EP in X.
  replace (d * (Zpos m * c) - n * (R * c)) with ((d * Zpos m - n * R) * c) in X by lia.
  rewrite Z.abs_mul in X. rewrite (Z.abs_eq c) in X by lia.
  pose proof (Z.abs_nonneg (d * Zpos m - n * R)). nia.
Qed.


(** ** The viewer-count formatter *)

(** Rounding to the nearest integer: within half a unit. *)
Lemma div_round_even_spec num den :
  0 < den ->
  2 * Z.abs (den * F64.div_round_even num den - num) <= den.
Proof.
  intros Hd. unfold F64.div_round_even.
  pose proof (Z.div_mod num den ltac:(lia)) as E.
  pose proof (Z.mod_pos_bound num den Hd) as B.
  set (q := num / den) in *. set (r := num mod den) in *.
  destruct (Z.compare_spec (2 * r) den) as [H|H|H]; [destruct (Z.even q)| |]; lia.
Qed.

(** The number that [%.<digits>f] prints for [m * 2^e], [e <= 0]: within
    half a unit of its last digit. *)
Lemma scaled_spec digits (m : positive) e :
  e <= 0 ->
  2 * Z.abs (2 ^ (- e) * F64.scaled digits m e - Zpos m * 10 ^ Z.of_nat digits)
  <= 2 ^ (- e).
Proof.
  intros He. unfold F64.scaled.
  destruct (Z.leb_spec 0 e) as [H|H].
  - assert (e = 0) by lia. subst e. cbn [Z.opp]. rewrite !Z.pow_0_r.
    replace (1 * (Zpos m * 1 * 10 ^ Z.of_nat digits) - Zpos m * 10 ^ Z.of_nat digits)
      with 0 by lia.
    cbn. lia.
  - apply div_round_even_spec. apply Z.pow_pos_nonneg; lia.
Qed.

Lemma itoa_digit_length f : 0 <= f <= 9 -> String.length (itoa f) = 1%nat.
Proof.
  intros H.
  assert (C : f = 0 \/ f = 1 \/ f = 2 \/ f = 3 \/ f = 4 \/ f = 5 \/ f = 6 \/ f = 7
              \/ f = 8 \/ f = 9) by lia.
  repeat (destruct C as [C|C]; [subst f; reflexivity|]). subst f. reflexivity.
Qed.

(** The text of [%.0f] and of [%.1f] for a positive finite number. *)
Lemma sprintf_f_0 (m : positive) e :
  F64.sprintf_f 0 (S754_finite false m e) = itoa (F64.scaled 0 m e).
Proof.
  unfold F64.sprintf_f, F64.sign, F64.fraction. cbn [Z.of_nat].
  rewrite Z.pow_0_r, Z.div_1_r. cbn [append]. apply append_empty_r.
Qed.

Lemma sprintf_f_1 (m : positive) e :
  F64.sprintf_f 1 (S754_finite false m e)
  = itoa (F64.scaled 1 m e / 10) ++ "." ++ itoa (F64.scaled 1 m e mod 10).
Proof.
  unfold F64.sprintf_f, F64.sign, F64.fraction, F64.decimals.
  change (10 ^ Z.of_nat 1) with 10. cbn [append].
  rewrite itoa_digit_length
    by (pose proof (Z.mod_pos_bound (F64.scaled 1 m e) 10 ltac:(lia)); lia).
  reflexivity.
Qed.

(** The number shown for [n / d]: [t / 10^digits], with [t] within half a
    unit of [n * 10^digits / d], as long as [2^-e] exceeds the error of the
    division. *)
Lemma shown_spec n d g (m2 : positive) digits :
  0 < n < 2 ^ 53 ->
  0 < d ->
  0 <= g <= 50 ->
  Zpos m2 = d * 2 ^ g ->
  2 ^ 52 <= Zpos m2 < 2 ^ 53 ->
  n * 10 ^ Z.of_nat digits < 2 ^ 49 ->
  exists m e,
    F64.div (F64.of_int n) (S754_finite false m2 (- g)) = S754_finite false m e
    /\ 2 * Z.abs (d * F64.scaled digits m e - n * 10 ^ Z.of_nat digits) <= d.
Proof.
  intros Hn Hd Hg Em2 M2 Hsmall.
  destruct (quotient_spec n d g m2 Hn Hd Hg Em2 M2) as (m & e & D & Mm & He & A).
  exists m, e. split; [exact D|].
  pose proof (scaled_spec digits m e He) as S.
  set (R := 2 ^ (- e)) in *. set (t := F64.scaled digits m e) in *.
  set (p := 10 ^ Z.of_nat digits) in *.
  assert (R0 : 0 < R) by (apply Z.pow_pos_nonneg; lia).
  assert (p0 : 0 < p) by (apply Z.pow_pos_nonneg; lia).
  (* R * |d t - n p| <= d |R t - m p| + p |d m - n R| < d R / 2 + 3 d p *)
  assert (X : 2 * (R * Z.abs (d * t - n * p)) < d * R + 6 * d * p).
  { replace (R * Z.abs (d * t - n * p)) with (Z.abs (R * (d * t - n * p)))
      by (rewrite Z.abs_mul, (Z.abs_eq R) by lia; reflexivity).
    replace (R * (d * t - n * p))
      with (d * (R * t - Zpos m * p) + p * (d * Zpos m - n * R)) by lia.
    pose proof (Z.abs_triangle (d * (R * t - Zpos m * p)) (p * (d * Zpos m - n * R))) as T.
    rewrite !Z.abs_mul in T. rewrite (Z.abs_eq d), (Z.abs_eq p) in T by lia.
    assert (T1 : 2 * (d * Z.abs (R * t - Zpos m * p)) <= d * R) by nia.
    assert (T2 : p * Z.abs (d * Zpos m - n * R) < p * (3 * d))
      by (apply Z.mul_lt_mono_pos_l; lia).
    lia. }
  (* 6 d p <= R, because the mantissa has 53 bits *)
  assert (Y : 6 * d * p <= R).
  { assert (Y1 : d * 2 ^ 52 < n * R + 3 * d).
    { assert (d * 2 ^ 52 <= d * Zpos m) by (apply Z.mul_le_mono_nonneg_l; lia). lia. }
    destruct (Z_le_gt_dec (6 * d * p) R) as [Hle|Hgt]; [exact Hle|]. exfalso.
    assert (n * R <= n * (6 * d * p)) by (apply Z.mul_le_mono_nonneg_l; lia).
    assert (n * (6 * d * p) = d * (6 * (n * p))) by lia.
    assert (d * (6 * (n * p)) <= d * (6 * 2 ^ 49))
      by (apply Z.mul_le_mono_nonneg_l; lia).
    lia. }
  (* an integer below 1/2 + 1 is at most 1/2 *)
  destruct (Z_le_gt_dec (2 * Z.abs (d * t - n * p)) d) as [Hok|Hbad]; [exact Hok|].
  exfalso.
  assert (R * (d + 1) <= R * (2 * Z.abs (d * t - n * p)))
    by (apply Z.mul_le_mono_nonneg_l; lia).
  lia.
Qed.

Lemma quotient_finite n g (m2 : positive) :
  0 < n < 2 ^ 63 ->
  0 <= g <= 50 ->
  2 ^ 52 <= Zpos m2 < 2 ^ 53 ->
  exists m e,
    F64.div (F64.of_int n) (S754_finite false m2 (- g)) = S754_finite false m e.
Proof.
  intros Hn Hg M2.
  destruct (of_int_spec n Hn) as (m1 & e1 & E1 & M1 & C1). rewrite E1.
  destruct (div_spec m1 m2 e1 (- g) M1 M2 ltac:(lia)) as (m & e & D & _).
  exists m, e. exact D.
Qed.

Lemma formatViewers_thousands n :
  1000 <= n < 1000000 ->
  formatViewers n
  = F64.sprintf_f (if 10000 <=? n then 0 else 1)
      (F64.div (F64.of_int n) (F64.of_int 1000)) ++ "K".
Proof.
  intros H. unfold formatViewers.
  replace (1000000 <=? n) with false by (symmetry; apply Z.leb_gt; lia).
  replace (1000 <=? n) with true by (symmetry; apply Z.leb_le; lia).
  destruct (10000 <=? n); reflexivity.
Qed.

Lemma formatViewers_millions n :
  1000000 <= n < 2 ^ 63 ->
  formatViewers n
  = F64.sprintf_f (if 10000000 <=? n then 0 else 1)
      (F64.div (F64.of_int n) (F64.of_int 1000000)) ++ "M".
Proof.
  intros H. unfold formatViewers.
  replace (1000000 <=? n) with true by (symmetry; apply Z.leb_le; lia).
  rewrite (millions_threshold n H).
  destruct (10000000 <=? n); reflexivity.
Qed.

(** C9: for every non-negative [int] [n], the composer renders [n] below
    1000 as the plain integer; from 1000 with one decimal and the suffix K,
    from 10000 as a whole number of thousands and K, from 1000000 with one
    decimal and M, and from 10000000 (where the value in millions,
    as a float64, is at least 10) as a whole number of millions and M. The
    number shown is the count rounded to the nearest unit of its last
    digit (for the whole millions, up to 10^14 viewers). In particular
    950, 1500, 25000, 2500000 and 12000000 read "950", "1.5K", "25K", "2.5M"
    and "12M". *)
Theorem formatViewers_renders :
  (forall n,
      0 <= n <= int_max ->
      (n < 1000 -> formatViewers n = itoa n)
      /\ (1000 <= n < 10000 ->
          exists t, Z.abs (100 * t - n) <= 50
                    /\ formatViewers n = itoa (t / 10) ++ "." ++ itoa (t mod 10) ++ "K")
      /\ (10000 <= n < 1000000 ->
          exists k, Z.abs (1000 * k - n) <= 500 /\ formatViewers n = itoa k ++ "K")
      /\ (1000000 <= n < 10000000 ->
          exists t, Z.abs (100000 * t - n) <= 50000
                    /\ formatViewers n = itoa (t / 10) ++ "." ++ itoa (t mod 10) ++ "M")
      /\ (10000000 <= n ->
          exists k, (n <= 10 ^ 14 -> Z.abs (1000000 * k - n) <= 500000)
                    /\ formatViewers n = itoa k ++ "M"))
  /\ formatViewers 950 = "950"
  /\ formatViewers 1500 = "1.5K"
  /\ formatViewers 25000 = "25K"
  /\ formatViewers 2500000 = "2.5M"
  /\ formatViewers 12000000 = "12M".
Proof.
  split; [|repeat split; vm_compute; reflexivity].
  intros n Hn. unfold int_max in Hn.
  split; [|split; [|split; [|split]]].
  - intros H. unfold formatViewers.
    replace (1000000 <=? n) with false by (symmetry; apply Z.leb_gt; lia).
    replace (10000 <=? n) with false by (symmetry; apply Z.leb_gt; lia).
    replace (1000 <=? n) with false by (symmetry; apply Z.leb_gt; lia).
    reflexivity.
  - intros H. rewrite formatViewers_thousands by lia.
    replace (10000 <=? n) with false by (symmetry; apply Z.leb_gt; lia).
    rewrite of_int_1000.
    destruct (shown_spec n 1000 43 8796093022208000 1 ltac:(lia) ltac:(lia) ltac:(lia)
                eq_refl ltac:(lia) ltac:(change (10 ^ Z.of_nat 1) with 10; lia))
      as (m & e & D & A).
    change (Z.opp 43) with (Z.neg 43) in D. rewrite D, sprintf_f_1.
    exists (F64.scaled 1 m e). change (10 ^ Z.of_nat 1) with 10 in A.
    split; [lia|]. rewrite !append_assoc. reflexivity.
  - intros H. rewrite formatViewers_thousands by lia.
    replace (10000 <=? n) with true by (symmetry; apply Z.leb_le; lia).
    rewrite of_int_1000.
    destruct (shown_spec n 1000 43 8796093022208000 0 ltac:(lia) ltac:(lia) ltac:(lia)
                eq_refl ltac:(lia) ltac:(change (10 ^ Z.of_nat 0) with 1; lia))
      as (m & e & D & A).
    change (Z.opp 43) with (Z.neg 43) in D. rewrite D, sprintf_f_0.
    exists (F64.scaled 0 m e). change (10 ^ Z.of_nat 0) with 1 in A.
    split; [lia | reflexivity].
  - intros H. rewrite formatViewers_millions by lia.
    replace (10000000 <=? n) with false by (symmetry; apply Z.leb_gt; lia).
    rewrite of_int_1000000.
    destruct (shown_spec n 1000000 33 8589934592000000 1 ltac:(lia) ltac:(lia) ltac:(lia)
                eq_refl ltac:(lia) ltac:(change (10 ^ Z.of_nat 1) with 10; lia))
      as (m & e & D & A).
    change (Z.opp 33) with (Z.neg 33) in D. rewrite D, sprintf_f_1.
    exists (F64.scaled 1 m e). change (10 ^ Z.of_nat 1) with 10 in A.
    split; [lia|]. rewrite !append_assoc. reflexivity.
  - intros H. rewrite formatViewers_millions by lia.
    replace (10000000 <=? n) with true by (symmetry; apply Z.leb_le; lia).
    rewrite of_int_1000000.
    destruct (quotient_finite n 33 8589934592000000 ltac:(lia) ltac:(lia) ltac:(lia))
      as (m & e & D).
    change (Z.opp 33) with (Z.neg 33) in D. rewrite D, sprintf_f_0.
    exists (F64.scaled 0 m e). split; [|reflexivity].
    intros Hsmall.
    destruct (shown_spec n 1000000 33 8589934592000000 0 ltac:(lia) ltac:(lia) ltac:(lia)
                eq_refl ltac:(lia) ltac:(change (10 ^ Z.of_nat 0) with 1; lia))
      as (m' & e' & D' & A).
    change (Z.opp 33) with (Z.neg 33) in D'. rewrite D in D'. inversion D'; subst m' e'.
    change (10 ^ Z.of_nat 0) with 1 in A. lia.
Qed.

(** 9999 viewers: one decimal and K, and the number shown, 10.0, is the
    count to the nearest hundred. *)
Lemma formatViewers_renders_witness :
  (0 <= 9999 <= int_max /\ 1000 <= 9999 < 10000)
  /\ exists t, Z.abs (100 * t - 9999) <= 50
               /\ formatViewers 9999 = itoa (t / 10) ++ "." ++ itoa (t mod 10) ++ "K".
Proof.
  split; [unfold int_max; lia|].
  apply (proj1 (proj2 (proj1 formatViewers_renders 9999 ltac:(unfold int_max; lia)))).
  lia.
Defined.

Example formatViewers_rounds_up : formatViewers 9999 = "10.0K".
Proof. vm_compute. reflexivity. Qed.

Example formatViewers_ties :
  formatViewers 1250 = "1.2K" /\ formatViewers 1350 = "1.4K" /\ formatViewers 1450 = "1.4K".
Proof. repeat split; vm_compute; reflexivity. Qed.


(* ===================================================================== *)
(** * Further properties of the code *)
(* ===================================================================== *)

(** ** [escapeHTML] *)

Lemma replaceAll1_app old new a b :
  replaceAll1 old new (a ++ b) = replaceAll1 old new a ++ replaceAll1 old new b.
Proof.
  induction a as [|c a IH]; [reflexivity|].
  cbn [append replaceAll1]. destruct (Ascii.eqb c old).
  - rewrite IH, append_assoc. reflexivity.
  - rewrite IH. reflexivity.
Qed.

Lemma escapeHTML_app a b : escapeHTML (a ++ b) = escapeHTML a ++ escapeHTML b.
Proof. unfold escapeHTML. rewrite !replaceAll1_app. reflexivity. Qed.

Lemma escapeHTML_byte (c : ascii) :
  escapeHTML (String c "")
  = if Ascii.eqb c "&" then "&amp;"
    else if Ascii.eqb c "<" then "&lt;"
    else if Ascii.eqb c ">" then "&gt;"
    else String c "".
Proof.
  unfold escapeHTML. cbn [replaceAll1].
  destruct (Ascii.eqb_spec c "&") as [->|H1]; [reflexivity|].
  cbn [replaceAll1].
  destruct (Ascii.eqb_spec c "<") as [->|H2]; [reflexivity|].
  cbn [replaceAll1].
  destruct (Ascii.eqb_spec c ">") as [->|H3]; reflexivity.
Qed.

Lemma escapeHTML_cons c s :
  escapeHTML (String c s) = escapeHTML (String c "") ++ escapeHTML s.
Proof. rewrite <- escapeHTML_app. reflexivity. Qed.

(** X1: every byte is escaped once, on its own: [&], [<] and [>] become
    [&amp;], [&lt;] and [&gt;], every other byte stays, and the result of
    a concatenation is the concatenation of the results. The ampersands
    that the replacements of [<] and [>] write are not escaped again. *)
Theorem escapeHTML_bytewise :
  (forall a b, escapeHTML (a ++ b) = escapeHTML a ++ escapeHTML b)
  /\ escapeHTML "" = ""
  /\ forall c s,
       escapeHTML (String c s)
       = (if Ascii.eqb c "&" then "&amp;"
          else if Ascii.eqb c "<" then "&lt;"
          else if Ascii.eqb c ">" then "&gt;"
          else String c "") ++ escapeHTML s.
Proof.
  split; [exact escapeHTML_app|]. split; [reflexivity|].
  intros c s. rewrite escapeHTML_cons, escapeHTML_byte. reflexivity.
Qed.

Lemma split_at_amp x r a b :
  String x r = a ++ String "&" b -> x <> "&"%char ->
  exists a', a = String x a' /\ r = a' ++ String "&" b.
Proof.
  intros H Hx. destruct a as [|y a'].
  - cbn in H. inversion H. congruence.
  - cbn in H. inversion H. subst. eauto.
Qed.

(** X2: the result holds no [<] and no [>], and each of its ampersands
    starts one of the three entities [&amp;], [&lt;], [&gt;]. *)
Theorem escapeHTML_no_markup s :
  (forall c, In c (list_ascii_of_string (escapeHTML s)) ->
             c <> "<"%char /\ c <> ">"%char)
  /\ (forall a b, escapeHTML s = a ++ String "&" b ->
                  exists r, b = "amp;" ++ r \/ b = "lt;" ++ r \/ b = "gt;" ++ r).
Proof.
  split.
  { intros c. revert c.
    induction s as [|x s IH]; intros c; [intros []|].
    rewrite escapeHTML_cons, escapeHTML_byte.
    destruct (Ascii.eqb_spec x "&") as [->|H1];
      [|destruct (Ascii.eqb_spec x "<") as [->|H2];
        [|destruct (Ascii.eqb_spec x ">") as [->|H3]]];
      cbn; intros H;
      repeat (destruct H as [<-|H]; [split; congruence|]); auto. }
  induction s as [|c s IH]; intros a b H.
  - destruct a; discriminate.
  - rewrite escapeHTML_cons, escapeHTML_byte in H.
    destruct (Ascii.eqb_spec c "&") as [->|H1];
      [|destruct (Ascii.eqb_spec c "<") as [->|H2];
        [|destruct (Ascii.eqb_spec c ">") as [->|H3]]].
    + destruct a as [|y a].
      * cbn in H. inversion H. exists (escapeHTML s). left. reflexivity.
      * cbn in H. inversion H as [[Hy H']]. clear H.
        apply split_at_amp in H'; [|discriminate]. destruct H' as (a1 & -> & H').
        apply split_at_amp in H'; [|discriminate]. destruct H' as (a2 & -> & H').
        apply split_at_amp in H'; [|discriminate]. destruct H' as (a3 & -> & H').
        apply split_at_amp in H'; [|discriminate]. destruct H' as (a4 & -> & H').
        eapply IH. exact H'.
    + destruct a as [|y a].
      * cbn in H. inversion H. exists (escapeHTML s). right. left. reflexivity.
      * cbn in H. inversion H as [[Hy H']]. clear H.
        apply split_at_amp in H'; [|discriminate]. destruct H' as (a1 & -> & H').
        apply split_at_amp in H'; [|discriminate]. destruct H' as (a2 & -> & H').
        apply split_at_amp in H'; [|discriminate]. destruct H' as (a3 & -> & H').
        eapply IH. exact H'.
    + destruct a as [|y a].
      * cbn in H. inversion H. exists (escapeHTML s). right. right. reflexivity.
      * cbn in H. inversion H as [[Hy H']]. clear H.
        apply split_at_amp in H'; [|discriminate]. destruct H' as (a1 & -> & H').
        apply split_at_amp in H'; [|discriminate]. destruct H' as (a2 & -> & H').
        apply split_at_amp in H'; [|discriminate]. destruct H' as (a3 & -> & H').
        eapply IH. exact H'.
    + cbn in H. apply split_at_amp in H; [|exact H1]. destruct H as (a1 & -> & H').
      eapply IH. exact H'.
Qed.

(** X3: two different texts never have the same escaped form: nothing is
    lost by escaping. *)
Theorem escapeHTML_distinct a b : a <> b -> escapeHTML a <> escapeHTML b.
Proof.
  intros Hne Heq. apply Hne. clear Hne. revert b Heq.
  induction a as [|x a IH]; intros [|y b] H.
  - reflexivity.
  - rewrite escapeHTML_cons, escapeHTML_byte in H. exfalso.
    destruct (Ascii.eqb y "&"); [discriminate|].
    destruct (Ascii.eqb y "<"); [discriminate|].
    destruct (Ascii.eqb y ">"); discriminate.
  - rewrite escapeHTML_cons, escapeHTML_byte in H. exfalso.
    destruct (Ascii.eqb x "&"); [discriminate|].
    destruct (Ascii.eqb x "<"); [discriminate|].
    destruct (Ascii.eqb x ">"); discriminate.
  - rewrite (escapeHTML_cons x), (escapeHTML_cons y), !escapeHTML_byte in H.
    destruct (Ascii.eqb_spec x "&") as [->|X1];
      [|destruct (Ascii.eqb_spec x "<") as [->|X2];
        [|destruct (Ascii.eqb_spec x ">") as [->|X3]]];
    (destruct (Ascii.eqb_spec y "&") as [->|Y1];
      [|destruct (Ascii.eqb_spec y "<") as [->|Y2];
        [|destruct (Ascii.eqb_spec y ">") as [->|Y3]]]);
    cbn in H; inversion H; subst; try congruence;
    f_equal; apply IH; assumption.
Qed.

(** A text that is an entity already is escaped again, and stays apart
    from the byte the entity stands for. *)
Lemma escapeHTML_distinct_witness :
  "<" <> "&lt;" /\ escapeHTML "<" <> escapeHTML "&lt;".
Proof.
  assert (H : "<" <> "&lt;") by discriminate.
  split; [exact H|]. apply (escapeHTML_distinct "<" "&lt;" H).
Defined.


(** ** [formatTags] and [formatClips] *)

Lemma nonempty_false s : nonempty s = false <-> s = "".
Proof. destruct s; cbn; split; congruence. Qed.

Lemma nonempty_true s : nonempty s = true <-> s <> "".
Proof. destruct s; cbn; split; congruence. Qed.

Lemma nonempty_app a b : nonempty (a ++ b) = nonempty a || nonempty b.
Proof. destruct a; reflexivity. Qed.

Lemma join_nonempty sep x l : nonempty x = true -> nonempty (join sep (x :: l)) = true.
Proof.
  intros H. destruct l as [|y l]; [exact H|].
  cbn [join]. rewrite nonempty_app, H. reflexivity.
Qed.

Lemma join_app sep l1 l2 :
  l1 <> [] -> l2 <> [] ->
  join sep (l1 ++ l2) = join sep l1 ++ sep ++ join sep l2.
Proof.
  intros H1 H2. induction l1 as [|x l1 IH]; [congruence|].
  destruct l1 as [|y l1].
  - destruct l2; [congruence | reflexivity].
  - change (join sep ((x :: y :: l1) ++ l2)) with (x ++ sep ++ join sep ((y :: l1) ++ l2)).
    rewrite IH by discriminate.
    change (join sep (x :: y :: l1)) with (x ++ sep ++ join sep (y :: l1)).
    rewrite !append_assoc. reflexivity.
Qed.

Lemma formatTags_nonempty tags :
  nonempty (formatTags tags) = existsb nonempty tags.
Proof.
  unfold formatTags. induction tags as [|t tags IH]; [reflexivity|].
  cbn [filter existsb]. destruct (nonempty t) eqn:E; [|exact IH].
  cbn [map orb]. apply join_nonempty. reflexivity.
Qed.

(** X4: [formatTags] returns the empty string exactly when every tag is
    empty (or there is none): the callers' test [tags != ""] is the test
    for a tag that is not empty. *)
Theorem formatTags_empty_iff tags :
  formatTags tags = "" <-> (forall t, In t tags -> t = "").
Proof.
  rewrite <- nonempty_false, formatTags_nonempty. split.
  - intros H t Ht. apply nonempty_false.
    destruct (nonempty t) eqn:E; [|reflexivity].
    rewrite <- H. symmetry. apply existsb_exists. eauto.
  - intros H. destruct (existsb nonempty tags) eqn:E; [|reflexivity].
    apply existsb_exists in E. destruct E as (t & Ht & E).
    rewrite (H t Ht) in E. discriminate.
Qed.

Lemma map_filter_empty tags :
  map (fun tag => "#" ++ tag) (filter nonempty tags) = [] <-> formatTags tags = "".
Proof.
  unfold formatTags. destruct (map _ _) as [|x l] eqn:E.
  - split; reflexivity.
  - split; [discriminate|]. intros H. exfalso.
    assert (N : nonempty (join " " (x :: l)) = true).
    { apply join_nonempty. destruct (filter nonempty tags); [discriminate|].
      cbn in E. inversion E. reflexivity. }
    rewrite H in N. discriminate.
Qed.

(** X5: the hashtags of a concatenation are the hashtags of its parts,
    with one space between them when both parts have some; empty tags add
    nothing, wherever they stand. *)
Theorem formatTags_app a b :
  formatTags (a ++ b)
  = if nonempty (formatTags a) && nonempty (formatTags b)
    then formatTags a ++ " " ++ formatTags b
    else formatTags a ++ formatTags b.
Proof.
  destruct (nonempty (formatTags a)) eqn:Ea.
  - destruct (nonempty (formatTags b)) eqn:Eb; cbn [andb].
    + unfold formatTags in *. rewrite filter_app, map_app.
      apply join_app; intros H.
      * apply (proj1 (map_filter_empty a)) in H. unfold formatTags in H.
        rewrite H in Ea. discriminate.
      * apply (proj1 (map_filter_empty b)) in H. unfold formatTags in H.
        rewrite H in Eb. discriminate.
    + apply nonempty_false in Eb. pose proof (proj2 (map_filter_empty b) Eb) as Hb.
      rewrite Eb. unfold formatTags. rewrite filter_app, map_app, Hb, app_nil_r.
      destruct (join " " _); [reflexivity|]. cbn. f_equal.
      symmetry. apply append_empty_r.
  - cbn [andb]. apply nonempty_false in Ea.
    pose proof (proj2 (map_filter_empty a) Ea) as Ha.
    rewrite Ea. unfold formatTags. rewrite filter_app, map_app, Ha. reflexivity.
Qed.

Lemma formatClips_nonempty clips :
  nonempty (formatClips clips) = negb (len clips =? 0).
Proof.
  destruct clips as [|c clips]; [reflexivity|].
  unfold formatClips. cbn [map]. rewrite join_nonempty by reflexivity.
  unfold len. cbn [List.length]. symmetry. apply negb_true_iff, Z.eqb_neq. lia.
Qed.

(** ** The update message and its sections *)

(** X6: the update message with clips is the update message, then a
    blank line and the clip links when there is a clip, then a blank line
    and the hashtags when some tag is not empty: a section that has
    nothing to show leaves no blank line behind. *)
Theorem formatUpdateMessageWithClips_sections info avgViewers history clips loc :
  formatUpdateMessageWithClips info avgViewers history clips loc
  = formatUpdateMessage info avgViewers history loc
    ++ (match clips with
        | [] => ""
        | _ => "

" ++ formatClips clips
        end)
    ++ (if existsb nonempty (info_Tags info)
        then "

" ++ formatTags (info_Tags info)
        else "").
Proof.
  unfold formatUpdateMessageWithClips. cbv zeta.
  rewrite formatTags_nonempty, formatClips_nonempty.
  destruct clips as [|c clips].
  - cbn [len List.length Z.of_nat Z.eqb negb].
    change ("" ++ ?x) with x.
    destruct (existsb nonempty (info_Tags info)); [reflexivity|].
    symmetry. apply append_empty_r.
  - replace (negb (len (c :: clips) =? 0)) with true
      by (symmetry; apply negb_true_iff, Z.eqb_neq; unfold len; cbn [List.length]; lia).
    destruct (existsb nonempty (info_Tags info)).
    + rewrite !append_assoc. reflexivity.
    + rewrite append_empty_r. reflexivity.
Qed.

(** ** [getMaxViewers] and [calculateAverage] *)

Lemma fold_max_spec (l : list ViewerDataPoint) : forall a,
  let m := fold_left (fun max p => if max <? pt_Count p then pt_Count p else max) l a in
  a <= m
  /\ (forall p, In p l -> pt_Count p <= m)
  /\ (m = a \/ exists p, In p l /\ pt_Count p = m).
Proof.
  induction l as [|x l IH]; intros a; cbn [fold_left].
  - cbv zeta. split; [lia|]. split; [intros p []|left; reflexivity].
  - destruct (IH (if a <? pt_Count x then pt_Count x else a)) as (A & B & C).
    cbv zeta in *. split; [|split].
    + destruct (Z.ltb_spec a (pt_Count x)); lia.
    + intros p [<-|Hp]; [|apply B; exact Hp].
      destruct (Z.ltb_spec a (pt_Count x)); lia.
    + destruct C as [C|(p & Hp & C)].
      * destruct (Z.ltb_spec a (pt_Count x)).
        -- right. exists x. split; [left; reflexivity | congruence].
        -- left. exact C.
      * right. exists p. split; [right; exact Hp | exact C].
Qed.

Lemma getMaxViewers_upper p0 rest p :
  In p (p0 :: rest) -> pt_Count p <= getMaxViewers (p0 :: rest).
Proof.
  unfold getMaxViewers.
  destruct (fold_max_spec (p0 :: rest) (pt_Count p0)) as (_ & B & _). apply B.
Qed.

(** X7: [getMaxViewers] of a history that is not empty is the greatest
    count of the history: no point has more, and some point has it. Of the
    empty history it is 0. *)
Theorem getMaxViewers_greatest :
  getMaxViewers [] = 0
  /\ forall p0 rest,
       (forall p, In p (p0 :: rest) -> pt_Count p <= getMaxViewers (p0 :: rest))
       /\ exists p, In p (p0 :: rest) /\ pt_Count p = getMaxViewers (p0 :: rest).
Proof.
  split; [reflexivity|]. intros p0 rest. unfold getMaxViewers.
  destruct (fold_max_spec (p0 :: rest) (pt_Count p0)) as (A & B & C). cbv zeta in *.
  split; [exact B|].
  destruct C as [C|C]; [|exact C].
  exists p0. split; [left; reflexivity | congruence].
Qed.

Lemma total_lower (l : list ViewerDataPoint) lo :
  (forall p, In p l -> lo <= pt_Count p) -> lo * len l <= total (map pt_Count l).
Proof.
  induction l as [|y l IH]; intros Hl; [unfold total, len; cbn; lia|].
  unfold total, len in *. cbn [map fold_right List.length].
  assert (lo <= pt_Count y) by (apply Hl; left; reflexivity).
  assert (lo * Z.of_nat (List.length l) <= fold_right Z.add 0 (map pt_Count l))
    by (apply IH; intros p Hp; apply Hl; right; exact Hp).
  lia.
Qed.

Lemma total_upper (l : list ViewerDataPoint) hi :
  (forall p, In p l -> pt_Count p <= hi) -> total (map pt_Count l) <= hi * len l.
Proof.
  induction l as [|y l IH]; intros Hl; [unfold total, len; cbn; lia|].
  unfold total, len in *. cbn [map fold_right List.length].
  assert (pt_Count y <= hi) by (apply Hl; left; reflexivity).
  assert (fold_right Z.add 0 (map pt_Count l) <= hi * Z.of_nat (List.length l))
    by (apply IH; intros p Hp; apply Hl; right; exact Hp).
  lia.
Qed.

(** X8: for a history that is not empty, of counts that are not negative
    and whose sum fits an [int], [calculateAverage] is the mean rounded
    down; it is at least every lower bound of the counts and at most
    [getMaxViewers]. *)
Theorem calculateAverage_floor_mean history :
  history <> [] ->
  (forall p, In p history -> 0 <= pt_Count p) ->
  total (map pt_Count history) <= int_max ->
  let avg := calculateAverage history in
  len history * avg <= total (map pt_Count history) < len history * (avg + 1)
  /\ (forall lo, (forall p, In p history -> lo <= pt_Count p) -> lo <= avg)
  /\ avg <= getMaxViewers history.
Proof.
  intros Hne Hpos Hsum avg.
  pose proof (total_nonneg history Hpos) as Ht.
  pose proof (len_pos history Hne) as Hlen.
  pose proof (calculateAverage_quotient history Hne Hpos Hsum) as Havg. fold avg in Havg.
  pose proof (Z.div_mod (total (map pt_Count history)) (len history) ltac:(lia)) as D.
  pose proof (Z.mod_pos_bound (total (map pt_Count history)) (len history) Hlen) as Mb.
  rewrite <- Havg in D.
  split; [lia|]. split.
  - intros lo Hlo.
    destruct (Z.le_gt_cases lo 0) as [Hl|Hl].
    + assert (0 <= avg) by (rewrite Havg; apply Z.div_pos; lia). lia.
    + pose proof (total_lower history lo Hlo) as B.
      rewrite Havg. apply Z.div_le_lower_bound; lia.
  - destruct history as [|p0 rest]; [congruence|].
    assert (B : total (map pt_Count (p0 :: rest))
                <= getMaxViewers (p0 :: rest) * len (p0 :: rest)).
    { apply total_upper. intros p Hp. apply getMaxViewers_upper. exact Hp. }
    rewrite Havg. apply Z.div_le_upper_bound; lia.
Qed.

(** Three polls with 10, 20 and 35 viewers: the average is 21. *)
Lemma calculateAverage_floor_mean_witness :
  let history := counts [10; 20; 35] in
  (history <> []
   /\ (forall p, In p history -> 0 <= pt_Count p)
   /\ total (map pt_Count history) <= int_max)
  /\ calculateAverage history = 21
  /\ len history * calculateAverage history <= total (map pt_Count history)
     < len history * (calculateAverage history + 1)
  /\ (forall lo, (forall p, In p history -> lo <= pt_Count p) ->
                 lo <= calculateAverage history)
  /\ calculateAverage history <= getMaxViewers history.
Proof.
  assert (H1 : counts [10; 20; 35] <> []) by discriminate.
  assert (H2 : forall p, In p (counts [10; 20; 35]) -> 0 <= pt_Count p).
  { intros p [<-|[<-|[<-|[]]]]; cbn; lia. }
  assert (H3 : total (map pt_Count (counts [10; 20; 35])) <= int_max)
    by (vm_compute; discriminate).
  split; [split; [exact H1 | split; [exact H2 | exact H3]]|].
  split; [reflexivity|].
  apply (calculateAverage_floor_mean (counts [10; 20; 35]) H1 H2 H3).
Defined.

Lemma total_strict (l : list ViewerDataPoint) hi :
  (forall p, In p l -> pt_Count p <= hi) ->
  (exists p, In p l /\ pt_Count p < hi) ->
  total (map pt_Count l) < hi * len l.
Proof.
  induction l as [|y l IH]; intros Hl (p & Hp & Hlt); [destruct Hp|].
  unfold total, len in *. cbn [map fold_right List.length].
  assert (Hy : pt_Count y <= hi) by (apply Hl; left; reflexivity).
  assert (Hr : forall q, In q l -> pt_Count q <= hi) by (intros q Hq; apply Hl; right; exact Hq).
  pose proof (total_upper l hi Hr) as U. unfold total, len in U.
  destruct Hp as [<-|Hp].
  - lia.
  - assert (fold_right Z.add 0 (map pt_Count l) < hi * Z.of_nat (List.length l))
      by (apply IH; [exact Hr | eauto]).
    lia.
Qed.

(** X23: for such a history the average reaches [getMaxViewers] only
    when every poll counted the same number of viewers; in every other
    case it is below it, and the end message, which shows the peak when
    [maxViewers > avgViewers], shows it. *)
Theorem calculateAverage_below_peak history :
  history <> [] ->
  (forall p, In p history -> 0 <= pt_Count p) ->
  total (map pt_Count history) <= int_max ->
  (calculateAverage history <? getMaxViewers history) = false
  <-> (forall p, In p history -> pt_Count p = getMaxViewers history).
Proof.
  intros Hne Hpos Hsum.
  pose proof (len_pos history Hne) as Hlen.
  pose proof (calculateAverage_quotient history Hne Hpos Hsum) as Havg.
  assert (Hup : forall p, In p history -> pt_Count p <= getMaxViewers history).
  { destruct history as [|p0 rest]; [congruence|]. intros p. apply getMaxViewers_upper. }
  pose proof (Z.div_mod (total (map pt_Count history)) (len history) ltac:(lia)) as D.
  pose proof (Z.mod_pos_bound (total (map pt_Count history)) (len history) Hlen) as Mb.
  rewrite <- Havg in D.
  split.
  - intros H p Hp. apply Z.ltb_ge in H.
    destruct (Z.eq_dec (pt_Count p) (getMaxViewers history)) as [E|E]; [exact E|].
    exfalso.
    assert (S : total (map pt_Count history) < getMaxViewers history * len history).
    { apply total_strict; [exact Hup|]. exists p. split; [exact Hp|].
      specialize (Hup p Hp). lia. }
    nia.
  - intros H. apply Z.ltb_ge.
    assert (L : getMaxViewers history * len history <= total (map pt_Count history)).
    { apply total_lower. intros p Hp. rewrite (H p Hp). lia. }
    rewrite Havg. apply Z.div_le_lower_bound; lia.
Qed.

(** Two polls with 7 viewers each: the average is the peak. *)
Lemma calculateAverage_below_peak_witness :
  let history := counts [7; 7] in
  (history <> []
   /\ (forall p, In p history -> 0 <= pt_Count p)
   /\ total (map pt_Count history) <= int_max)
  /\ ((calculateAverage history <? getMaxViewers history) = false
      <-> (forall p, In p history -> pt_Count p = getMaxViewers history)).
Proof.
  assert (H1 : counts [7; 7] <> []) by discriminate.
  assert (H2 : forall p, In p (counts [7; 7]) -> 0 <= pt_Count p).
  { intros p [<-|[<-|[]]]; cbn; lia. }
  assert (H3 : total (map pt_Count (counts [7; 7])) <= int_max)
    by (vm_compute; discriminate).
  split; [split; [exact H1 | split; [exact H2 | exact H3]]|].
  apply (calculateAverage_below_peak (counts [7; 7]) H1 H2 H3).
Defined.


(** ** [formatViewers] at the ends of its ranges *)

(** X9: the unit is chosen by the count and the number is rounded
    afterwards, so the top of each range shows the next round number in
    the old unit: 9951..9999 is shown as 10.0K, 999500..999999 as 1000K
    and 9950001..9999999 as 10.0M. *)
Theorem formatViewers_rollover n :
  (9950 < n < 10000 -> formatViewers n = "10.0K")
  /\ (999500 <= n < 1000000 -> formatViewers n = "1000K")
  /\ (9950000 < n < 10000000 -> formatViewers n = "10.0M").
Proof.
  split; [|split].
  - intros H. rewrite formatViewers_thousands by lia.
    replace (10000 <=? n) with false by (symmetry; apply Z.leb_gt; lia).
    rewrite of_int_1000.
    destruct (shown_spec n 1000 43 8796093022208000 1 ltac:(lia) ltac:(lia) ltac:(lia)
                eq_refl ltac:(lia) ltac:(change (10 ^ Z.of_nat 1) with 10; lia))
      as (m & e & D & A).
    change (Z.opp 43) with (Z.neg 43) in D. rewrite D, sprintf_f_1.
    change (10 ^ Z.of_nat 1) with 10 in A.
    replace (F64.scaled 1 m e) with 100 by lia. reflexivity.
  - intros H. destruct (Z.eq_dec n 999500) as [->|Hn]; [vm_compute; reflexivity|].
    rewrite formatViewers_thousands by lia.
    replace (10000 <=? n) with true by (symmetry; apply Z.leb_le; lia).
    rewrite of_int_1000.
    destruct (shown_spec n 1000 43 8796093022208000 0 ltac:(lia) ltac:(lia) ltac:(lia)
                eq_refl ltac:(lia) ltac:(change (10 ^ Z.of_nat 0) with 1; lia))
      as (m & e & D & A).
    change (Z.opp 43) with (Z.neg 43) in D. rewrite D, sprintf_f_0.
    change (10 ^ Z.of_nat 0) with 1 in A.
    replace (F64.scaled 0 m e) with 1000 by lia. reflexivity.
  - intros H. rewrite formatViewers_millions by lia.
    replace (10000000 <=? n) with false by (symmetry; apply Z.leb_gt; lia).
    rewrite of_int_1000000.
    destruct (shown_spec n 1000000 33 8589934592000000 1 ltac:(lia) ltac:(lia) ltac:(lia)
                eq_refl ltac:(lia) ltac:(change (10 ^ Z.of_nat 1) with 10; lia))
      as (m & e & D & A).
    change (Z.opp 33) with (Z.neg 33) in D. rewrite D, sprintf_f_1.
    change (10 ^ Z.of_nat 1) with 10 in A.
    replace (F64.scaled 1 m e) with 100 by lia. reflexivity.
Qed.

Lemma formatViewers_rollover_witness :
  999500 <= 999999 < 1000000 /\ formatViewers 999999 = "1000K".
Proof.
  split; [lia|]. apply (proj1 (proj2 (formatViewers_rollover 999999))). lia.
Defined.

Example formatViewers_below_rollover :
  formatViewers 9950 = "9.9K" /\ formatViewers 999499 = "999K"
  /\ formatViewers 9950000 = "9.9M".
Proof. repeat split; vm_compute; reflexivity. Qed.


(** ** The retry executor: what every run keeps *)

Section RetryKeeps.
Context {St : Type}.
Variable wait : Z -> St -> bool * St.
Variable operation : St -> option error * St.

Variable R : St -> St -> Prop.
Hypothesis R_refl : forall s, R s s.
Hypothesis R_trans : forall a b c, R a b -> R b c -> R a c.
Hypothesis operation_R : forall s e s', operation s = (e, s') -> R s s'.
Hypothesis wait_R : forall d s b s', wait d s = (b, s') -> R s s'.

Lemma backoffPhase_keeps ds : forall s,
  match backoffPhase wait operation ds s with
  | inl (_, s') => R s s'
  | inr s' => R s s'
  end.
Proof.
  induction ds as [|d ds IH]; intros s; cbn; [apply R_refl|].
  destruct (operation s) as [[e|] s1] eqn:Eop.
  - destruct (wait d s1) as [[|] s2] eqn:Ew.
    + eapply R_trans; [eapply operation_R | eapply wait_R]; eassumption.
    + specialize (IH s2).
      assert (R s s2)
        by (eapply R_trans; [eapply operation_R | eapply wait_R]; eassumption).
      destruct (backoffPhase wait operation ds s2) as [[r s3]|s3];
        eapply R_trans; eassumption.
  - eapply operation_R; eassumption.
Qed.

Lemma steadyPhase_keeps fuel : forall s r s',
  steadyPhase wait operation fuel s = Some (r, s') -> R s s'.
Proof.
  induction fuel as [|fuel IH]; intros s r s' H; cbn in H; [discriminate|].
  destruct (operation s) as [[e|] s1] eqn:Eop.
  - destruct (wait 60 s1) as [[|] s2] eqn:Ew.
    + inversion H; subst.
      eapply R_trans; [eapply operation_R | eapply wait_R]; eassumption.
    + eapply R_trans; [|eapply IH; eassumption].
      eapply R_trans; [eapply operation_R | eapply wait_R]; eassumption.
  - inversion H; subst. eapply operation_R; eassumption.
Qed.

Lemma retryWithBackoff_keeps fuel s r s' :
  retryWithBackoff wait operation fuel s = Some (r, s') -> R s s'.
Proof.
  unfold retryWithBackoff. intros H.
  pose proof (backoffPhase_keeps delays s) as B.
  destruct (backoffPhase wait operation delays s) as [[r0 s0]|s0].
  - inversion H; subst. exact B.
  - eapply R_trans; [exact B | eapply steadyPhase_keeps; eassumption].
Qed.

End RetryKeeps.

Section RetryForever.
Context {St : Type}.
Variable wait : Z -> St -> bool * St.
Variable operation : St -> option error * St.

Variable inv : St -> Prop.
Hypothesis stuck : forall s, inv s ->
  exists e s1, operation s = (Some e, s1)
               /\ forall d, exists s2, wait d s1 = (false, s2) /\ inv s2.

Lemma backoffPhase_forever ds : forall s,
  inv s -> exists s', backoffPhase wait operation ds s = inr s' /\ inv s'.
Proof.
  induction ds as [|d ds IH]; intros s Hi; cbn; [eauto|].
  destruct (stuck s Hi) as (e & s1 & Eop & Hw). rewrite Eop.
  destruct (Hw d) as (s2 & Ew & Hi2). rewrite Ew. apply IH. exact Hi2.
Qed.

Lemma steadyPhase_forever fuel : forall s,
  inv s -> steadyPhase wait operation fuel s = None.
Proof.
  induction fuel as [|fuel IH]; intros s Hi; cbn; [reflexivity|].
  destruct (stuck s Hi) as (e & s1 & Eop & Hw). rewrite Eop.
  destruct (Hw 60) as (s2 & Ew & Hi2). rewrite Ew. apply IH. exact Hi2.
Qed.

Lemma retryWithBackoff_forever fuel s :
  inv s -> retryWithBackoff wait operation fuel s = None.
Proof.
  intros Hi. unfold retryWithBackoff.
  destruct (backoffPhase_forever delays s Hi) as (s' & E & Hi'). rewrite E.
  apply steadyPhase_forever. exact Hi'.
Qed.

End RetryForever.

Lemma retryWithBackoff_mono {St : Type} (wait : Z -> St -> bool * St)
    (operation : St -> option error * St) fuel fuel' s r :
  retryWithBackoff wait operation fuel s = Some r -> (fuel <= fuel')%nat ->
  retryWithBackoff wait operation fuel' s = Some r.
Proof.
  unfold retryWithBackoff. intros H Hle.
  destruct (backoffPhase wait operation delays s) as [r0|s0]; [exact H|].
  eapply steadyPhase_mono; eassumption.
Qed.

(** X10: the first attempt is made whatever the context says: an
    operation that succeeds at once gives success even when the context is
    already cancelled, and one that fails while the context is cancelled
    gives the cancellation after that single attempt, the first wait cut
    short. *)
Theorem retry_first_attempt {St : Type} (wait : Z -> St -> bool * St)
    (operation : St -> option error * St) fuel s :
  (forall s', operation s = (None, s') ->
              retryWithBackoff wait operation fuel s = Some (None, s'))
  /\ (forall e s1 s2,
        operation s = (Some e, s1) -> wait 1 s1 = (true, s2) ->
        retryWithBackoff wait operation fuel s = Some (Some ContextCanceled, s2)).
Proof.
  split.
  - intros s' H. unfold retryWithBackoff, delays. cbn [backoffPhase].
    rewrite H. reflexivity.
  - intros e s1 s2 H Hw. unfold retryWithBackoff, delays. cbn [backoffPhase].
    rewrite H, Hw. reflexivity.
Qed.

(** On the probe: the signal fires before the first wait. *)
Lemma retry_first_attempt_witness :
  (probeOp (fun _ => true) probe0
   = (None, {| invocations := 1; waits := [] |}))
  /\ retryWithBackoff (probeWait (fun _ => true)) (probeOp (fun _ => true)) 0 probe0
     = Some (None, {| invocations := 1; waits := [] |}).
Proof.
  split; [reflexivity|].
  apply (proj1 (retry_first_attempt (probeWait (fun _ => true))
                  (probeOp (fun _ => true)) 0 probe0)).
  reflexivity.
Defined.

(** ** What the interactions keep *)

Lemma added_refl P w : added P w w.
Proof. exists []. split; [reflexivity | constructor]. Qed.

Lemma added_trans P a b c : added P a b -> added P b c -> added P a c.
Proof.
  intros (e1 & H1 & F1) (e2 & H2 & F2). exists (e2 ++ e1)%list.
  split; [rewrite H2, H1, app_assoc; reflexivity | apply Forall_app; split; assumption].
Qed.

Lemma added_one (P : Event -> Prop) ev w w' :
  P ev -> trace w' = ev :: trace w -> added P w w'.
Proof. intros H E. exists [ev]. split; [exact E | repeat constructor; exact H]. Qed.

Lemma added_none (P : Event -> Prop) w w' : trace w' = trace w -> added P w w'.
Proof. intros E. exists []. split; [exact E | constructor]. Qed.

Lemma keeps_refl P w : keeps P w w.
Proof.
  unfold keeps. split; [reflexivity|]. split; [lia|].
  split; [reflexivity | apply added_refl].
Qed.

Lemma keeps_trans P a b c : keeps P a b -> keeps P b c -> keeps P a c.
Proof.
  intros (A1 & A2 & A3 & A4) (B1 & B2 & B3 & B4).
  unfold keeps. split; [congruence|]. split; [lia|].
  split; [congruence | eapply added_trans; eassumption].
Qed.

Lemma keeps_quiet P w w' :
  script w' = script w -> (tick w <= tick w')%nat -> files w' = files w ->
  trace w' = trace w -> keeps P w w'.
Proof.
  intros. unfold keeps. split; [assumption|]. split; [assumption|].
  split; [assumption | apply added_none; assumption].
Qed.

Lemma keeps_event (P : Event -> Prop) ev w w' :
  P ev -> script w' = script w -> (tick w <= tick w')%nat -> files w' = files w ->
  trace w' = ev :: trace w -> keeps P w w'.
Proof.
  intros. unfold keeps. split; [assumption|]. split; [assumption|].
  split; [assumption | eapply added_one; eassumption].
Qed.

Lemma keeps_timeNow P w : keeps P w (snd (timeNow w)).
Proof. apply keeps_quiet; cbn; try reflexivity; lia. Qed.

Lemma keeps_timeSince P t w : keeps P w (snd (timeSince t w)).
Proof. apply keeps_quiet; cbn; try reflexivity; lia. Qed.

Lemma keeps_getThumbnailURL P c w : keeps P w (snd (getThumbnailURL c w)).
Proof. apply keeps_quiet; cbn; try reflexivity; lia. Qed.

Lemma keeps_ctxWait (P : Event -> Prop) d w :
  (forall b, P (EvWait d b)) -> keeps P w (snd (ctxWait d w)).
Proof.
  intros H. eapply keeps_event; [apply H | | | |]; cbn; try reflexivity; lia.
Qed.

Lemma keeps_getRecentClips (P : Event -> Prop) b t w :
  P (EvGetRecentClips b t) -> keeps P w (snd (getRecentClips b t w)).
Proof.
  intros H. eapply keeps_event; [apply H | | | |]; cbn; try reflexivity; lia.
Qed.

Lemma keeps_getBroadcasterID (P : Event -> Prop) c w :
  P (EvGetBroadcasterID c) -> keeps P w (snd (getBroadcasterID c w)).
Proof.
  intros H. eapply keeps_event; [apply H | | | |]; cbn; try reflexivity; lia.
Qed.

Lemma keeps_editMessageCaption (P : Event -> Prop) m c u b w :
  P (EvEditCaption m c u b) -> keeps P w (snd (editMessageCaption m c u b w)).
Proof.
  intros H. unfold editMessageCaption, httpDo.
  destruct (telegramAt (script w) (tick w)) as [e|status body];
    [|destruct (negb (status =? StatusOK))];
    (eapply keeps_event; [apply H | | | |]; cbn; try reflexivity; lia).
Qed.

Lemma keeps_editPhotoMessage (P : Event -> Prop) m p c u b w :
  P (EvEditPhoto m p c u b) -> keeps P w (snd (editPhotoMessage m p c u b w)).
Proof.
  intros H. unfold editPhotoMessage, downloadImage, httpDo.
  destruct (imageAt (script w) (tick w)) as [e0|].
  - apply keeps_quiet; cbn; try reflexivity; lia.
  - cbn [advance script tick record].
    destruct (telegramAt (script w) (S (tick w))) as [e|status body];
      [|destruct (negb (status =? StatusOK))];
      (eapply keeps_event; [apply H | | | |]; cbn; try reflexivity; lia).
Qed.

Lemma keeps_sendPhotoMessage (P : Event -> Prop) p c u b w :
  P (EvSendPhoto p c u b) -> keeps P w (snd (sendPhotoMessage p c u b w)).
Proof.
  intros H. unfold sendPhotoMessage, downloadImage, httpDo.
  destruct (imageAt (script w) (tick w)) as [e0|].
  - apply keeps_quiet; cbn; try reflexivity; lia.
  - cbn [advance script tick record].
    destruct (telegramAt (script w) (S (tick w))) as [e|status [body|]];
      [| destruct (negb (tg_Ok body)) |];
      (eapply keeps_event; [apply H | | | |]; cbn; try reflexivity; lia).
Qed.

Lemma keeps_retry (P : Event -> Prop) (operation : IO (option error)) fuel w r w' :
  (forall d b, P (EvWait d b)) ->
  (forall w0, keeps P w0 (snd (operation w0))) ->
  retry operation fuel w = Some (r, w') -> keeps P w w'.
Proof.
  intros Hw Hop H. unfold retry in H.
  eapply (retryWithBackoff_keeps ctxWait operation (keeps P)); [| | | |exact H].
  - apply keeps_refl.
  - apply keeps_trans.
  - intros s e s' E. specialize (Hop s). rewrite E in Hop. exact Hop.
  - intros d s b s' E. pose proof (keeps_ctxWait P d s (Hw d)) as K.
    rewrite E in K. exact K.
Qed.

Lemma keeps_deliverStart (P : Event -> Prop) p c u b fuel w r w' :
  (forall d b0, P (EvWait d b0)) ->
  P (EvSendPhoto p c u b) ->
  deliverStart p c u b fuel w = Some (r, w') -> keeps P w w'.
Proof.
  intros Hw Hs H. unfold deliverStart in H.
  destruct (retryWithBackoff waitWith (sendStart p c u b) fuel (0, w))
    as [[err [mid w1]]|] eqn:E; [|discriminate].
  inversion H; subst. clear H.
  apply (retryWithBackoff_keeps waitWith (sendStart p c u b)
           (fun s s' => keeps P (snd s) (snd s'))) in E; [exact E | | | |].
  - intros s. apply keeps_refl.
  - intros x y z. apply keeps_trans.
  - intros [m0 s] e [m1 s'] Eop. cbn [snd]. unfold sendStart in Eop. cbn [snd] in Eop.
    pose proof (keeps_sendPhotoMessage P p c u b s Hs) as K.
    destruct (sendPhotoMessage p c u b s) as [[id e0] s2]. inversion Eop; subst. exact K.
  - intros d [m0 s] b0 [m1 s'] Ew. cbn [snd]. unfold waitWith in Ew. cbn [fst snd] in Ew.
    pose proof (keeps_ctxWait P d s (Hw d)) as K.
    destruct (ctxWait d s) as [dn s2]. inversion Ew; subst. exact K.
Qed.

Lemma keeps_endOfCycle (P : Event -> Prop) cfg st w step w' :
  (forall d b, P (EvWait d b)) ->
  endOfCycle cfg st w = Some (step, w') -> keeps P w w'.
Proof.
  intros Hw H. rewrite endOfCycle_eq in H. inversion H; subst.
  apply keeps_ctxWait. apply Hw.
Qed.

Ltac step_keeps K :=
  eapply keeps_trans; [exact K|]; clear K.

(** The branches of the loop body, for every property of events that the
    requests of the branch have. *)
Section BranchKeeps.
Variable P : Event -> Prop.
Hypothesis P_wait : forall d b, P (EvWait d b).
Hypothesis P_clips : forall b t, P (EvGetRecentClips b t).
Hypothesis P_lookup : forall c, P (EvGetBroadcasterID c).

Lemma keeps_startBranch cfg loc fuel info lw w step w' :
  (forall p c u b, P (EvSendPhoto p c u b)) ->
  startBranch cfg loc fuel info lw w = Some (step, w') -> keeps P w w'.
Proof.
  intros Hs H. unfold startBranch in H. run.
  pose proof (keeps_getBroadcasterID P (cfg_Channel cfg) w (P_lookup _)) as K1.
  destruct (getBroadcasterID (cfg_Channel cfg) w) as [[e|bid] w1]; cbn [snd] in K1.
  - step_keeps K1. eapply keeps_endOfCycle; [|exact H]. exact P_wait.
  - pose proof (keeps_getThumbnailURL P (cfg_Channel cfg) w1) as K2.
    destruct (getThumbnailURL (cfg_Channel cfg) w1) as [th w2]. cbn [snd] in K2.
    pose proof (keeps_timeNow P w2) as K3.
    destruct (timeNow w2) as [now w3]. cbn [snd] in K3.
    destruct (deliverStart th (formatStartMessage info loc) (info_URL info)
                (loc_ButtonText loc) fuel w3) as [[r w4]|] eqn:Ed; [|discriminate].
    apply (keeps_deliverStart P) in Ed; [| exact P_wait | apply Hs].
    step_keeps K1. step_keeps K2. step_keeps K3. step_keeps Ed.
    destruct (negb (snd r =? 0)).
    + pose proof (keeps_timeNow P w4) as K5.
      destruct (timeNow w4) as [t w5]. cbn [snd] in K5. step_keeps K5.
      eapply keeps_endOfCycle; [|exact H]. exact P_wait.
    + eapply keeps_endOfCycle; [|exact H]. exact P_wait.
Qed.

Lemma keeps_liveBranch cfg loc cpu fuel info s lw w step w' :
  (forall p c u b, P (EvEditPhoto (sess_MessageID s) p c u b)) ->
  liveBranch cfg loc cpu fuel info s lw w = Some (step, w') -> keeps P w w'.
Proof.
  intros Hs H. unfold liveBranch in H. run.
  pose proof (keeps_timeNow P w) as K1.
  destruct (timeNow w) as [now w1]. cbn [snd] in K1. step_keeps K1.
  destruct (refreshDue cpu info (recordPoll s now (info_Viewers info))).
  - pose proof (keeps_getThumbnailURL P (cfg_Channel cfg) w1) as K2.
    destruct (getThumbnailURL (cfg_Channel cfg) w1) as [th w2]. cbn [snd] in K2.
    step_keeps K2.
    match type of H with context [getRecentClips ?b ?t w2] =>
      pose proof (keeps_getRecentClips P b t w2 (P_clips _ _)) as K3;
      destruct (getRecentClips b t w2) as [got w3] end.
    cbn [snd] in K3. step_keeps K3.
    match type of H with context [retry ?op fuel w3] =>
      destruct (retry op fuel w3) as [[r w4]|] eqn:Er end; [|discriminate].
    apply (keeps_retry P) in Er.
    + step_keeps Er. eapply keeps_endOfCycle; [|exact H]. exact P_wait.
    + exact P_wait.
    + intros w0. apply keeps_editPhotoMessage. apply Hs.
  - eapply keeps_endOfCycle; [|exact H]. exact P_wait.
Qed.

Lemma keeps_endBranch cfg loc fuel s lw w step w' :
  (forall c u b, P (EvEditCaption (sess_MessageID s) c u b)) ->
  endBranch cfg loc fuel s lw w = Some (step, w') -> keeps P w w'.
Proof.
  intros Hs H. unfold endBranch in H. run.
  pose proof (keeps_timeSince P (sess_StartTime s) w) as K1.
  destruct (timeSince (sess_StartTime s) w) as [d w1]. cbn [snd] in K1. step_keeps K1.
  pose proof (keeps_getRecentClips P (sess_BroadcasterID s)
                (sess_StartTime s) w1 (P_clips _ _)) as K2.
  destruct (getRecentClips (sess_BroadcasterID s) (sess_StartTime s) w1) as [got w2].
  cbn [snd] in K2. step_keeps K2.
  match type of H with context [retry ?op fuel w2] =>
    destruct (retry op fuel w2) as [[r w3]|] eqn:Er end; [|discriminate].
  apply (keeps_retry P) in Er.
  - step_keeps Er. eapply keeps_endOfCycle; [|exact H]. exact P_wait.
  - exact P_wait.
  - intros w0. apply keeps_editMessageCaption. apply Hs.
Qed.

Lemma keeps_dispatch_for cfg loc cpu fuel st info err w step w' :
  (session st = None -> forall p c u b, P (EvSendPhoto p c u b)) ->
  (forall s, session st = Some s ->
             (forall p c u b, P (EvEditPhoto (sess_MessageID s) p c u b))
             /\ (forall c u b, P (EvEditCaption (sess_MessageID s) c u b))) ->
  dispatch cfg loc cpu fuel st info err w = Some (step, w') ->
  keeps P w w'.
Proof.
  intros Hnone Hsome. unfold dispatch. destruct err as [e|].
  - apply keeps_endOfCycle. exact P_wait.
  - destruct info as [info|]; destruct (session st) as [s|] eqn:Hs.
    + apply keeps_liveBranch. apply (Hsome s eq_refl).
    + apply keeps_startBranch. apply Hnone. reflexivity.
    + apply keeps_endBranch. apply (Hsome s eq_refl).
    + apply keeps_endOfCycle. exact P_wait.
Qed.

End BranchKeeps.

(** An event of a poll cycle that started with the loop variables [st] and
    with the sentinel [present] or not: its requests fit [st], and it
    removes no file but the sentinel it found. *)
Lemma keeps_dispatch cfg loc cpu fuel st info err w step w' :
  dispatch cfg loc cpu fuel st info err w = Some (step, w') ->
  keeps (fun ev => requestFits st ev /\ forall f, ev <> EvRemove f) w w'.
Proof.
  apply keeps_dispatch_for.
  - intros; split; [exact I | discriminate].
  - intros; split; [exact I | discriminate].
  - intros; split; [exact I | discriminate].
  - intros Hs p c u b. split; [exact Hs | discriminate].
  - intros s Hs. split; intros; (split; [exists s; split; [exact Hs | reflexivity]
                                       | discriminate]).
Qed.

Lemma filter_absent (x : string) (l : list string) :
  existsb (String.eqb x) l = false ->
  filter (fun f => negb (String.eqb x f)) l = l.
Proof.
  induction l as [|y l IH]; [reflexivity|]. cbn [existsb filter].
  intros H. apply orb_false_iff in H. destruct H as [H1 H2].
  rewrite H1. cbn [negb]. rewrite IH by exact H2. reflexivity.
Qed.

(** The status check: all it does to the files is to remove the sentinel
    it found; otherwise it asks Twitch. *)
Lemma checkStatus_frame cfg st w :
  let w1 := snd (checkStatus cfg st w) in
  let present := existsb (String.eqb simulate_end) (files w) in
  script w1 = script w
  /\ (tick w < tick w1)%nat
  /\ files w1 = filter (fun f => negb (String.eqb simulate_end f)) (files w)
  /\ trace w1 = (if present then EvRemove simulate_end
                 else EvGetStreamInfo (cfg_Channel cfg)) :: trace w.
Proof.
  unfold checkStatus, fileExists, osRemove, getStreamInfo. cbv zeta.
  destruct (existsb (String.eqb simulate_end) (files w)) eqn:E.
  - destruct (session st); cbn; (split; [reflexivity|]); (split; [lia|]);
      split; reflexivity.
  - apply filter_absent in E.
    destruct (streamInfoAt _ _); cbn;
      (split; [reflexivity|]); (split; [lia|]); (split; [symmetry; exact E|]);
      reflexivity.
Qed.

Lemma pollCycle_frame cfg loc cpu fuel st w st' w' :
  pollCycle cfg loc cpu fuel st w = Some (Continue st', w') ->
  let present := existsb (String.eqb simulate_end) (files w) in
  script w' = script w
  /\ (tick w < tick w')%nat
  /\ files w' = filter (fun f => negb (String.eqb simulate_end f)) (files w)
  /\ exists evs,
       trace w' = (evs ++ (if present then EvRemove simulate_end
                           else EvGetStreamInfo (cfg_Channel cfg)) :: trace w)%list
       /\ Forall (fun ev => requestFits st ev /\ forall f, ev <> EvRemove f) evs.
Proof.
  destruct (cancelled w) eqn:Hc.
  - rewrite pollCycle_stopped by exact Hc. discriminate.
  - rewrite (pollCycle_running _ _ _ _ _ _ Hc). intros H.
    destruct (checkStatus_frame cfg st (advance w)) as (A1 & A2 & A3 & A4).
    cbv zeta in *.
    apply keeps_dispatch in H. destruct H as (B1 & B2 & B3 & evs & E & F).
    cbn [advance script tick files trace] in *.
    split; [congruence|]. split; [lia|]. split; [congruence|].
    exists evs. split; [rewrite E, A4; reflexivity | exact F].
Qed.


(** ** The poll loop: requests, files and the session *)

(** X11: whatever a poll cycle does, the Telegram requests it makes fit
    the loop variables it started with: it sends a new message only while
    there is no session, and it edits only the message of the session
    (photo or caption). *)
Theorem telegram_requests_fit_session cfg loc cpu fuel st w step w' :
  pollCycle cfg loc cpu fuel st w = Some (step, w') ->
  exists evs, trace w' = (evs ++ trace w)%list /\ Forall (requestFits st) evs.
Proof.
  intros H. destruct step as [|st'].
  - destruct (cancelled w) eqn:Hc.
    + rewrite pollCycle_stopped in H by exact Hc. inversion H; subst.
      exists []. split; [reflexivity | constructor].
    + exfalso. rewrite (pollCycle_running _ _ _ _ _ _ Hc) in H.
      revert H. generalize (checkStatus cfg st (advance w)). intros [[i e] w1].
      cbn [fst snd]. unfold dispatch.
      destruct e as [e|]; [rewrite endOfCycle_eq; discriminate|].
      destruct i as [i|]; destruct (session st) as [s|]; intros H.
      * apply liveBranch_result in H. discriminate.
      * apply startBranch_result in H.
        destruct H as [H|(m & t & b & n & _ & H)]; discriminate.
      * apply endBranch_result in H. discriminate.
      * rewrite endOfCycle_eq in H. discriminate.
  - apply pollCycle_frame in H. destruct H as (_ & _ & _ & evs & E & F).
    exists (evs ++ [if existsb (String.eqb simulate_end) (files w)
                    then EvRemove simulate_end
                    else EvGetStreamInfo (cfg_Channel cfg)])%list.
    split; [rewrite E, <- app_assoc; reflexivity|].
    apply Forall_app. split.
    + eapply Forall_impl; [|exact F]. intros ev [A _]. exact A.
    + constructor; [|constructor].
      destruct (existsb (String.eqb simulate_end) (files w)); exact I.
Qed.

(** The second live poll of the example with threshold 0 edits message
    77, the message of the session. *)
Lemma telegram_requests_fit_session_witness :
  let w := Demo.world 10 (StreamLive Demo.info) Demo.accepted None [] in
  exists step w',
    pollCycle Demo.cfg61 Demo.loc 0 0 Demo.live w = Some (step, w')
    /\ exists evs, trace w' = (evs ++ trace w)%list
                   /\ Forall (requestFits Demo.live) evs.
Proof.
  eexists. eexists. split; [lazy; reflexivity|].
  eapply (telegram_requests_fit_session Demo.cfg61 Demo.loc 0 0 Demo.live
            (Demo.world 10 (StreamLive Demo.info) Demo.accepted None [])).
  lazy. reflexivity.
Defined.

(** X12: a poll cycle touches no file but the sentinel. It creates no
    file and removes no other file; it calls [os.Remove] only on
    [simulate_end], and does so exactly when the status check found the
    sentinel, whether or not a session exists. When there was no sentinel
    the files are as they were. *)
Theorem only_the_sentinel_is_removed cfg loc cpu fuel st w st' w' :
  pollCycle cfg loc cpu fuel st w = Some (Continue st', w') ->
  let present := existsb (String.eqb simulate_end) (files w) in
  (forall f, In f (files w') -> In f (files w))
  /\ (forall f, f <> simulate_end -> In f (files w) -> In f (files w'))
  /\ (present = false -> files w' = files w)
  /\ exists evs,
       trace w' = (evs ++ trace w)%list
       /\ (forall f, In (EvRemove f) evs -> f = simulate_end /\ present = true)
       /\ (present = true -> In (EvRemove simulate_end) evs).
Proof.
  intros H present. apply pollCycle_frame in H.
  destruct H as (_ & _ & Hf & evs & E & F). fold present in E.
  split; [|split; [|split]].
  - intros f Hin. rewrite Hf in Hin. apply filter_In in Hin. apply Hin.
  - intros f Hne Hin. rewrite Hf. apply filter_In. split; [exact Hin|].
    apply negb_true_iff, String.eqb_neq. congruence.
  - intros Hp. rewrite Hf. apply filter_absent. exact Hp.
  - exists (evs ++ [if present then EvRemove simulate_end
                    else EvGetStreamInfo (cfg_Channel cfg)])%list.
    split; [rewrite E, <- app_assoc; reflexivity|]. split.
    + intros f Hin. apply in_app_or in Hin. destruct Hin as [Hin|[Hin|[]]].
      * exfalso. rewrite Forall_forall in F. apply (proj2 (F _ Hin) f). reflexivity.
      * destruct present; [|discriminate]. inversion Hin. split; reflexivity.
    + intros Hp. apply in_or_app. right. rewrite Hp. left. reflexivity.
Qed.

(** Offline, no session, and the sentinel among two files: the cycle
    calls [os.Remove] on it, asks Twitch nothing, and leaves the other
    file. *)
Lemma only_the_sentinel_is_removed_witness :
  let w := Demo.world 0 StreamOffline Demo.accepted None
             ["config.json"; "simulate_end"] in
  exists w',
    pollCycle Demo.cfg Demo.loc 5 0 initialState w = Some (Continue initialState, w')
    /\ (forall f, In f (files w') -> In f (files w))
    /\ (forall f, f <> simulate_end -> In f (files w) -> In f (files w'))
    /\ (existsb (String.eqb simulate_end) (files w) = false -> files w' = files w)
    /\ exists evs,
         trace w' = (evs ++ trace w)%list
         /\ (forall f, In (EvRemove f) evs ->
                       f = simulate_end
                       /\ existsb (String.eqb simulate_end) (files w) = true)
         /\ (existsb (String.eqb simulate_end) (files w) = true ->
             In (EvRemove simulate_end) evs).
Proof.
  eexists. split; [lazy; reflexivity|].
  eapply (only_the_sentinel_is_removed Demo.cfg Demo.loc 5 0 initialState
            (Demo.world 0 StreamOffline Demo.accepted None
               ["config.json"; "simulate_end"])).
  lazy. reflexivity.
Defined.

Lemma transition_sessionInv cpu st st' :
  Transition cpu st st' -> sessionInv st -> sessionInv st'.
Proof.
  intros T Hi. inversion T; subst; intros s0 Hs0; cbn [session lastWasLive] in *;
    try discriminate.
  - apply Hi. exact Hs0.
  - inversion Hs0; subst. cbn. repeat split; [assumption | discriminate].
  - inversion Hs0; subst. cbn [recordPoll sess_MessageID sess_ViewerHistory].
    destruct (Hi s eq_refl) as (A & B & C).
    repeat split; [exact A|]. unfold push. intros E. apply app_eq_nil in E.
    destruct E; discriminate.
  - inversion Hs0; subst.
    cbn [refreshed recordPoll sess_MessageID sess_ViewerHistory].
    destruct (Hi s eq_refl) as (A & B & C).
    repeat split; [exact A|]. unfold push. intros E. apply app_eq_nil in E.
    destruct E; discriminate.
Qed.

(** X13: between two iterations, a session that exists holds the id of a
    message that was sent (not 0) and a viewer history that is not empty,
    and the last completed status check found the stream live. *)
Theorem session_invariant cfg cpu st :
  reachable cfg cpu st -> sessionInv st.
Proof.
  induction 1 as [|st fuel w st' w' Hr IH Hp].
  - intros s Hs. discriminate.
  - eapply transition_sessionInv; [|exact IH].
    eapply pollCycle_transition. exact Hp.
Qed.

Lemma session_invariant_witness :
  reachable Demo.cfg 5 Demo.live /\ sessionInv Demo.live.
Proof.
  assert (R : reachable Demo.cfg 5 Demo.live).
  { eapply (reachable_step Demo.cfg 5 initialState 0
              (Demo.world 0 (StreamLive Demo.info) Demo.accepted None [])).
    - apply reachable_init.
    - lazy. reflexivity. }
  split; [exact R|]. apply (session_invariant Demo.cfg 5 Demo.live R).
Defined.

(** X14: a session is never re-targeted and its history never loses a
    point: over a poll cycle that keeps the session, the message id, the
    start time and the broadcaster id stay, and the viewer history stays
    or gets one point at its end. *)
Theorem session_identity_stable cfg loc cpu fuel st w st' w' s s' :
  pollCycle cfg loc cpu fuel st w = Some (Continue st', w') ->
  session st = Some s ->
  session st' = Some s' ->
  sess_MessageID s' = sess_MessageID s
  /\ sess_StartTime s' = sess_StartTime s
  /\ sess_BroadcasterID s' = sess_BroadcasterID s
  /\ (sess_ViewerHistory s' = sess_ViewerHistory s
      \/ exists p, sess_ViewerHistory s' = (sess_ViewerHistory s ++ [p])%list).
Proof.
  intros H Hs Hs'. apply pollCycle_transition in H.
  inversion H; subst; cbn [session] in *; try discriminate.
  - rewrite Hs in Hs'. inversion Hs'; subst. repeat split. left. reflexivity.
  - inversion Hs; inversion Hs'; subst. cbn. repeat split. right. eexists. reflexivity.
  - inversion Hs; inversion Hs'; subst. cbn. repeat split. right. eexists. reflexivity.
Qed.

Lemma session_identity_stable_witness :
  let w := Demo.world 10 (StreamLive Demo.info) Demo.accepted None [] in
  let s' := recordPoll Demo.session0 1300000000000 1500 in
  exists w',
    (pollCycle Demo.cfg Demo.loc 5 0 Demo.live w
     = Some (Continue {| session := Some s'; lastWasLive := true |}, w')
     /\ session Demo.live = Some Demo.session0
     /\ session {| session := Some s'; lastWasLive := true |} = Some s')
    /\ sess_MessageID s' = sess_MessageID Demo.session0
    /\ sess_StartTime s' = sess_StartTime Demo.session0
    /\ sess_BroadcasterID s' = sess_BroadcasterID Demo.session0
    /\ (sess_ViewerHistory s' = sess_ViewerHistory Demo.session0
        \/ exists p, sess_ViewerHistory s'
                     = (sess_ViewerHistory Demo.session0 ++ [p])%list).
Proof.
  eexists. split; [split; [lazy; reflexivity | split; reflexivity]|].
  eapply (session_identity_stable Demo.cfg Demo.loc 5 0 Demo.live
            (Demo.world 10 (StreamLive Demo.info) Demo.accepted None []));
    [lazy; reflexivity | reflexivity | reflexivity].
Defined.

(** ** The poll loop: when it returns *)

Lemma iterate_never cfg loc cpu fuel : forall cycles st w,
  cancelAt (script w) = None -> iterate cfg loc cpu cycles fuel st w = None.
Proof.
  induction cycles as [|n IH]; intros st w Hc; [reflexivity|].
  cbn [iterate]. unfold bind.
  destruct (pollCycle cfg loc cpu fuel st w) as [[step w']|] eqn:Hp; [|reflexivity].
  destruct step as [|st'].
  - exfalso. assert (E : cancelled w = false) by (unfold cancelled; rewrite Hc; reflexivity).
    rewrite (pollCycle_running _ _ _ _ _ _ E) in Hp.
    revert Hp. generalize (checkStatus cfg st (advance w)). intros [[i e] w1].
    cbn [fst snd]. unfold dispatch.
    destruct e as [e|]; [rewrite endOfCycle_eq; discriminate|].
    destruct i as [i|]; destruct (session st) as [s|]; intros H.
    + apply liveBranch_result in H. discriminate.
    + apply startBranch_result in H.
      destruct H as [H|(m & t & b & k & _ & H)]; discriminate.
    + apply endBranch_result in H. discriminate.
    + rewrite endOfCycle_eq in H. discriminate.
  - pose proof (pollCycle_frame _ _ _ _ _ _ _ _ Hp) as (A & _).
    apply IH. congruence.
Qed.

(** While the stream is not live the loop variables stay the initial
    ones, and the loop does nothing but look for the sentinel, ask Twitch
    for the status, and sleep. *)
Lemma iterate_offline cfg loc cpu fuel c (P : Event -> Prop) :
  (forall f, P (EvRemove f)) -> (forall ch, P (EvGetStreamInfo ch)) ->
  (forall d b, P (EvWait d b)) ->
  forall n w,
  cancelAt (script w) = Some c ->
  (forall t info, streamInfoAt (script w) t <> StreamLive info) ->
  (c - tick w < n)%nat ->
  exists w', iterate cfg loc cpu n fuel initialState w = Some (initialState, w')
             /\ added P w w'.
Proof.
  intros Pr Pg Pw.
  induction n as [|n IH]; intros w Hc Hoff Hn; [lia|].
  cbn [iterate]. unfold bind.
  destruct (cancelled w) eqn:E.
  - rewrite pollCycle_stopped by exact E. unfold ret.
    eexists. split; [reflexivity | apply added_none; reflexivity].
  - assert (Hp : exists w1, pollCycle cfg loc cpu fuel initialState w
                          = Some (Continue initialState, w1)
                          /\ added P w w1).
    { rewrite (pollCycle_running _ _ _ _ _ _ E).
      unfold checkStatus, fileExists, osRemove, getStreamInfo.
      cbn [session initialState advance files script tick].
      destruct (existsb (String.eqb simulate_end) (files w)).
      - cbn [fst snd]. unfold dispatch. cbn [session lastWasLive initialState].
        rewrite endOfCycle_eq. eexists. split; [reflexivity|].
        eexists [_; _]. split; [reflexivity|].
        constructor; [apply Pw|]. constructor; [apply Pr | constructor].
      - destruct (streamInfoAt (script w) _) as [e| |info] eqn:Es;
          cbn [fst snd]; unfold dispatch;
          cbn [session lastWasLive initialState Bool.eqb negb].
        + rewrite endOfCycle_eq. eexists. split; [reflexivity|].
          eexists [_; _]. split; [reflexivity|].
          constructor; [apply Pw|]. constructor; [apply Pg | constructor].
        + rewrite endOfCycle_eq. eexists. split; [reflexivity|].
          eexists [_; _]. split; [reflexivity|].
          constructor; [apply Pw|]. constructor; [apply Pg | constructor].
        + exfalso. apply (Hoff _ _ Es). }
    destruct Hp as (w1 & Hp & Ha). rewrite Hp.
    pose proof (pollCycle_frame _ _ _ _ _ _ _ _ Hp) as (A & B & _).
    unfold cancelled in E. rewrite Hc in E. apply Nat.leb_gt in E.
    destruct (IH w1) as (w' & Hi & Ha');
      [congruence | rewrite A; exact Hoff | lia |].
    exists w'. split; [exact Hi | eapply added_trans; eassumption].
Qed.

(** X15: [monitorLoop] stops on cancellation, and on nothing else. With a
    context that is never cancelled no number of iterations ends it. With
    a context that is cancelled, a loop that has found the stream offline
    (or Twitch failing) at every poll returns, its variables the initial
    ones; all it did was to look for the sentinel, ask Twitch for the
    status and sleep: it sent nothing to Telegram. *)
Theorem monitorLoop_stops_on_cancellation cfg w :
  (cancelAt (script w) = None ->
   forall cycles fuel, monitorLoop cfg cycles fuel w = None)
  /\ (forall c,
        cancelAt (script w) = Some c -> cfg_CheckInterval cfg <> 0 ->
        (forall t info, streamInfoAt (script w) t <> StreamLive info) ->
        forall fuel, exists cycles w',
          monitorLoop cfg cycles fuel w = Some (initialState, w')
          /\ exists evs,
               trace w' = (evs ++ trace w)%list
               /\ Forall (fun ev => match ev with
                                    | EvRemove _ | EvGetStreamInfo _ | EvWait _ _ => True
                                    | _ => False
                                    end) evs).
Proof.
  split.
  - intros Hc cycles fuel. unfold monitorLoop.
    destruct (checksPerUpdate cfg); [|reflexivity].
    apply iterate_never. exact Hc.
  - intros c Hc H0 Hoff fuel. unfold monitorLoop, checksPerUpdate.
    apply Z.eqb_neq in H0. rewrite H0.
    match goal with |- context [iterate _ ?l ?cpu _ _ _ _] =>
      destruct (iterate_offline cfg l cpu fuel c
                  (fun ev => match ev with
                             | EvRemove _ | EvGetStreamInfo _ | EvWait _ _ => True
                             | _ => False
                             end)
                  (fun _ => I) (fun _ => I) (fun _ _ => I)
                  (S (c - tick w)) w Hc Hoff ltac:(lia)) as (w' & H & Ha) end.
    exists (S (c - tick w))%nat, w'. split; [exact H | exact Ha].
Qed.

(** The example, offline, cancelled at its interaction number 30. *)
Lemma monitorLoop_stops_on_cancellation_witness :
  let w := Demo.world 0 StreamOffline Demo.refused (Some 30%nat) [] in
  (cancelAt (script w) = Some 30%nat
   /\ cfg_CheckInterval Demo.cfg <> 0
   /\ forall t info, streamInfoAt (script w) t <> StreamLive info)
  /\ exists cycles w',
       monitorLoop Demo.cfg cycles 0 w = Some (initialState, w')
       /\ exists evs,
            trace w' = (evs ++ trace w)%list
            /\ Forall (fun ev => match ev with
                                 | EvRemove _ | EvGetStreamInfo _ | EvWait _ _ => True
                                 | _ => False
                                 end) evs.
Proof.
  assert (H : forall (t : nat) info,
             streamInfoAt
               (script (Demo.world 0 StreamOffline Demo.refused (Some 30%nat) [])) t
             <> StreamLive info) by (intros t info; discriminate).
  split; [split; [reflexivity | split; [discriminate | exact H]]|].
  apply (proj2 (monitorLoop_stops_on_cancellation Demo.cfg
                  (Demo.world 0 StreamOffline Demo.refused (Some 30%nat) []))
           30%nat eq_refl ltac:(discriminate) H 0%nat).
Defined.

(** X16: while the thumbnail cannot be downloaded, or while Telegram
    cannot be reached, and the context is not cancelled, a poll cycle that
    finds the stream live with no session never ends: the loop stays in
    the retries of the start notification and polls Twitch no more. *)
Theorem start_blocked_while_sends_fail cfg loc cpu st info bid w :
  cancelAt (script w) = None ->
  (forall t, imageAt (script w) t <> None)
  \/ (forall t, exists e, telegramAt (script w) t = HttpError e) ->
  session st = None ->
  fst (checkStatus cfg st (advance w)) = (Some info, None) ->
  fst (getBroadcasterID (cfg_Channel cfg) (snd (checkStatus cfg st (advance w))))
  = inr bid ->
  forall fuel, pollCycle cfg loc cpu fuel st w = None.
Proof.
  intros Hc Hout Hs Hst Hb fuel.
  assert (E : cancelled w = false) by (unfold cancelled; rewrite Hc; reflexivity).
  rewrite (pollCycle_running _ _ _ _ _ _ E).
  pose proof (script_checkStatus cfg st (advance w)) as S1.
  destruct (checkStatus cfg st (advance w)) as [[i e] w1]. cbn [fst snd] in *.
  inversion Hst; subst. rewrite dispatch_start by exact Hs.
  unfold startBranch. run.
  destruct (steady_getBroadcasterID (cfg_Channel cfg) w1) as [S2 _].
  destruct (getBroadcasterID (cfg_Channel cfg) w1) as [b w2]. cbn [fst snd] in *. subst b.
  destruct (steady_getThumbnailURL (cfg_Channel cfg) w2) as [S3 _].
  destruct (getThumbnailURL (cfg_Channel cfg) w2) as [th w3]. cbn [snd] in S3.
  destruct (steady_timeNow w3) as [S4 _].
  destruct (timeNow w3) as [now w4]. cbn [snd] in S4.
  assert (S5 : script w4 = script w) by (cbn [advance script] in *; congruence).
  unfold deliverStart.
  rewrite (retryWithBackoff_forever waitWith
             (sendStart th (formatStartMessage info loc) (info_URL info)
                (loc_ButtonText loc))
             (fun s => script (snd s) = script w)); [reflexivity | | exact S5].
  intros [m0 s] Hi. cbn [snd] in Hi.
  unfold sendStart. cbn [snd].
  destruct (steady_sendPhotoMessage th (formatStartMessage info loc) (info_URL info)
              (loc_ButtonText loc) s) as [K _].
  assert (F : exists e0, snd (fst (sendPhotoMessage th (formatStartMessage info loc)
                 (info_URL info) (loc_ButtonText loc) s)) = Some e0).
  { unfold sendPhotoMessage, downloadImage, httpDo.
    destruct (imageAt (script s) (tick s)) as [e0|] eqn:Ei; [cbn; eauto|].
    destruct Hout as [Hout|Hout].
    - exfalso. apply (Hout (tick s)). rewrite <- Hi. exact Ei.
    - cbn [advance script tick record]. destruct (Hout (S (tick s))) as [e1 He1].
      rewrite Hi, He1. cbn. eauto. }
  destruct (sendPhotoMessage th (formatStartMessage info loc) (info_URL info)
              (loc_ButtonText loc) s) as [[id e0] s1].
  cbn [fst snd] in F, K. destruct F as [e1 ->].
  exists e1, (id, s1). split; [reflexivity|].
  intros d. unfold waitWith, ctxWait. cbn [fst snd].
  unfold cancelled. rewrite K, Hi, Hc.
  eexists. split; [reflexivity|]. cbn. congruence.
Qed.

(** The example while the thumbnails cannot be downloaded: still in the
    retries after 100 rounds of the closing loop. *)
Lemma start_blocked_while_sends_fail_witness :
  let w := {| script := {| streamInfoAt := fun _ => StreamLive Demo.info;
                           broadcasterAt := fun _ => inr "b1";
                           clipsAt := fun _ => inr [];
                           imageAt := fun _ => Some (Errorf "status 503");
                           telegramAt := fun _ => Demo.accepted;
                           nowAt := fun k => Z.of_nat k * 100000000000;
                           cancelAt := None |};
              tick := 0; files := []; trace := [] |} in
  (cancelAt (script w) = None
   /\ session initialState = None
   /\ fst (checkStatus Demo.cfg initialState (advance w)) = (Some Demo.info, None)
   /\ fst (getBroadcasterID (cfg_Channel Demo.cfg)
             (snd (checkStatus Demo.cfg initialState (advance w)))) = inr "b1")
  /\ pollCycle Demo.cfg Demo.loc 5 100 initialState w = None.
Proof.
  split; [repeat split|].
  eapply (start_blocked_while_sends_fail Demo.cfg Demo.loc 5 initialState Demo.info "b1");
    [reflexivity | left; intros t; discriminate | reflexivity | reflexivity | reflexivity].
Defined.

(** ** Polls that change nothing *)

(** X22: a status check that fails (Twitch cannot be reached, or answers
    with an error) never ends or alters a session: the cycle keeps the
    loop variables as they are and only sleeps for the check interval,
    with no request to Telegram; and an offline answer while there is no
    session does the same, with [lastWasLive] false. *)
Theorem quiet_polls cfg loc cpu st w :
  cancelled w = false ->
  let w1 := snd (checkStatus cfg st (advance w)) in
  (forall e, snd (fst (checkStatus cfg st (advance w))) = Some e ->
     forall fuel,
       pollCycle cfg loc cpu fuel st w
       = Some (Continue st, snd (ctxWait (cfg_CheckInterval cfg) w1)))
  /\ (fst (checkStatus cfg st (advance w)) = (None, None) -> session st = None ->
      forall fuel,
        pollCycle cfg loc cpu fuel st w
        = Some (Continue {| session := None; lastWasLive := false |},
                snd (ctxWait (cfg_CheckInterval cfg) w1))).
Proof.
  intros Hc w1. split.
  - intros e He fuel. rewrite (pollCycle_running _ _ _ _ _ _ Hc).
    rewrite He. unfold dispatch. apply endOfCycle_eq.
  - intros Hst Hs fuel. rewrite (pollCycle_running _ _ _ _ _ _ Hc).
    rewrite Hst. cbn [fst snd]. unfold dispatch. rewrite Hs.
    destruct (lastWasLive st); apply endOfCycle_eq.
Qed.

(** Twitch answers with an error while the session of the example
    exists: the session is kept, and the cycle asked Twitch and slept. *)
Lemma quiet_polls_witness :
  let w := Demo.world 10 (StreamError (Errorf "rate limited (429)")) Demo.accepted
             None [] in
  (cancelled w = false
   /\ snd (fst (checkStatus Demo.cfg Demo.live (advance w)))
      = Some (Errorf "rate limited (429)"))
  /\ Demo.ending (pollCycle Demo.cfg Demo.loc 5 0 Demo.live w)
     = Some (Continue Demo.live)
  /\ Demo.effects (pollCycle Demo.cfg Demo.loc 5 0 Demo.live w)
     = Some [EvGetStreamInfo "chan"; EvWait 60 false].
Proof.
  split; [split; reflexivity|].
  rewrite (proj1 (quiet_polls Demo.cfg Demo.loc 5 Demo.live
                    (Demo.world 10 (StreamError (Errorf "rate limited (429)"))
                       Demo.accepted None [])
                    eq_refl)
             (Errorf "rate limited (429)") eq_refl 0%nat).
  split; reflexivity.
Defined.


(** ** [loadConfig] *)

(** X17: a configuration that [loadConfig] returns has a check interval
    and an update interval that are not 0 and a language that is not
    empty, whatever the file and the environment hold: the division by
    the check interval at the start of [monitorLoop] cannot panic on
    it. *)
Theorem loadConfig_intervals_set path source getenv cfg :
  loadConfig path source getenv = inr cfg ->
  cfg_CheckInterval cfg <> 0
  /\ cfg_UpdateInterval cfg <> 0
  /\ cfg_Language cfg <> ""
  /\ exists cpu, checksPerUpdate cfg = Some cpu.
Proof.
  unfold loadConfig. destruct source as [|e|file]; try discriminate.
  intros H. inversion H; subst. clear H.
  assert (A : (if cfg_CheckInterval file =? 0 then 60 else cfg_CheckInterval file) <> 0).
  { destruct (Z.eqb_spec (cfg_CheckInterval file) 0); [discriminate | assumption]. }
  unfold checksPerUpdate. cbn [cfg_CheckInterval cfg_UpdateInterval cfg_Language].
  split; [exact A|]. split; [|split].
  - destruct (Z.eqb_spec (cfg_UpdateInterval file) 0); [discriminate | assumption].
  - destruct (cfg_Language file); cbn; discriminate.
  - apply Z.eqb_neq in A. rewrite A. eauto.
Qed.

(** A file that gives the channel only: the defaults are 60 s, 5 min and
    Russian, and the threshold is 5 polls. *)
Lemma loadConfig_intervals_set_witness :
  let file := {| cfg_Channel := "chan"; cfg_ClientID := ""; cfg_ClientSecret := "";
                 cfg_BotToken := ""; cfg_ChatID := 0; cfg_ThreadID := None;
                 cfg_Language := ""; cfg_CheckInterval := 0;
                 cfg_UpdateInterval := 0 |} in
  exists cfg,
    loadConfig "config.json" (ConfigParsed file) (fun _ => "") = inr cfg
    /\ cfg_CheckInterval cfg <> 0
    /\ cfg_UpdateInterval cfg <> 0
    /\ cfg_Language cfg <> ""
    /\ exists cpu, checksPerUpdate cfg = Some cpu.
Proof.
  eexists. split; [reflexivity|].
  apply (loadConfig_intervals_set "config.json"
           (ConfigParsed {| cfg_Channel := "chan"; cfg_ClientID := "";
                            cfg_ClientSecret := ""; cfg_BotToken := "";
                            cfg_ChatID := 0; cfg_ThreadID := None;
                            cfg_Language := ""; cfg_CheckInterval := 0;
                            cfg_UpdateInterval := 0 |})
           (fun _ => "")).
  reflexivity.
Defined.

(** X18: the two defaults for the language differ. A file that names no
    language is run in Russian ([loadConfig] fills in "ru"); a file that
    names a language other than "ru" and "en" is run in English
    ([getLocalization] falls back to "en"). *)
Theorem language_defaults path file getenv :
  exists cfg,
    loadConfig path (ConfigParsed file) getenv = inr cfg
    /\ (cfg_Language file = "" ->
        getLocalization (cfg_Language cfg) = localization_ru)
    /\ (cfg_Language file = "ru" ->
        getLocalization (cfg_Language cfg) = localization_ru)
    /\ (cfg_Language file <> "" -> cfg_Language file <> "ru" ->
        getLocalization (cfg_Language cfg) = localization_en).
Proof.
  eexists. split; [reflexivity|]. cbn [cfg_Language].
  split; [|split].
  - intros ->. reflexivity.
  - intros ->. reflexivity.
  - intros H1 H2. apply nonempty_true in H1. rewrite H1.
    unfold getLocalization.
    destruct (String.eqb (cfg_Language file) "en"); [reflexivity|].
    apply String.eqb_neq in H2. rewrite H2. reflexivity.
Qed.


(** ** [formatDuration]: float64 arithmetic on durations *)

Lemma pow2_split a b : 0 <= a -> 0 <= b -> 2 ^ (a + b) = 2 ^ a * 2 ^ b.
Proof. intros. apply Z.pow_add_r; assumption. Qed.

Lemma pow2_pos a : 0 <= a -> 0 < 2 ^ a.
Proof. intros. apply Z.pow_pos_nonneg; lia. Qed.

(** The exponent of [float64(H)] for an [H] of [b] bits. *)
Lemma of_int_bits H b :
  2 ^ (b - 1) <= H < 2 ^ b -> 1 <= b <= 53 ->
  exists m, F64.of_int H = S754_finite false m (b - 53)
            /\ Zpos m = H * 2 ^ (53 - b).
Proof.
  intros HH Hb.
  assert (H0 : 0 < H) by (pose proof (pow2_pos (b - 1) ltac:(lia)); lia).
  assert (H53 : H < 2 ^ 53).
  { eapply Z.lt_le_trans; [apply HH|]. apply Z.pow_le_mono_r; lia. }
  destruct (of_int_spec H ltac:(split; [lia|]; eapply Z.lt_trans; [exact H53|]; reflexivity))
    as (m & e & E & Bm & [(_ & Be & Em)|(C & _)]); [|lia].
  assert (Ee : - e = 53 - b).
  { set (a := - e) in *. assert (Ha : 0 <= a <= 52) by (unfold a; lia).
    rewrite Em in Bm.
    destruct (Z.lt_trichotomy a (53 - b)) as [L|[L|L]]; [exfalso|exact L|exfalso].
    - (* too few shifts: below 2^52 *)
      assert (2 ^ a * 2 ^ b <= 2 ^ 52).
      { rewrite <- pow2_split by lia. apply Z.pow_le_mono_r; lia. }
      pose proof (pow2_pos a ltac:(lia)). nia.
    - (* too many shifts: at least 2^53 *)
      assert (2 ^ 53 <= 2 ^ (b - 1) * 2 ^ a).
      { rewrite <- pow2_split by lia. apply Z.pow_le_mono_r; lia. }
      pose proof (pow2_pos a ltac:(lia)). nia. }
  exists m. replace (b - 53) with e by lia. split; [exact E|].
  rewrite Em, Ee. reflexivity.
Qed.

Lemma to_int_of_int H b :
  2 ^ (b - 1) <= H < 2 ^ b -> 1 <= b <= 53 ->
  F64.to_int (F64.of_int H) = H.
Proof.
  intros HH Hb. destruct (of_int_bits H b HH Hb) as (m & E & Em).
  rewrite E. unfold F64.to_int.
  assert (H53 : H < 2 ^ 53).
  { eapply Z.lt_le_trans; [apply HH|]. apply Z.pow_le_mono_r; lia. }
  assert (H0 : 0 < H) by (pose proof (pow2_pos (b - 1) ltac:(lia)); lia).
  destruct (Z.leb_spec 0 (b - 53)).
  - assert (b = 53) by lia. subst b. change (53 - 53) with 0 in *.
    rewrite Em. rewrite Z.pow_0_r, !Z.mul_1_r. apply wrap_id.
    unfold int_min, int_max. lia.
  - replace (- (b - 53)) with (53 - b) by lia. rewrite Em.
    rewrite Z.div_mul by (pose proof (pow2_pos (53 - b) ltac:(lia)); lia).
    apply wrap_id. unfold int_min, int_max. lia.
Qed.

(** An integer of [b] bits plus a fraction [mq / 2^g] that stays below 1
    by more than one unit in the last place of the sum: the sum, rounded,
    still has the integer part [H]. *)
Lemma add_int_frac H (mq : positive) g b :
  2 ^ (b - 1) <= H < 2 ^ b -> 1 <= b <= 52 -> 52 <= g <= 1000 ->
  Zpos mq + 2 ^ (g + b - 53) < 2 ^ g ->
  F64.to_int (F64.add (F64.of_int H) (S754_finite false mq (- g))) = H.
Proof.
  intros HH Hb Hg Hgap.
  destruct (of_int_bits H b HH ltac:(lia)) as (mH & E & EmH).
  assert (H0 : 0 < H) by (pose proof (pow2_pos (b - 1) ltac:(lia)); lia).
  rewrite E. unfold F64.add, SFadd.
  replace (IntDef.Z.min (b - 53) (- g)) with (- g) by (symmetry; apply Z.min_r; lia).
  set (k := g + b - 53) in *.
  assert (Hk : 0 <= k) by (unfold k; lia).
  assert (P53 : 0 < 2 ^ (53 - b)) by (apply pow2_pos; lia).
  assert (Pk : 0 < 2 ^ k) by (apply pow2_pos; lia).
  assert (Eg : 2 ^ g = 2 ^ (53 - b) * 2 ^ k).
  { rewrite <- pow2_split by lia. f_equal. unfold k. lia. }
  (* the aligned mantissa of H *)
  assert (A1 : Zpos (fst (shl_align mH (b - 53) (- g))) = H * 2 ^ g).
  { unfold shl_align. replace (- g - (b - 53)) with (- k) by (unfold k; lia).
    destruct k as [|p|p] eqn:Ek; try lia.
    - cbn [Z.opp fst]. rewrite EmH, Eg, Z.pow_0_r. lia.
    - cbn [Z.opp fst]. rewrite iter_xO_pow, EmH, Eg. lia. }
  assert (A2 : fst (shl_align mq (- g) (- g)) = mq).
  { unfold shl_align. rewrite Z.sub_diag. reflexivity. }
  rewrite A2. unfold cond_Zopp.
  set (pH := fst (shl_align mH (b - 53) (- g))) in *.
  change (Z.pos pH + Z.pos mq) with (Z.pos (pH + mq)).
  unfold binary_normalize, binary_round.
  set (M := (pH + mq)%positive).
  assert (EM : Zpos M = H * 2 ^ g + Zpos mq) by (unfold M; rewrite Pos2Z.inj_add, A1; reflexivity).
  assert (Pg : 0 < 2 ^ g) by (apply pow2_pos; lia).
  assert (DM : Zdigits2 (Zpos M) = b + g).
  { apply Zdigits2_unique; [|lia]. rewrite EM.
    replace (b + g - 1) with ((b - 1) + g) by lia.
    rewrite !pow2_split by lia. split; [nia|].
    assert (Zpos mq < 2 ^ g) by lia. nia. }
  change (Z.pos (digits2_pos M)) with (Zdigits2 (Zpos M)). rewrite DM.
  unfold fexp, emin, F64.prec, F64.emax. change IntDef.Z.max with Z.max.
  replace (Z.max (b + g + - g - 53) (3 - 1024 - 53)) with (b - 53) by lia.
  assert (A3 : shl_align M (- g) (b - 53) = (M, - g)).
  { unfold shl_align. replace (b - 53 - - g) with k by (unfold k; lia).
    destruct k; try lia; reflexivity. }
  rewrite A3.
  destruct (binary_round_aux_spec false (Zpos M) (- g) loc_Exact ltac:(lia)
              ltac:(rewrite DM; lia) ltac:(rewrite DM; lia))
    as (m & e & R & Bm & Hm).
  unfold F64.prec, F64.emax in R. rewrite R. rewrite DM in Hm.
  replace (b + g - 53) with k in Hm by (unfold k; lia).
  (* the bounds of the shifted sum *)
  assert (F1 : H * 2 ^ (53 - b) <= Zpos M / 2 ^ k).
  { apply Z.div_le_lower_bound; [lia|]. rewrite EM, Eg. nia. }
  assert (F2 : Zpos M / 2 ^ k < (H + 1) * 2 ^ (53 - b) - 1).
  { apply Z.div_lt_upper_bound; [lia|]. rewrite EM.
    assert (2 ^ k * ((H + 1) * 2 ^ (53 - b) - 1) = (H + 1) * 2 ^ g - 2 ^ k)
      by (rewrite Eg; ring).
    lia. }
  assert (F3 : (H + 1) * 2 ^ (53 - b) <= 2 ^ 53).
  { replace 53 with (b + (53 - b)) at 2 by lia. rewrite pow2_split by lia. nia. }
  destruct Hm as [[Hm He]|[Hc _]]; [|lia].
  unfold F64.to_int. replace e with (b - 53) by (unfold k in He; lia).
  destruct (Z.leb_spec 0 (b - 53)); [lia|].
  replace (- (b - 53)) with (53 - b) by lia.
  assert (Q : Zpos m / 2 ^ (53 - b) = H).
  { symmetry. apply (Z.div_unique _ _ _ (Zpos m - H * 2 ^ (53 - b))); lia. }
  rewrite Q. apply wrap_id.
  assert (H < 2 ^ 52).
  { eapply Z.lt_le_trans; [apply HH|]. apply Z.pow_le_mono_r; lia. }
  unfold int_min, int_max. lia.
Qed.

(** The fraction [r / unit] of a duration, as the division returns it. *)
Lemma frac_spec r unit g0 (m2 : positive) :
  0 < r < unit -> unit < 2 ^ 53 ->
  0 <= g0 <= 50 ->
  Zpos m2 = unit * 2 ^ g0 ->
  2 ^ 52 <= Zpos m2 < 2 ^ 53 ->
  exists mq g,
    F64.div (F64.of_int r) (S754_finite false m2 (- g0)) = S754_finite false mq (- g)
    /\ 52 <= g <= 1000
    /\ unit * Zpos mq < r * 2 ^ g + 3 * unit.
Proof.
  intros Hr Hu Hg0 Em2 Bm2.
  destruct (quotient_spec r unit g0 m2 ltac:(lia) ltac:(lia) Hg0 Em2 Bm2)
    as (m & e & D & Bm & He & A).
  exists m, (- e). rewrite Z.opp_involutive. split; [exact D|].
  set (g := - e) in *. assert (Hg : 0 <= g) by (unfold g; lia).
  assert (Pg : 0 < 2 ^ g) by (apply pow2_pos; lia).
  split; [|lia].
  split.
  - destruct (Z_le_gt_dec 52 g) as [L|L]; [exact L|exfalso].
    assert (2 ^ g <= 2 ^ 51) by (apply Z.pow_le_mono_r; lia).
    assert (r * 2 ^ g <= r * 2 ^ 51) by (apply Z.mul_le_mono_nonneg_l; lia).
    assert (unit * 2 ^ 52 <= unit * Zpos m) by (apply Z.mul_le_mono_nonneg_l; lia).
    change (2 ^ 52) with (2 * 2 ^ 51) in *. change (2 ^ 51) with 2251799813685248 in *.
    lia.
  - destruct (Z_le_gt_dec g 1000) as [L|L]; [exact L|exfalso].
    assert (2 ^ 107 <= 2 ^ g) by (apply Z.pow_le_mono_r; lia).
    assert (2 ^ g <= r * 2 ^ g) by nia.
    assert (unit * Zpos m < 2 ^ 53 * 2 ^ 53) by nia.
    change (2 ^ 107) with (2 ^ 53 * 2 ^ 53 * 2) in *.
    change (2 ^ 53) with 9007199254740992 in *. lia.
Qed.

(** [int(d.Hours())] and [int(d.Minutes())]: the whole units of a
    duration, as long as their number has at most [bmax] bits. *)
Lemma duration_units d unit g0 (m2 : positive) bmax :
  0 <= d -> 0 < unit < 2 ^ 53 ->
  1 <= bmax <= 52 -> d / unit < 2 ^ bmax ->
  F64.of_int unit = S754_finite false m2 (- g0) ->
  0 <= g0 <= 50 ->
  Zpos m2 = unit * 2 ^ g0 ->
  2 ^ 52 <= Zpos m2 < 2 ^ 53 ->
  (forall g, 52 <= g -> 3 * unit + unit * 2 ^ (g + bmax - 53) <= 2 ^ g) ->
  F64.to_int (F64.add (F64.of_int (Z.quot d unit))
                      (F64.div (F64.of_int (Z.rem d unit)) (F64.of_int unit)))
  = d / unit.
Proof.
  intros Hd Hu Hb Hq Eu Hg0 Em2 Bm2 Hgap.
  rewrite Z.quot_div_nonneg, Z.rem_mod_nonneg by lia.
  set (H := d / unit) in *. set (r := d mod unit).
  assert (HH : 0 <= H) by (apply Z.div_pos; lia).
  assert (Hr : 0 <= r < unit) by (apply Z.mod_pos_bound; lia).
  rewrite Eu.
  destruct (Z.eq_dec r 0) as [R0|R0].
  - (* no fraction *)
    rewrite R0. change (F64.of_int 0) with (S754_zero false).
    change (F64.div (S754_zero false) (S754_finite false m2 (- g0)))
      with (S754_zero false).
    destruct (Z.eq_dec H 0) as [H0|H0]; [rewrite H0; reflexivity|].
    assert (B : 2 ^ (Z.log2 H + 1 - 1) <= H < 2 ^ (Z.log2 H + 1)).
    { replace (Z.log2 H + 1 - 1) with (Z.log2 H) by lia.
      replace (Z.log2 H + 1) with (Z.succ (Z.log2 H)) by lia.
      apply Z.log2_spec. lia. }
    assert (Lb : Z.log2 H + 1 <= bmax).
    { pose proof (Z.log2_lt_pow2 H bmax ltac:(lia)) as L. lia. }
    pose proof (Z.log2_nonneg H) as Ln.
    destruct (of_int_bits H (Z.log2 H + 1) B ltac:(lia)) as (mH & E & _).
    rewrite E. change (F64.add (S754_finite false mH (Z.log2 H + 1 - 53)) (S754_zero false))
      with (S754_finite false mH (Z.log2 H + 1 - 53)).
    rewrite <- E. apply (to_int_of_int H (Z.log2 H + 1)); [exact B | lia].
  - destruct (frac_spec r unit g0 m2 ltac:(lia) ltac:(lia) Hg0 Em2 Bm2)
      as (mq & g & D & Bg & A).
    rewrite D. pose proof (Hgap g ltac:(lia)) as G.
    assert (Pg : 0 < 2 ^ g) by (apply pow2_pos; lia).
    assert (Pk : 0 < 2 ^ (g + bmax - 53)) by (apply pow2_pos; lia).
    assert (Q1 : Zpos mq < 2 ^ g) by nia.
    destruct (Z.eq_dec H 0) as [H0|H0].
    + (* less than one unit *)
      rewrite H0. change (F64.of_int 0) with (S754_zero false).
      change (F64.add (S754_zero false) (S754_finite false mq (- g)))
        with (S754_finite false mq (- g)).
      unfold F64.to_int. destruct (Z.leb_spec 0 (- g)); [lia|].
      rewrite Z.opp_involutive, Z.div_small by lia. reflexivity.
    + assert (B : 2 ^ (Z.log2 H + 1 - 1) <= H < 2 ^ (Z.log2 H + 1)).
      { replace (Z.log2 H + 1 - 1) with (Z.log2 H) by lia.
        replace (Z.log2 H + 1) with (Z.succ (Z.log2 H)) by lia.
        apply Z.log2_spec. lia. }
      assert (Lb : Z.log2 H + 1 <= bmax).
      { pose proof (Z.log2_lt_pow2 H bmax ltac:(lia)) as L. lia. }
      pose proof (Z.log2_nonneg H) as Ln.
      apply (add_int_frac H mq g (Z.log2 H + 1)); [exact B | lia | lia |].
      assert (2 ^ (g + (Z.log2 H + 1) - 53) <= 2 ^ (g + bmax - 53))
        by (apply Z.pow_le_mono_r; lia).
      nia.
Qed.

Lemma of_int_Hour : F64.of_int Hour = S754_finite false 7372800000000000 (- 11).
Proof. vm_compute. reflexivity. Qed.

Lemma of_int_Minute : F64.of_int Minute = S754_finite false 7864320000000000 (- 17).
Proof. vm_compute. reflexivity. Qed.

Lemma durationHours_spec d :
  0 <= d < 2048 * Hour -> F64.to_int (durationHours d) = d / Hour.
Proof.
  intros Hd. unfold durationHours.
  apply (duration_units d Hour 11 7372800000000000 11).
  - lia.
  - unfold Hour, Minute. lia.
  - lia.
  - apply Z.div_lt_upper_bound; [unfold Hour, Minute; lia|].
    change (2 ^ 11) with 2048. lia.
  - exact of_int_Hour.
  - lia.
  - reflexivity.
  - lia.
  - intros g Hg. replace (g + 11 - 53) with (g - 42) by lia.
    replace g with (42 + (g - 42)) at 2 by lia. rewrite pow2_split by lia.
    assert (2 ^ 10 <= 2 ^ (g - 42)) by (apply Z.pow_le_mono_r; lia).
    change (2 ^ 10) with 1024 in *. change (2 ^ 42) with 4398046511104.
    unfold Hour, Minute. lia.
Qed.

Lemma durationMinutes_spec d :
  0 <= d < 2048 * Hour -> F64.to_int (durationMinutes d) = d / Minute.
Proof.
  intros Hd. unfold durationMinutes.
  apply (duration_units d Minute 17 7864320000000000 17).
  - lia.
  - unfold Minute. lia.
  - lia.
  - apply Z.div_lt_upper_bound; [unfold Minute; lia|].
    change (2 ^ 17) with 131072. unfold Hour, Minute in *. lia.
  - exact of_int_Minute.
  - lia.
  - reflexivity.
  - lia.
  - intros g Hg. replace (g + 17 - 53) with (g - 36) by lia.
    replace g with (36 + (g - 36)) at 2 by lia. rewrite pow2_split by lia.
    assert (2 ^ 16 <= 2 ^ (g - 36)) by (apply Z.pow_le_mono_r; lia).
    change (2 ^ 16) with 65536 in *. change (2 ^ 36) with 68719476736.
    unfold Minute. lia.
Qed.

(** X19: for a duration from 0 to 2048 hours (in nanoseconds),
    [formatDuration] shows the whole hours [d / Hour] and the whole
    minutes of the last hour [(d / Minute) mod 60], the float64 detour of
    [Duration.Hours] and [Duration.Minutes] notwithstanding; the hours
    are left out when there is none. The units are Russian for "ru" and
    English for every other language. *)
Theorem formatDuration_whole_units d lang :
  0 <= d < 2048 * Hour ->
  let hours := d / Hour in
  let minutes := (d / Minute) mod 60 in
  formatDuration d lang
  = if String.eqb lang "ru" then
      if 0 <? hours then itoa hours ++ " ч " ++ itoa minutes ++ " мин"
      else itoa minutes ++ " мин"
    else
      if 0 <? hours then itoa hours ++ " h " ++ itoa minutes ++ " m"
      else itoa minutes ++ " m".
Proof.
  intros Hd hours minutes. unfold formatDuration.
  rewrite durationHours_spec, durationMinutes_spec by exact Hd.
  unfold int_rem. rewrite Z.rem_mod_nonneg; [reflexivity | | lia].
  apply Z.div_pos; [lia | unfold Minute; lia].
Qed.

(** One hour, two minutes and 59.999999999 seconds. *)
Lemma formatDuration_whole_units_witness :
  0 <= 3779999999999 < 2048 * Hour
  /\ formatDuration 3779999999999 "en" = "1 h 2 m".
Proof.
  split; [unfold Hour, Minute; lia|].
  rewrite (formatDuration_whole_units 3779999999999 "en")
    by (unfold Hour, Minute; lia).
  vm_compute. reflexivity.
Defined.


(** ** [viewerTrend] when the early half has no viewers *)

Lemma sumCounts_zeros j : sumCounts (counts (repeat 0 j)) = F64.zero.
Proof.
  unfold sumCounts. induction j as [|j IH]; [reflexivity|].
  cbn [repeat counts map fold_left]. exact IH.
Qed.

Lemma sumCounts_zeros_then j c :
  sumCounts (counts (repeat 0 j ++ [c])) = F64.add F64.zero (F64.of_int c).
Proof.
  unfold sumCounts, counts. rewrite map_app, fold_left_app.
  fold (counts (repeat 0 j)). fold (sumCounts (counts (repeat 0 j))).
  rewrite sumCounts_zeros. reflexivity.
Qed.

Lemma firstn_repeat_app {A : Type} (x : A) a b rest :
  firstn a (repeat x (a + b) ++ rest) = repeat x a.
Proof.
  induction a as [|a IH]; [reflexivity|]. cbn. rewrite IH. reflexivity.
Qed.

Lemma skipn_repeat_app {A : Type} (x : A) a b rest :
  skipn a (repeat x (a + b) ++ rest) = (repeat x b ++ rest)%list.
Proof. induction a as [|a IH]; [reflexivity|]. cbn. exact IH. Qed.

Lemma of_int_finite n :
  0 < n < 2 ^ 63 ->
  exists m e, F64.of_int n = S754_finite false m e
              /\ 2 ^ 52 <= Zpos m < 2 ^ 53 /\ -52 <= e <= 11.
Proof.
  intros Hn. destruct (of_int_spec n Hn) as (m & e & E & B & [(_ & He & _)|(_ & He)]);
    exists m, e; (split; [exact E|]); (split; [exact B | lia]).
Qed.

(** X20: the division by zero in [viewerTrend]. A history of at least
    three polls without viewers followed by a poll with some has an early
    mean of 0; the relative change is then +Inf, and the trend shown is
    "growing". *)
Theorem viewerTrend_first_viewers k c loc :
  (3 <= k)%nat -> Z.of_nat k < int_max -> 0 < c <= int_max ->
  viewerTrend (counts (repeat 0 k ++ [c])) loc = loc_Growing loc.
Proof.
  intros Hk Hk' Hc. unfold int_max in *. unfold viewerTrend.
  assert (L : List.length (counts (repeat 0 k ++ [c])) = S k).
  { unfold counts. rewrite length_map, length_app, repeat_length. cbn. lia. }
  unfold len. rewrite L.
  replace (Z.of_nat (S k) <? 4) with false by (symmetry; apply Z.ltb_ge; lia).
  set (mid := (S k / 2)%nat).
  assert (Hm : (2 <= mid <= k)%nat).
  { unfold mid. split.
    - apply Nat.div_le_lower_bound; lia.
    - apply Nat.Div0.div_le_upper_bound. lia. }
  assert (Ek : k = (mid + (k - mid))%nat) by lia.
  assert (E1 : firstn mid (counts (repeat 0 k ++ [c])) = counts (repeat 0 mid)).
  { unfold counts. rewrite firstn_map. f_equal. rewrite Ek at 1.
    apply firstn_repeat_app. }
  assert (E2 : skipn mid (counts (repeat 0 k ++ [c]))
               = counts (repeat 0 (k - mid) ++ [c])).
  { unfold counts. rewrite skipn_map. f_equal. rewrite Ek at 1.
    apply skipn_repeat_app. }
  rewrite E1, E2, sumCounts_zeros, sumCounts_zeros_then.
  destruct (of_int_finite c ltac:(lia)) as (mc & ec & Ec & Bc & Rc).
  destruct (of_int_finite (Z.of_nat mid) ltac:(lia)) as (mm & em & Em & Bm & Rm).
  destruct (of_int_finite (Z.of_nat (S k) - Z.of_nat mid) ltac:(lia))
    as (ml & el & El & Bl & Rl).
  rewrite Ec, Em, El.
  change (F64.add F64.zero (S754_finite false mc ec)) with (S754_finite false mc ec).
  change (F64.div F64.zero (S754_finite false mm em)) with (S754_zero false).
  destruct (div_spec mc ml ec el Bc Bl ltac:(lia)) as (m & e & D & _).
  rewrite D.
  change (F64.sub (S754_finite false m e) (S754_zero false))
    with (S754_finite false m e).
  change (F64.div (S754_finite false m e) (S754_zero false))
    with (S754_infinity false).
  replace (F64.ltb (F64.lit 7 100) (S754_infinity false)) with true
    by (vm_compute; reflexivity).
  reflexivity.
Qed.

Lemma viewerTrend_first_viewers_witness :
  ((3 <= 3)%nat /\ Z.of_nat 3 < int_max /\ 0 < 5 <= int_max)
  /\ viewerTrend (counts [0; 0; 0; 5]) localization_en = "growing".
Proof.
  split; [unfold int_max; lia|].
  apply (viewerTrend_first_viewers 3 5 localization_en);
    unfold int_max; lia.
Defined.

(** ** The refresh threshold *)

(** X21: with a check interval and an update interval that are positive
    (and an update interval whose seconds fit an [int]), the threshold is
    the number of whole check intervals in the update interval. When the
    update interval is the shorter one the threshold is 0, and every live
    poll of a session refreshes the message. *)
Theorem checksPerUpdate_whole_intervals cfg :
  0 < cfg_CheckInterval cfg <= int_max ->
  0 <= cfg_UpdateInterval cfg -> 60 * cfg_UpdateInterval cfg <= int_max ->
  exists cpu,
    checksPerUpdate cfg = Some cpu
    /\ cpu * cfg_CheckInterval cfg <= 60 * cfg_UpdateInterval cfg
       < (cpu + 1) * cfg_CheckInterval cfg
    /\ (60 * cfg_UpdateInterval cfg < cfg_CheckInterval cfg ->
        forall st s info now viewers,
          reachable cfg cpu st -> session st = Some s ->
          refreshDue cpu info (recordPoll s now viewers) = true).
Proof.
  intros HC HU HU'. unfold checksPerUpdate.
  replace (cfg_CheckInterval cfg =? 0) with false by (symmetry; apply Z.eqb_neq; lia).
  eexists. split; [reflexivity|].
  unfold int_mul, int_quo.
  rewrite (wrap_id (cfg_UpdateInterval cfg * 60)) by (unfold int_min, int_max in *; lia).
  rewrite Z.quot_div_nonneg by lia.
  set (q := cfg_UpdateInterval cfg * 60 / cfg_CheckInterval cfg).
  assert (Hq : 0 <= q <= cfg_UpdateInterval cfg * 60).
  { unfold q. split; [apply Z.div_pos; lia|].
    apply Z.div_le_upper_bound; [lia|]. nia. }
  rewrite wrap_id by (unfold int_min, int_max in *; lia).
  pose proof (Z.div_mod (cfg_UpdateInterval cfg * 60) (cfg_CheckInterval cfg)
                ltac:(lia)) as D.
  pose proof (Z.mod_pos_bound (cfg_UpdateInterval cfg * 60) (cfg_CheckInterval cfg)
                ltac:(lia)) as M.
  fold q in D. split; [lia|].
  intros Hshort st s info now viewers Hr Hs.
  assert (q = 0) by (unfold q; apply Z.div_small; lia).
  destruct (reachable_counterInv cfg q st ltac:(unfold int_max in *; lia) Hr s Hs)
    as [C0 C1].
  unfold refreshDue. cbn [recordPoll sess_UpdateCounter].
  apply orb_true_iff. left. apply Z.leb_le.
  assert (C : sess_UpdateCounter s = 0) by lia.
  rewrite C, H. vm_compute. discriminate.
Qed.

(** Check interval 61 s, update interval 1 min. *)
Lemma checksPerUpdate_whole_intervals_witness :
  (0 < cfg_CheckInterval Demo.cfg61 <= int_max
   /\ 0 <= cfg_UpdateInterval Demo.cfg61
   /\ 60 * cfg_UpdateInterval Demo.cfg61 <= int_max)
  /\ exists cpu,
       checksPerUpdate Demo.cfg61 = Some cpu
       /\ cpu * cfg_CheckInterval Demo.cfg61 <= 60 * cfg_UpdateInterval Demo.cfg61
          < (cpu + 1) * cfg_CheckInterval Demo.cfg61
       /\ (60 * cfg_UpdateInterval Demo.cfg61 < cfg_CheckInterval Demo.cfg61 ->
           forall st s info now viewers,
             reachable Demo.cfg61 cpu st -> session st = Some s ->
             refreshDue cpu info (recordPoll s now viewers) = true).
Proof.
  split; [unfold int_max; cbn; lia|].
  apply (checksPerUpdate_whole_intervals Demo.cfg61); unfold int_max; cbn; lia.
Defined.


(** ** The markup of the start message *)

Lemma countByte_app c a b :
  countByte c (a ++ b) = (countByte c a + countByte c b)%nat.
Proof.
  induction a as [|x a IH]; [reflexivity|]. cbn [append countByte].
  rewrite IH. lia.
Qed.

Lemma countByte_escapeHTML s :
  countByte "<" (escapeHTML s) = 0%nat /\ countByte ">" (escapeHTML s) = 0%nat.
Proof.
  induction s as [|x s [IH1 IH2]]; [split; reflexivity|].
  rewrite escapeHTML_cons, escapeHTML_byte, !countByte_app, IH1, IH2.
  destruct (Ascii.eqb_spec x "&") as [->|H1]; [split; reflexivity|].
  destruct (Ascii.eqb_spec x "<") as [->|H2]; [split; reflexivity|].
  destruct (Ascii.eqb_spec x ">") as [->|H3]; [split; reflexivity|].
  cbn [countByte].
  apply Ascii.eqb_neq in H2, H3. rewrite H2, H3. split; reflexivity.
Qed.

(** X24: the channel, the game and the title bring no markup into the
    start message. Its [<] and [>] are those of [<b>], [</b>] and, when
    there is a title, [<i>], [</i>], besides what the localised word and
    the tags, which are not escaped, hold themselves. *)
Theorem formatStartMessage_markup info loc :
  let own := (2 + (if nonempty (info_Title info) then 2 else 0))%nat in
  countByte "<" (formatStartMessage info loc)
  = (own + countByte "<" (loc_StartedStreaming loc)
     + countByte "<" (formatTags (info_Tags info)))%nat
  /\ countByte ">" (formatStartMessage info loc)
     = (own + countByte ">" (loc_StartedStreaming loc)
        + countByte ">" (formatTags (info_Tags info)))%nat.
Proof.
  cbv zeta. unfold formatStartMessage. cbv zeta.
  destruct (countByte_escapeHTML (info_Channel info)) as [C1 C2].
  destruct (countByte_escapeHTML (info_Game info)) as [G1 G2].
  destruct (countByte_escapeHTML (info_Title info)) as [T1 T2].
  assert (E : nonempty (formatTags (info_Tags info)) = false ->
              countByte "<" (formatTags (info_Tags info)) = 0%nat
              /\ countByte ">" (formatTags (info_Tags info)) = 0%nat).
  { intros H. apply nonempty_false in H. rewrite H. split; reflexivity. }
  destruct (nonempty (info_Game info)); destruct (nonempty (info_Title info));
    destruct (nonempty (formatTags (info_Tags info)));
    try (destruct (E eq_refl) as [E1 E2]; rewrite E1, E2);
    rewrite !countByte_app, ?C1, ?C2, ?G1, ?G2, ?T1, ?T2;
    cbn [countByte Ascii.eqb Bool.eqb]; split; lia.
Qed.


(** ** The deliveries of a live poll, request by request *)

(** The state in which the executor made its last invocation satisfies
    every invariant of the failed rounds before it. *)
Section RetryLastRound.
Context {St : Type}.
Variable wait : Z -> St -> bool * St.
Variable operation : St -> option error * St.
Variable inv : St -> Prop.
Hypothesis inv_round : forall s, inv s ->
  forall e s1, operation s = (Some e, s1) ->
  forall d s2, wait d s1 = (false, s2) -> inv s2.

Lemma backoffPhase_lastRound ds : forall s,
  inv s ->
  match backoffPhase wait operation ds s with
  | inl (r, s') =>
      exists s0, inv s0
        /\ ((r = None /\ operation s0 = (None, s'))
            \/ (r = Some ContextCanceled
                /\ exists e s1 d,
                     operation s0 = (Some e, s1) /\ wait d s1 = (true, s')))
  | inr s' => inv s'
  end.
Proof.
  induction ds as [|d ds IH]; intros s Hi; cbn [backoffPhase]; [exact Hi|].
  destruct (operation s) as [[e|] s1] eqn:Eop.
  - destruct (wait d s1) as [[|] s2] eqn:Ew.
    + exists s. split; [exact Hi|]. right. split; [reflexivity|]. eauto.
    + apply IH. eapply inv_round; eassumption.
  - exists s. split; [exact Hi|]. left. split; [reflexivity | exact Eop].
Qed.

Lemma steadyPhase_lastRound fuel : forall s r s',
  inv s -> steadyPhase wait operation fuel s = Some (r, s') ->
  exists s0, inv s0
    /\ ((r = None /\ operation s0 = (None, s'))
        \/ (r = Some ContextCanceled
            /\ exists e s1 d, operation s0 = (Some e, s1) /\ wait d s1 = (true, s'))).
Proof.
  induction fuel as [|fuel IH]; intros s r s' Hi H; cbn [steadyPhase] in H;
    [discriminate|].
  destruct (operation s) as [[e|] s1] eqn:Eop.
  - destruct (wait 60 s1) as [[|] s2] eqn:Ew.
    + inversion H; subst. exists s. split; [exact Hi|]. right.
      split; [reflexivity|]. eauto.
    + eapply IH; [|exact H]. eapply inv_round; eassumption.
  - inversion H; subst. exists s. split; [exact Hi|]. left.
    split; [reflexivity | exact Eop].
Qed.

Lemma retryWithBackoff_lastRound fuel s r s' :
  inv s -> retryWithBackoff wait operation fuel s = Some (r, s') ->
  exists s0, inv s0
    /\ ((r = None /\ operation s0 = (None, s'))
        \/ (r = Some ContextCanceled
            /\ exists e s1 d, operation s0 = (Some e, s1) /\ wait d s1 = (true, s'))).
Proof.
  intros Hi H. unfold retryWithBackoff in H.
  pose proof (backoffPhase_lastRound delays s Hi) as B.
  destruct (backoffPhase wait operation delays s) as [[r0 s0]|s0].
  - inversion H; subst. exact B.
  - eapply steadyPhase_lastRound; eassumption.
Qed.

End RetryLastRound.

Lemma retry_first_success (operation : IO (option error)) fuel w w' :
  operation w = (None, w') -> retry operation fuel w = Some (None, w').
Proof.
  intros H. unfold retry, retryWithBackoff, delays. cbn [backoffPhase].
  rewrite H. reflexivity.
Qed.

(** *** [editPhotoMessage] *)

Lemma editPhotoMessage_accepted id p c u b w body :
  imageAt (script w) (tick w) = None ->
  telegramAt (script w) (S (tick w)) = HttpResponse StatusOK body ->
  editPhotoMessage id p c u b w
  = (None, advance (record (EvEditPhoto id p c u b) (advance w))).
Proof.
  intros Hi Ht. unfold editPhotoMessage, downloadImage, httpDo.
  rewrite Hi. cbn [advance record script tick]. rewrite Ht. reflexivity.
Qed.

Lemma editPhotoMessage_succeeds id p c u b w :
  fst (editPhotoMessage id p c u b w) = None
  <-> imageAt (script w) (tick w) = None
      /\ exists body, telegramAt (script w) (S (tick w)) = HttpResponse StatusOK body.
Proof.
  split.
  - unfold editPhotoMessage, downloadImage, httpDo.
    destruct (imageAt (script w) (tick w)) as [e0|]; [cbn; discriminate|].
    cbn [advance record script tick].
    destruct (telegramAt (script w) (S (tick w))) as [e|status body];
      [cbn; discriminate|].
    destruct (status =? StatusOK) eqn:Es; cbn [negb fst]; [|discriminate].
    intros _. apply Z.eqb_eq in Es. subst status. eauto.
  - intros [Hi [body Ht]].
    rewrite (editPhotoMessage_accepted _ _ _ _ _ _ _ Hi Ht). reflexivity.
Qed.

(** Once the thumbnail downloads and Telegram accepts every request, the
    update message is delivered. *)
Lemma retry_edit_accept_terminates id p c u b w n :
  (forall t, (n <= t)%nat ->
             imageAt (script w) t = None
             /\ exists body, telegramAt (script w) t = HttpResponse StatusOK body) ->
  exists fuel r, retry (editPhotoMessage id p c u b) fuel w = Some r.
Proof.
  intros Hok. unfold retry. exists (S (n - tick w)).
  apply (retryWithBackoff_terminates ctxWait (editPhotoMessage id p c u b)
           (fun w' => script w' = script w) (fun w' => (n - tick w')%nat));
    [|reflexivity].
  intros x Hx e x1 Eop d x2 Ew.
  destruct (Nat.le_gt_cases n (tick x)) as [Hn|Hn].
  - exfalso.
    destruct (Hok (tick x) Hn) as [Hi _].
    destruct (Hok (S (tick x)) ltac:(lia)) as [_ [body Ht]].
    rewrite <- Hx in Hi, Ht.
    rewrite (editPhotoMessage_accepted _ _ _ _ _ _ _ Hi Ht) in Eop. discriminate.
  - destruct (steady_editPhotoMessage id p c u b x) as [A B].
    rewrite Eop in A, B. cbn [snd] in A, B.
    unfold ctxWait in Ew. inversion Ew; subst. cbn [advance record script tick].
    split; [congruence | lia].
Qed.

(** *** [sendPhotoMessage] *)

Lemma sendPhotoMessage_accepted p c u b w status body :
  imageAt (script w) (tick w) = None ->
  telegramAt (script w) (S (tick w)) = HttpResponse status (Some body) ->
  tg_Ok body = true ->
  sendPhotoMessage p c u b w
  = ((match tg_Result body with Some id => id | None => 0 end, None),
     advance (record (EvSendPhoto p c u b) (advance w))).
Proof.
  intros Hi Ht Hok. unfold sendPhotoMessage, downloadImage, httpDo.
  rewrite Hi. cbn [advance record script tick]. rewrite Ht, Hok. reflexivity.
Qed.

Lemma sendPhotoMessage_succeeded p c u b w id w' :
  sendPhotoMessage p c u b w = ((id, None), w') ->
  imageAt (script w) (tick w) = None
  /\ exists status body,
       telegramAt (script w) (S (tick w)) = HttpResponse status (Some body)
       /\ tg_Ok body = true
       /\ id = match tg_Result body with Some i => i | None => 0 end
       /\ w' = advance (record (EvSendPhoto p c u b) (advance w)).
Proof.
  unfold sendPhotoMessage, downloadImage, httpDo.
  destruct (imageAt (script w) (tick w)) as [e0|]; [intros H; inversion H|].
  cbn [advance record script tick].
  destruct (telegramAt (script w) (S (tick w))) as [e|status [body|]];
    [intros H; inversion H | | intros H; inversion H].
  destruct (tg_Ok body) eqn:Hok; cbn [negb]; intros H; inversion H.
  split; [reflexivity|]. exists status, body. repeat split; assumption.
Qed.

(** The rounds of the start delivery keep the script, do not turn the
    clock of interactions back, and leave 0 in [messageID]. *)
Lemma sendStart_round p c u b (w : World) (s : Z * World) :
  (script (snd s) = script w /\ (tick w <= tick (snd s))%nat) ->
  forall e s1, sendStart p c u b s = (Some e, s1) ->
  forall d s2, waitWith d s1 = (false, s2) ->
  script (snd s2) = script w /\ (tick w <= tick (snd s2))%nat.
Proof.
  intros [Hs Ht] e s1 Eop d s2 Ew.
  unfold sendStart in Eop.
  destruct (steady_sendPhotoMessage p c u b (snd s)) as [A B].
  destruct (sendPhotoMessage p c u b (snd s)) as [[id e0] w1].
  inversion Eop; subst. cbn [snd] in A, B.
  unfold waitWith, ctxWait in Ew. cbn [fst snd] in Ew. inversion Ew; subst.
  cbn [snd advance record script tick]. split; [congruence | lia].
Qed.

(** What the start delivery returns, and from which request. *)
Lemma deliverStart_last p c u b fuel w err messageID w' :
  deliverStart p c u b fuel w = Some ((err, messageID), w') ->
  (err = Some ContextCanceled /\ messageID = 0)
  \/ (err = None
      /\ exists w0,
           script w0 = script w /\ (tick w <= tick w0)%nat
           /\ sendPhotoMessage p c u b w0 = ((messageID, None), w')).
Proof.
  unfold deliverStart.
  destruct (retryWithBackoff waitWith (sendStart p c u b) fuel (0, w))
    as [[r [m w1]]|] eqn:E; [|discriminate].
  intros H; inversion H; subst. clear H.
  apply (retryWithBackoff_lastRound waitWith (sendStart p c u b)
           (fun s => script (snd s) = script w /\ (tick w <= tick (snd s))%nat)
           (sendStart_round p c u b w)) in E; [|cbn [snd]; split; [reflexivity | lia]].
  destruct E as ([m0 w0] & [Hs Ht] & [[Er Hop]|[Er (e & s1 & d & Hop & Hw)]]);
    cbn [snd] in Hs, Ht; unfold sendStart in Hop; cbn [snd] in Hop.
  - right. split; [exact Er|]. exists w0. split; [exact Hs|]. split; [exact Ht|].
    destruct (sendPhotoMessage p c u b w0) as [[id e] w2]. inversion Hop; subst.
    reflexivity.
  - left. split; [exact Er|].
    destruct (sendPhotoMessage p c u b w0) as [[id e0] w2] eqn:Es.
    inversion Hop; subst.
    unfold waitWith in Hw. cbn [fst snd] in Hw.
    destruct (ctxWait d w2) as [dn w3]. inversion Hw; subst.
    eapply sendPhotoMessage_failed; eassumption.
Qed.

Lemma deliverStart_first_success p c u b fuel w id w' :
  sendPhotoMessage p c u b w = ((id, None), w') ->
  deliverStart p c u b fuel w = Some ((None, id), w').
Proof.
  intros H. unfold deliverStart, retryWithBackoff, delays. cbn [backoffPhase].
  unfold sendStart at 1. cbn [snd]. rewrite H. reflexivity.
Qed.

(** Once the thumbnail downloads and Telegram accepts every request, the
    start delivery ends. *)
Lemma deliverStart_accept_terminates p c u b w n :
  (forall t, (n <= t)%nat ->
             imageAt (script w) t = None
             /\ exists status body,
                  telegramAt (script w) t = HttpResponse status (Some body)
                  /\ tg_Ok body = true) ->
  exists fuel r, deliverStart p c u b fuel w = Some r.
Proof.
  intros Hok. unfold deliverStart.
  destruct (retryWithBackoff_terminates waitWith (sendStart p c u b)
              (fun s => script (snd s) = script w) (fun s => (n - tick (snd s))%nat)
              ) with (s := (0, w)) as [[err [mid w1]] Hr].
  - intros [m0 x] Hx e [m1 x1] Eop d [m2 x2] Ew. cbn [snd] in *.
    unfold sendStart in Eop. cbn [snd] in Eop.
    destruct (Nat.le_gt_cases n (tick x)) as [Hn|Hn].
    + exfalso.
      destruct (Hok (tick x) Hn) as [Hi _].
      destruct (Hok (S (tick x)) ltac:(lia)) as [_ (status & body & Ht & Hb)].
      rewrite <- Hx in Hi, Ht.
      rewrite (sendPhotoMessage_accepted _ _ _ _ _ _ _ Hi Ht Hb) in Eop.
      discriminate.
    + destruct (steady_sendPhotoMessage p c u b x) as [A B].
      destruct (sendPhotoMessage p c u b x) as [[id e0] x'].
      inversion Eop; subst. cbn [snd] in A, B.
      unfold waitWith, ctxWait in Ew. cbn [fst snd] in Ew. inversion Ew; subst.
      cbn [advance record script tick]. split; [congruence | lia].
  - reflexivity.
  - cbn [snd] in Hr. exists (S (n - tick w)). rewrite Hr. eauto.
Qed.

Lemma pollCycle_start cfg loc cpu fuel st info w :
  cancelled w = false ->
  session st = None ->
  fst (checkStatus cfg st (advance w)) = (Some info, None) ->
  pollCycle cfg loc cpu fuel st w
  = startBranch cfg loc fuel info true (snd (checkStatus cfg st (advance w))).
Proof.
  intros Hc Hs Hst. rewrite (pollCycle_running _ _ _ _ _ _ Hc).
  destruct (checkStatus cfg st (advance w)) as [[i e] w0]. cbn [fst snd] in *.
  inversion Hst; subst. apply dispatch_start. exact Hs.
Qed.

(** ** Live -> Live, effect by effect *)

(** C7: in a poll cycle that finds a snapshot while a session exists, the
    data point (the time of the poll, the snapshot's viewer count) is
    appended to the history and the counter incremented. If the
    incremented counter has not reached the threshold, and the snapshot's
    game is the cached one or the cached game is empty, the cycle does
    nothing more than sleep: it ends with the longer history, the
    incremented counter and the cache as it was. Otherwise it reads the
    thumbnail address, fetches the clips, runs the delivery of the update
    message (composed from the snapshot, the average over the whole
    history, the history and the clips) as an edit of the session's
    message, and, whatever the delivery returned, ends with the counter
    at 0, the cached game, title and tags those of the snapshot, and the
    longer history. The delivery returns success or cancellation; an
    attempt succeeds exactly when the thumbnail downloads and Telegram
    answers with status 200; when the first attempt succeeds the cycle's
    effects are the clip fetch, the edit request and the sleep, in this
    order. The refreshing cycle completes once the context is cancelled,
    and once the thumbnail downloads and Telegram accepts the edit. The
    average is the floor of the sum of the counts over their number. *)
Theorem live_poll_refreshes_iff_due cfg loc cpu st s info w :
  cancelled w = false ->
  session st = Some s ->
  fst (checkStatus cfg st (advance w)) = (Some info, None) ->
  let w1 := snd (checkStatus cfg st (advance w)) in
  let point := {| pt_Timestamp := nowAt (script w1) (tick w1);
                  pt_Count := info_Viewers info |} in
  let history := (sess_ViewerHistory s ++ [point])%list in
  let counter := int_add (sess_UpdateCounter s) 1 in
  let due := cpu <= counter
             \/ (info_Game info <> sess_Game s /\ sess_Game s <> "") in
  let polled :=
    {| sess_MessageID := sess_MessageID s;
       sess_StartTime := sess_StartTime s;
       sess_Game := sess_Game s;
       sess_Title := sess_Title s;
       sess_Tags := sess_Tags s;
       sess_BroadcasterID := sess_BroadcasterID s;
       sess_ViewerHistory := history;
       sess_UpdateCounter := counter |} in
  let fresh :=
    {| sess_MessageID := sess_MessageID s;
       sess_StartTime := sess_StartTime s;
       sess_Game := info_Game info;
       sess_Title := info_Title info;
       sess_Tags := info_Tags info;
       sess_BroadcasterID := sess_BroadcasterID s;
       sess_ViewerHistory := history;
       sess_UpdateCounter := 0 |} in
  let thumbnailURL := fst (getThumbnailURL (cfg_Channel cfg) (advance w1)) in
  let w2 := snd (getThumbnailURL (cfg_Channel cfg) (advance w1)) in
  let clips :=
    clipsOf (fst (getRecentClips (sess_BroadcasterID s) (sess_StartTime s) w2)) in
  let w3 := snd (getRecentClips (sess_BroadcasterID s) (sess_StartTime s) w2) in
  let message :=
    formatUpdateMessageWithClips info (calculateAverage history) history clips loc in
  let request :=
    EvEditPhoto (sess_MessageID s) thumbnailURL message (info_URL info)
      (loc_ButtonText loc) in
  let delivery :=
    retry (editPhotoMessage (sess_MessageID s) thumbnailURL message (info_URL info)
             (loc_ButtonText loc)) in
  let w4 := advance (record request (advance w3)) in
  (~ due ->
   forall fuel,
     pollCycle cfg loc cpu fuel st w
     = Some (Continue {| session := Some polled; lastWasLive := true |},
             snd (ctxWait (cfg_CheckInterval cfg) (advance w1))))
  /\ (due ->
      forall fuel,
        pollCycle cfg loc cpu fuel st w
        = match delivery fuel w3 with
          | Some (_, w') =>
              Some (Continue {| session := Some fresh; lastWasLive := true |},
                    snd (ctxWait (cfg_CheckInterval cfg) w'))
          | None => None
          end)
  /\ (thumbnailURL
      = "https://static-cdn.jtvnw.net/previews-ttv/live_user_" ++ cfg_Channel cfg
          ++ "-1920x1080.jpg?t="
          ++ itoa (nowAt (script w1) (S (tick w1)) / 1000000000)
      /\ clips = match clipsAt (script w1) (S (S (tick w1))) with
                 | inl _ => []
                 | inr found => found
                 end)
  /\ (forall fuel r w', delivery fuel w3 = Some (r, w') ->
        r = None \/ r = Some ContextCanceled)
  /\ (forall w0,
        fst (editPhotoMessage (sess_MessageID s) thumbnailURL message (info_URL info)
               (loc_ButtonText loc) w0) = None
        <-> imageAt (script w0) (tick w0) = None
            /\ exists body,
                 telegramAt (script w0) (S (tick w0)) = HttpResponse StatusOK body)
  /\ (due ->
      imageAt (script w3) (tick w3) = None ->
      (exists body, telegramAt (script w3) (S (tick w3)) = HttpResponse StatusOK body) ->
      forall fuel,
        pollCycle cfg loc cpu fuel st w
        = Some (Continue {| session := Some fresh; lastWasLive := true |},
                snd (ctxWait (cfg_CheckInterval cfg) w4))
        /\ trace (snd (ctxWait (cfg_CheckInterval cfg) w4))
           = ([EvWait (cfg_CheckInterval cfg) (cancelled w4);
               request;
               EvGetRecentClips (sess_BroadcasterID s) (sess_StartTime s)]
              ++ trace w1)%list)
  /\ (due ->
      forall c, cancelAt (script w) = Some c ->
        exists fuel w',
          pollCycle cfg loc cpu fuel st w
          = Some (Continue {| session := Some fresh; lastWasLive := true |}, w'))
  /\ (due ->
      forall n,
        (forall t, (n <= t)%nat ->
                   imageAt (script w) t = None
                   /\ exists body, telegramAt (script w) t = HttpResponse StatusOK body) ->
        exists fuel w',
          pollCycle cfg loc cpu fuel st w
          = Some (Continue {| session := Some fresh; lastWasLive := true |}, w'))
  /\ ((forall p, In p history -> 0 <= pt_Count p) ->
      total (map pt_Count history) <= int_max ->
      calculateAverage history = total (map pt_Count history) / len history).
Proof.
  intros Hc Hs Hst. cbv zeta.
  set (w1 := snd (checkStatus cfg st (advance w))).
  assert (Hw1 : script w1 = script w).
  { unfold w1. rewrite script_checkStatus. reflexivity. }
  assert (D : forall fuel,
             pollCycle cfg loc cpu fuel st w = liveBranch cfg loc cpu fuel info s true w1).
  { intros fuel. apply pollCycle_live; assumption. }
  pose proof (refreshDue_spec cpu info s (nowAt (script w1) (tick w1))
                (info_Viewers info)) as Hdue.
  assert (E : forall fuel,
             refreshDue cpu info
               (recordPoll s (nowAt (script w1) (tick w1)) (info_Viewers info)) = true ->
             liveBranch cfg loc cpu fuel info s true w1
             = match
                 retry
                   (editPhotoMessage (sess_MessageID s)
                      (fst (getThumbnailURL (cfg_Channel cfg) (advance w1)))
                      (formatUpdateMessageWithClips info
                         (calculateAverage
                            (sess_ViewerHistory s
                               ++ [{| pt_Timestamp := nowAt (script w1) (tick w1);
                                      pt_Count := info_Viewers info |}])%list)
                         (sess_ViewerHistory s
                            ++ [{| pt_Timestamp := nowAt (script w1) (tick w1);
                                   pt_Count := info_Viewers info |}])%list
                         (clipsOf
                            (fst (getRecentClips (sess_BroadcasterID s) (sess_StartTime s)
                                    (snd (getThumbnailURL (cfg_Channel cfg) (advance w1))))))
                         loc)
                      (info_URL info) (loc_ButtonText loc)) fuel
                   (snd (getRecentClips (sess_BroadcasterID s) (sess_StartTime s)
                           (snd (getThumbnailURL (cfg_Channel cfg) (advance w1)))))
               with
               | Some (_, w') =>
                   Some (Continue
                           {| session :=
                                Some
                                  {| sess_MessageID := sess_MessageID s;
                                     sess_StartTime := sess_StartTime s;
                                     sess_Game := info_Game info;
                                     sess_Title := info_Title info;
                                     sess_Tags := info_Tags info;
                                     sess_BroadcasterID := sess_BroadcasterID s;
                                     sess_ViewerHistory :=
                                       (sess_ViewerHistory s
                                          ++ [{| pt_Timestamp := nowAt (script w1) (tick w1);
                                                 pt_Count := info_Viewers info |}])%list;
                                     sess_UpdateCounter := 0 |};
                              lastWasLive := true |},
                         snd (ctxWait (cfg_CheckInterval cfg) w'))
               | None => None
               end).
  { intros fuel Hd. unfold liveBranch. run. unfold timeNow at 1.
    cbv beta iota zeta. rewrite Hd.
    destruct (getThumbnailURL (cfg_Channel cfg) (advance w1)) as [th w2].
    cbn [recordPoll sess_BroadcasterID sess_StartTime sess_MessageID
         sess_ViewerHistory fst snd].
    unfold push.
    destruct (getRecentClips (sess_BroadcasterID s) (sess_StartTime s) w2)
      as [got w3].
    cbn [fst snd].
    match goal with |- context [retry ?op fuel w3] =>
      destruct (retry op fuel w3) as [[r w4]|] end; reflexivity. }
  split; [|split; [|split; [|split; [|split; [|split; [|split; [|split]]]]]]].
  - intros Hd fuel. rewrite D.
    rewrite liveBranch_not_due; [reflexivity|].
    apply not_true_is_false. intros Er. apply Hd. apply Hdue. exact Er.
  - intros Hd fuel. rewrite D. apply E. apply Hdue. exact Hd.
  - split; reflexivity.
  - intros fuel r w' H. eapply retry_outcome. exact H.
  - intros w0. apply editPhotoMessage_succeeds.
  - intros Hd Hi [body Ht] fuel. split; [|reflexivity].
    rewrite D, E by (apply Hdue; exact Hd).
    erewrite retry_first_success; [reflexivity|].
    eapply editPhotoMessage_accepted; eassumption.
  - intros Hd c Hcan.
    match type of E with forall fuel, _ -> _ = match retry ?op fuel ?x with _ => _ end =>
      destruct (retry_cancel_terminates op x c) as (fuel & [r w'] & Hr) end.
    + apply steady_editPhotoMessage.
    + cbn [getRecentClips getThumbnailURL timeNow snd advance record script].
      rewrite Hw1. exact Hcan.
    + exists fuel. eexists. rewrite D, E by (apply Hdue; exact Hd).
      rewrite Hr. reflexivity.
  - intros Hd n Hok.
    match type of E with forall fuel, _ -> _ = match retry (editPhotoMessage ?i ?p ?m ?u ?b) fuel ?x with _ => _ end =>
      destruct (retry_edit_accept_terminates i p m u b x n) as (fuel & [r w'] & Hr) end.
    + intros t Ht.
      cbn [getRecentClips getThumbnailURL timeNow snd advance record script].
      rewrite Hw1. apply Hok. exact Ht.
    + exists fuel. eexists. rewrite D, E by (apply Hdue; exact Hd).
      rewrite Hr. reflexivity.
  - intros Hp Ht. apply calculateAverage_quotient; [|exact Hp | exact Ht].
    destruct (sess_ViewerHistory s); discriminate.
Qed.

(** The second live poll of the example. With threshold 5 the counter goes
    to 1 and the game is the cached one: the poll only records the data
    point. With threshold 1 the same poll refreshes: it fetches the clips,
    edits message 77, and ends with the counter at 0. *)
Lemma live_poll_refreshes_iff_due_witness :
  let w := Demo.world 10 (StreamLive Demo.info) Demo.accepted None [] in
  let history := [{| pt_Timestamp := 500000000000; pt_Count := 1500 |};
                  {| pt_Timestamp := 1300000000000; pt_Count := 1500 |}] in
  (cancelled w = false
   /\ session Demo.live = Some Demo.session0
   /\ fst (checkStatus Demo.cfg Demo.live (advance w)) = (Some Demo.info, None))
  /\ (forall fuel,
        Demo.ending (pollCycle Demo.cfg Demo.loc 5 fuel Demo.live w)
        = Some (Continue
                  {| session :=
                       Some {| sess_MessageID := 77;
                               sess_StartTime := 800000000000;
                               sess_Game := "Chess";
                               sess_Title := "Speedrun";
                               sess_Tags := ["en"; ""; "chess"];
                               sess_BroadcasterID := "b1";
                               sess_ViewerHistory := history;
                               sess_UpdateCounter := 1 |};
                     lastWasLive := true |}))
  /\ exists w',
       pollCycle Demo.cfg Demo.loc 1 0 Demo.live w
       = Some (Continue
                 {| session :=
                      Some {| sess_MessageID := 77;
                              sess_StartTime := 800000000000;
                              sess_Game := "Chess";
                              sess_Title := "Speedrun";
                              sess_Tags := ["en"; ""; "chess"];
                              sess_BroadcasterID := "b1";
                              sess_ViewerHistory := history;
                              sess_UpdateCounter := 0 |};
                    lastWasLive := true |}, w')
       /\ rev (trace w')
          = [EvGetStreamInfo "chan";
             EvGetRecentClips "b1" 800000000000;
             EvEditPhoto 77
               "https://static-cdn.jtvnw.net/previews-ttv/live_user_chan-1920x1080.jpg?t=1400"
               (formatUpdateMessageWithClips Demo.info 1500 history [] Demo.loc)
               "https://twitch.tv/chan" "Watch";
             EvWait 60 false].
Proof.
  cbv zeta. split; [repeat split|]. split.
  - intros fuel.
    rewrite (proj1 (live_poll_refreshes_iff_due Demo.cfg Demo.loc 5 Demo.live
                      Demo.session0 Demo.info
                      (Demo.world 10 (StreamLive Demo.info) Demo.accepted None [])
                      eq_refl eq_refl eq_refl)).
    + reflexivity.
    + intros [H|[H _]]; [vm_compute in H; apply H; reflexivity | apply H; reflexivity].
  - eexists. split.
    + refine (proj1 (proj1 (proj2 (proj2 (proj2 (proj2 (proj2
                (live_poll_refreshes_iff_due Demo.cfg Demo.loc 1 Demo.live
                   Demo.session0 Demo.info
                   (Demo.world 10 (StreamLive Demo.info) Demo.accepted None [])
                   eq_refl eq_refl eq_refl))))))
                _ eq_refl (ex_intro _ _ eq_refl) 0%nat)).
      left. vm_compute. discriminate.
    + vm_compute. reflexivity.
Defined.

(** ** Offline -> Live, effect by effect *)

(** C4 (as amended): in a poll cycle that finds a snapshot while no
    session exists, the broadcaster id is looked up first. When the lookup
    fails the cycle sleeps and ends with no session, and nothing is sent.
    Otherwise the cycle reads the thumbnail address, takes the time, and
    runs the delivery of the start message composed from the snapshot; how
    it ends is decided by the message id the delivery leaves. With a
    non-zero id the cycle takes the time again and ends with a session
    that holds that id, that start time, the snapshot's game, title and
    tags, the broadcaster id, one data point (the time taken before the
    delivery, the snapshot's viewer count) and counter 0. With id 0 it
    ends with no session. The delivery leaves id 0 after a cancellation;
    after a success it leaves the id of the answer to its last request,
    which Telegram accepted, and that is 0 when the accepted answer
    carries no message id. When the first request is accepted the
    delivery's only effect is that request. The cycle completes once the
    context is cancelled, and once the thumbnail downloads and Telegram
    accepts the message. *)
Theorem offline_live_creates_session cfg loc cpu st info w :
  cancelled w = false ->
  session st = None ->
  fst (checkStatus cfg st (advance w)) = (Some info, None) ->
  let w1 := snd (checkStatus cfg st (advance w)) in
  let lookup := fst (getBroadcasterID (cfg_Channel cfg) w1) in
  let w2 := snd (getBroadcasterID (cfg_Channel cfg) w1) in
  let thumbnailURL := fst (getThumbnailURL (cfg_Channel cfg) w2) in
  let w3 := snd (getThumbnailURL (cfg_Channel cfg) w2) in
  let point := {| pt_Timestamp := nowAt (script w3) (tick w3);
                  pt_Count := info_Viewers info |} in
  let w4 := advance w3 in
  let message := formatStartMessage info loc in
  let request :=
    EvSendPhoto thumbnailURL message (info_URL info) (loc_ButtonText loc) in
  let delivery :=
    deliverStart thumbnailURL message (info_URL info) (loc_ButtonText loc) in
  let idOf := fun body : TelegramResponse =>
                match tg_Result body with Some id => id | None => 0 end in
  let none := {| session := None; lastWasLive := true |} in
  (forall e, lookup = inl e ->
     forall fuel,
       pollCycle cfg loc cpu fuel st w
       = Some (Continue none, snd (ctxWait (cfg_CheckInterval cfg) w2)))
  /\ (forall broadcasterID, lookup = inr broadcasterID ->
        forall fuel,
          pollCycle cfg loc cpu fuel st w
          = match delivery fuel w4 with
            | None => None
            | Some ((_, messageID), w') =>
                if messageID =? 0
                then Some (Continue none, snd (ctxWait (cfg_CheckInterval cfg) w'))
                else
                  Some (Continue
                          {| session :=
                               Some {| sess_MessageID := messageID;
                                       sess_StartTime := nowAt (script w') (tick w');
                                       sess_Game := info_Game info;
                                       sess_Title := info_Title info;
                                       sess_Tags := info_Tags info;
                                       sess_BroadcasterID := broadcasterID;
                                       sess_ViewerHistory := [point];
                                       sess_UpdateCounter := 0 |};
                             lastWasLive := true |},
                        snd (ctxWait (cfg_CheckInterval cfg) (advance w')))
            end)
  /\ (forall fuel err messageID w',
        delivery fuel w4 = Some ((err, messageID), w') ->
        (err = Some ContextCanceled /\ messageID = 0)
        \/ (err = None
            /\ exists w0,
                 script w0 = script w /\ (tick w4 <= tick w0)%nat
                 /\ imageAt (script w) (tick w0) = None
                 /\ exists status body,
                      telegramAt (script w) (S (tick w0))
                      = HttpResponse status (Some body)
                      /\ tg_Ok body = true
                      /\ messageID = idOf body
                      /\ w' = advance (record request (advance w0))))
  /\ (forall status body,
        imageAt (script w4) (tick w4) = None ->
        telegramAt (script w4) (S (tick w4)) = HttpResponse status (Some body) ->
        tg_Ok body = true ->
        forall fuel,
          delivery fuel w4
          = Some ((None, idOf body), advance (record request (advance w4)))
          /\ trace (advance (record request (advance w4)))
             = ([request; EvGetBroadcasterID (cfg_Channel cfg)] ++ trace w1)%list)
  /\ (forall c, cancelAt (script w) = Some c ->
        exists fuel step w', pollCycle cfg loc cpu fuel st w = Some (step, w'))
  /\ (forall n,
        (forall t, (n <= t)%nat ->
                   imageAt (script w) t = None
                   /\ exists status body,
                        telegramAt (script w) t = HttpResponse status (Some body)
                        /\ tg_Ok body = true) ->
        exists fuel step w', pollCycle cfg loc cpu fuel st w = Some (step, w')).
Proof.
  intros Hc Hs Hst. cbv zeta.
  set (w1 := snd (checkStatus cfg st (advance w))).
  assert (Hw1 : script w1 = script w).
  { unfold w1. rewrite script_checkStatus. reflexivity. }
  assert (D : forall fuel,
             pollCycle cfg loc cpu fuel st w = startBranch cfg loc fuel info true w1).
  { intros fuel. apply pollCycle_start; assumption. }
  split; [|split; [|split; [|split; [|split]]]].
  - intros e He fuel. rewrite D. unfold startBranch. run.
    unfold getBroadcasterID in *. cbn [fst snd] in *. rewrite He. reflexivity.
  - intros bid Hb fuel. rewrite D. unfold startBranch. run.
    unfold getBroadcasterID in *. cbn [fst snd] in *. rewrite Hb.
    unfold getThumbnailURL, timeNow. cbv beta iota zeta. cbn [fst snd].
    match goal with |- context [deliverStart ?a ?b ?c ?d fuel ?x] =>
      destruct (deliverStart a b c d fuel x) as [[[err mid] w']|] end;
      [|reflexivity].
    cbn [snd]. destruct (mid =? 0); reflexivity.
  - intros fuel err mid w' H.
    apply deliverStart_last in H.
    destruct H as [H|[He (w0 & Hs0 & Ht0 & H)]]; [left; exact H|].
    right. split; [exact He|].
    apply sendPhotoMessage_succeeded in H.
    destruct H as (Hi & status & body & Ht & Hok & Hid & Hw').
    exists w0. rewrite Hs0 in Hi, Ht.
    cbn [getBroadcasterID getThumbnailURL timeNow snd advance record script] in Hi, Ht, Hs0.
    rewrite Hw1 in Hi, Ht, Hs0.
    split; [exact Hs0|]. split; [exact Ht0|]. split; [exact Hi|].
    exists status, body. repeat split; assumption.
  - intros status body Hi Ht Hok fuel. split; [|reflexivity].
    apply deliverStart_first_success.
    apply (sendPhotoMessage_accepted _ _ _ _ _ _ _ Hi Ht Hok).
  - intros c Hcan.
    destruct (startBranch_cancel_terminates cfg loc info true w1 c)
      as (fuel & [step w'] & H); [rewrite Hw1; exact Hcan|].
    exists fuel, step, w'. rewrite D. exact H.
  - intros n Hok.
    destruct (deliverStart_accept_terminates
                (fst (getThumbnailURL (cfg_Channel cfg)
                        (snd (getBroadcasterID (cfg_Channel cfg) w1))))
                (formatStartMessage info loc) (info_URL info) (loc_ButtonText loc)
                (advance (snd (getThumbnailURL (cfg_Channel cfg)
                                 (snd (getBroadcasterID (cfg_Channel cfg) w1))))) n)
      as (fuel & [[err mid] w'] & Hd).
    { intros t Ht.
      cbn [getBroadcasterID getThumbnailURL timeNow snd advance record script].
      rewrite Hw1. apply Hok. exact Ht. }
    exists fuel. rewrite D. unfold startBranch. run.
    unfold getBroadcasterID in *. cbn [fst snd] in *.
    destruct (broadcasterAt (script w1) (tick w1)) as [e|bid].
    + rewrite endOfCycle_eq. eauto.
    + unfold getThumbnailURL, timeNow in *. cbv beta iota zeta in *.
      cbn [fst snd] in *. rewrite Hd. cbn [snd].
      destruct (negb (mid =? 0)); rewrite endOfCycle_eq; eauto.
Qed.

(** The first live poll of the example: Telegram accepts the start message
    with id 77, and the cycle ends with [Demo.session0]; its effects are
    the status request, the lookup, the message and the sleep. *)
Lemma offline_live_creates_session_witness :
  let w := Demo.world 0 (StreamLive Demo.info) Demo.accepted None [] in
  (cancelled w = false
   /\ session initialState = None
   /\ fst (checkStatus Demo.cfg initialState (advance w)) = (Some Demo.info, None))
  /\ Demo.ending (pollCycle Demo.cfg Demo.loc 5 0 initialState w)
     = Some (Continue {| session := Some Demo.session0; lastWasLive := true |})
  /\ Demo.effects (pollCycle Demo.cfg Demo.loc 5 0 initialState w)
     = Some [EvGetStreamInfo "chan"; EvGetBroadcasterID "chan";
             EvSendPhoto
               "https://static-cdn.jtvnw.net/previews-ttv/live_user_chan-1920x1080.jpg?t=400"
               (formatStartMessage Demo.info Demo.loc)
               "https://twitch.tv/chan" "Watch";
             EvWait 60 false].
Proof.
  cbv zeta. split; [repeat split|].
  rewrite (proj1 (proj2 (offline_live_creates_session Demo.cfg Demo.loc 5
                           initialState Demo.info
                           (Demo.world 0 (StreamLive Demo.info) Demo.accepted None [])
                           eq_refl eq_refl eq_refl)) "b1" eq_refl 0%nat).
  split; vm_compute; reflexivity.
Defined.
